(** * Credit-agreement chatbot: a shallow embedding of credit_agreement_chatbot.py

    The development follows the class [CreditAgreementChatbot].

    Definitions:
    - [PyStr]         the fragment of Python [str] the metadata enricher
                      uses ([lower], [in], slicing);
    - [Regex]         the fragment of [re] used by [_extract_section_info]:
                      patterns, their meaning, a backtracking matcher;
    - [Enricher]      [_identify_document_type], [_extract_section_info];
    - [EnricherSpec]  the rule table and the labelling the enricher is
                      compared with;
    - [Chatbot]       the object, its collaborators (loaders, splitter,
                      FAISS, QA chain, clock, logger) and the methods, in
                      a monad of state and exceptions;
    - [ChatbotSpec]   the vocabulary of the statements about the methods;
    - [Scenario]      concrete collaborators and objects;
    - [ChatLoop]      the chat loop of [main];
    - [ExampleUsage]  the covenant analysis of example_usage.py;
    - [Setup]         [check_python_version] and [setup_env_file] of
                      setup.py;
    - [MoreSpec], [MoreScenario], [RebuildSpec]
                      further vocabulary and concrete runs.

    Proofs: [PyStrFacts], [RegexFacts], [EnricherFacts], [ChatbotFacts],
    [MoreChatbotFacts], [MoreEnricherFacts], [MetadataFacts],
    [ChatLoopFacts], [ExampleUsageFacts], [SetupFacts], [RebuildFacts].

    Text is modelled as [string]: the characters are the code points
    U+0000..U+00FF, on which [str.lower] acts character by character.
    What a collaborator does during a call (which files parse, whether
    the embedding model or the disk fails, what the clock shows) is
    given by an [Env]; the methods are functions of it. *)

From Stdlib Require Import Bool List Arith ZArith QArith Lia.
From Stdlib Require Import Ascii String Permutation.
Import ListNotations.

Close Scope Q_scope.
Local Open Scope string_scope.

(* ================================================================== *)
(** ** Python strings *)

Module PyStr.

Definition code (c : ascii) : N := N_of_ascii c.

Definition between (lo hi : N) (c : ascii) : bool :=
  (N.leb lo (code c) && N.leb (code c) hi)%bool.

(** [str.lower] on one code point below U+0100: A-Z and the upper-case
    letters of the Latin-1 block (U+00C0..U+00DE without the
    multiplication sign U+00D7) move up by 32. *)
Definition chr_lower (c : ascii) : ascii :=
  if (between 65 90 c
      || (between 192 222 c && negb (N.eqb (code c) 215)))%bool
  then ascii_of_N (code c + 32)
  else c.

(** [s.lower()] *)
Fixpoint lower (s : string) : string :=
  match s with
  | EmptyString => EmptyString
  | String c s' => String (chr_lower c) (lower s')
  end.

(** [s.upper()] restricted to a-z: only used to phrase examples. *)
Definition chr_upper_ascii (c : ascii) : ascii :=
  if between 97 122 c then ascii_of_N (code c - 32) else c.

Fixpoint upper_ascii (s : string) : string :=
  match s with
  | EmptyString => EmptyString
  | String c s' => String (chr_upper_ascii c) (upper_ascii s')
  end.

(** [s[n:]] *)
Fixpoint drop (n : nat) (s : string) : string :=
  match n, s with
  | O, _ => s
  | S _, EmptyString => EmptyString
  | S n', String _ s' => drop n' s'
  end.

(** [s[:n]] *)
Fixpoint take (n : nat) (s : string) : string :=
  match n, s with
  | O, _ => EmptyString
  | S _, EmptyString => EmptyString
  | S n', String c s' => String c (take n' s')
  end.

(** [needle in hay] *)
Fixpoint contains (needle hay : string) : bool :=
  (prefix needle hay
   || match hay with
      | EmptyString => false
      | String _ hay' => contains needle hay'
      end)%bool.

(** [s.endswith(suffix)] *)
Definition endswith (s suffix : string) : bool :=
  (Nat.leb (length suffix) (length s)
   && String.eqb (drop (length s - length suffix) s) suffix)%bool.

(** A substring of [text], cut out by position. *)
Definition occurs_at (text pre mid post : string) : Prop :=
  text = pre ++ mid ++ post.

(** [needle] occurs in [text] when case is ignored. *)
Definition occurs_ignoring_case (needle text : string) : Prop :=
  exists pre mid post,
    occurs_at text pre mid post /\ lower mid = lower needle.

End PyStr.

(* ================================================================== *)
(** ** The fragment of [re] used by the enricher *)

Module Regex.

(** Patterns: literals, character classes, sequence, ordered
    alternative, and the greedy star of a character class (the source
    only repeats classes). *)
Inductive regex : Type :=
| Eps
| Lit (s : string)
| Cls (p : ascii -> bool)
| Seq (r1 r2 : regex)
| Alt (r1 r2 : regex)
| Star (p : ascii -> bool).

(** [c+] and [r?] *)
Definition Plus (p : ascii -> bool) : regex := Seq (Cls p) (Star p).
Definition Opt (r : regex) : regex := Alt r Eps.

(** Declarative meaning: the words of a pattern. *)
Inductive matches : regex -> string -> Prop :=
| MEps : matches Eps EmptyString
| MLit s : matches (Lit s) s
| MCls p c : p c = true -> matches (Cls p) (String c EmptyString)
| MSeq r1 r2 w1 w2 :
    matches r1 w1 -> matches r2 w2 -> matches (Seq r1 r2) (w1 ++ w2)
| MAltL r1 r2 w : matches r1 w -> matches (Alt r1 r2) w
| MAltR r1 r2 w : matches r2 w -> matches (Alt r1 r2) w
| MStarNil p : matches (Star p) EmptyString
| MStarCons p c w :
    p c = true -> matches (Star p) w -> matches (Star p) (String c w).

Definition prepend (w : string) (o : option string) : option string :=
  match o with
  | Some m => Some (w ++ m)
  | None => None
  end.

Definition or_else (o : option string) (alt : option string)
  : option string :=
  match o with
  | Some m => Some m
  | None => alt
  end.

(** Greedy repetition of a class: take as many characters as
    possible, give back one at a time while the rest fails. *)
Fixpoint star_match (p : ascii -> bool) (s : string)
         (k : string -> option string) : option string :=
  match s with
  | EmptyString => k s
  | String c s' =>
      if p c
      then or_else (prepend (String c EmptyString) (star_match p s' k)) (k s)
      else k s
  end.

(** The backtracking matcher, anchored at the start of [s]: the text
    matched by [r] followed by what the continuation [k] matched on the
    rest, alternatives tried in the order [re] tries them. *)
Fixpoint rmatch (r : regex) (s : string)
         (k : string -> option string) : option string :=
  match r with
  | Eps => k s
  | Lit l =>
      if prefix l s then prepend l (k (PyStr.drop (length l) s)) else None
  | Cls p =>
      match s with
      | String c s' => if p c then prepend (String c EmptyString) (k s') else None
      | EmptyString => None
      end
  | Seq r1 r2 => rmatch r1 s (fun s' => rmatch r2 s' k)
  | Alt r1 r2 => or_else (rmatch r1 s k) (rmatch r2 s k)
  | Star p => star_match p s k
  end.

(** What a successful run of the matcher found: a word of the pattern
    at the start of the input, and a success of the continuation on
    the rest. *)
Definition found (r : regex) (s : string) (k : string -> option string)
           (m : string) : Prop :=
  exists w rest m',
    s = w ++ rest /\ matches r w /\ k rest = Some m' /\ m = w ++ m'.

(** [re.match(r, s).group(0)] *)
Definition re_match (r : regex) (s : string) : option string :=
  rmatch r s (fun _ => Some EmptyString).

(** [re.search(r, s).group(0)]: the match at the leftmost position
    that has one. *)
Fixpoint re_search (r : regex) (s : string) : option string :=
  match re_match r s with
  | Some m => Some m
  | None =>
      match s with
      | EmptyString => None
      | String _ s' => re_search r s'
      end
  end.

(** The longest start of [s] made of characters of the class, and what
    follows it. *)
Fixpoint run (p : ascii -> bool) (s : string) : string :=
  match s with
  | EmptyString => EmptyString
  | String c s' => if p c then String c (run p s') else EmptyString
  end.

Fixpoint after_run (p : ascii -> bool) (s : string) : string :=
  match s with
  | EmptyString => EmptyString
  | String c s' => if p c then after_run p s' else s
  end.

(** The first character of [s], if any, is outside the class. *)
Definition stops (p : ascii -> bool) (s : string) : Prop :=
  match s with
  | EmptyString => True
  | String c _ => p c = false
  end.

(** Character classes of the four patterns.  [\s] and [\d] are the
    Unicode classes of a [str] pattern, cut to code points below
    U+0100. *)
Definition is_space (c : ascii) : bool :=
  (PyStr.between 9 13 c || PyStr.between 28 32 c
   || N.eqb (PyStr.code c) 133 || N.eqb (PyStr.code c) 160)%bool.

Definition is_digit (c : ascii) : bool := PyStr.between 48 57 c.

Definition is_dot (c : ascii) : bool := Ascii.eqb c "."%char.

(** [[IVXLCDM]] *)
Definition is_roman (c : ascii) : bool :=
  existsb (Ascii.eqb c)
          ["I"; "V"; "X"; "L"; "C"; "D"; "M"]%char.

End Regex.

(* ================================================================== *)
(** ** Metadata enricher *)

Module Enricher.
Import Regex.

(** [_identify_document_type] *)
Definition _identify_document_type (text : string) : string :=
  let text_lower := PyStr.lower text in
  if PyStr.contains "compliance certificate" text_lower then
    "Compliance Certificate"
  else if (PyStr.contains "credit agreement" text_lower
           || PyStr.contains "loan agreement" text_lower)%bool then
    "Credit Agreement"
  else if PyStr.contains "credit application" text_lower then
    "Credit Application"
  else if PyStr.contains "lsta" text_lower then
    "LSTA Agreement"
  else
    "Credit Document".

(** The five labels, in the order the source checks them. *)
Definition document_types : list string :=
  [ "Compliance Certificate"; "Credit Agreement"; "Credit Application";
    "LSTA Agreement"; "Credit Document" ].

(** [\d+\.?\d*] *)
Definition number : regex :=
  Seq (Plus is_digit) (Seq (Opt (Cls is_dot)) (Star is_digit)).

(** [([IVXLCDM]+|\d+)] *)
Definition roman_or_number : regex :=
  Alt (Plus is_roman) (Plus is_digit).

(** [keyword\s+body] *)
Definition heading (keyword : string) (body : regex) : regex :=
  Seq (Lit keyword) (Seq (Plus is_space) body).

Definition patterns : list regex :=
  [ heading "SECTION" number;
    heading "Section" number;
    heading "ARTICLE" roman_or_number;
    heading "Article" roman_or_number ].

(** The [for pattern in patterns] loop of [_extract_section_info]. *)
Fixpoint first_search (ps : list regex) (s : string) : option string :=
  match ps with
  | [] => None
  | p :: ps' =>
      match re_search p s with
      | Some m => Some m
      | None => first_search ps' s
      end
  end.

(** [_extract_section_info] *)
Definition _extract_section_info (text : string) : option string :=
  first_search patterns (PyStr.take 500 text).

End Enricher.


(* ================================================================== *)
(** ** What the enricher is meant to compute *)

Module EnricherSpec.
Import Regex.

(** A classification rule: the label and the substrings that select
    it. *)
Definition rule : Type := (list string * string)%type.

(** The ordered rule table of the classifier, with the substrings the
    source looks for. *)
Definition classification_rules : list rule :=
  [ (["compliance certificate"], "Compliance Certificate");
    (["credit agreement"; "loan agreement"], "Credit Agreement");
    (["credit application"], "Credit Application");
    (["lsta"], "LSTA Agreement") ].

Definition default_type : string := "Credit Document".

(** A rule fires on a text when one of its substrings occurs in it,
    case ignored. *)
Definition fires (r : rule) (text : string) : Prop :=
  exists needle,
    In needle (fst r) /\ PyStr.occurs_ignoring_case needle text.

(** First match wins; a text no rule fires on gets the default. *)
Inductive first_match (text : string) : list rule -> string -> Prop :=
| FirstDefault : first_match text [] default_type
| FirstHit r rest :
    fires r text -> first_match text (r :: rest) (snd r)
| FirstSkip r rest label :
    ~ fires r text -> first_match text rest label ->
    first_match text (r :: rest) label.

(** A pattern has a match somewhere in [s]. *)
Definition has_match (r : regex) (s : string) : Prop :=
  exists pre m post, PyStr.occurs_at s pre m post /\ matches r m.

(** [m] is a match of [r] in [s], no match of [r] starts further left,
    and no match that starts at the same place is longer. *)
Definition leftmost_longest_match (r : regex) (s m : string) : Prop :=
  exists pre post,
    PyStr.occurs_at s pre m post /\ matches r m /\
    forall pre' m' post',
      PyStr.occurs_at s pre' m' post' -> matches r m' ->
      length pre < length pre' \/
      (length pre' = length pre /\ length m' <= length m).

(** The match the matcher returns at the start of a text is the longest
    one there. *)
Definition greedy_is_longest (r : regex) : Prop :=
  forall s m, re_match r s = Some m ->
    forall m' post', s = m' ++ post' -> matches r m' ->
      length m' <= length m.

(** No word of the pattern starts with a character of the class. *)
Definition starts_outside (p : ascii -> bool) (r : regex) : Prop :=
  forall w, matches r w -> exists c w', w = String c w' /\ p c = false.

(** The text [\.?\d*] takes at the start of [x] when anything may
    follow. *)
Definition fraction (x : string) : string :=
  match x with
  | EmptyString => EmptyString
  | String d x' =>
      if is_dot d then String d (run is_digit x') else run is_digit x
  end.

(** The label of a window of text under an ordered list of patterns:
    the match of the first pattern that has one. *)
Inductive section_label (window : string)
  : list regex -> option string -> Prop :=
| LabelNone : section_label window [] None
| LabelHit r rest m :
    leftmost_longest_match r window m ->
    section_label window (r :: rest) (Some m)
| LabelNext r rest label :
    ~ has_match r window -> section_label window rest label ->
    section_label window (r :: rest) label.

(** The four patterns of the specification, in the order they are
    tried: SECTION or Section and a number, ARTICLE or Article and a
    roman numeral or a number.  The keyword is followed by white space;
    a number after SECTION is digits, optionally followed by a dot and
    further digits; after ARTICLE come letters of IVXLCDM, or
    digits. *)
Definition decimal_number : regex :=
  Seq (Plus is_digit) (Seq (Opt (Cls is_dot)) (Star is_digit)).

Definition roman_numeral_or_digits : regex :=
  Alt (Plus is_roman) (Plus is_digit).

Definition keyword_then (keyword : string) (what : regex) : regex :=
  Seq (Lit keyword) (Seq (Plus is_space) what).

Definition section_patterns : list regex :=
  [ keyword_then "SECTION" decimal_number;
    keyword_then "Section" decimal_number;
    keyword_then "ARTICLE" roman_numeral_or_digits;
    keyword_then "Article" roman_numeral_or_digits ].

End EnricherSpec.

(* ================================================================== *)
(** ** The chatbot object and its collaborators *)

Module Chatbot.

(** *** Exceptions and results *)

(** The exceptions that reach the methods: the two the interpreter
    raises on [None], and whatever a collaborator raises. *)
Inductive PyExc : Type :=
| AttributeError (msg : string)
| TypeError (msg : string)
| ExternalError (msg : string).

(** [str(e)] *)
Definition exc_str (e : PyExc) : string :=
  match e with
  | AttributeError msg => msg
  | TypeError msg => msg
  | ExternalError msg => msg
  end.

Inductive outcome (A : Type) : Type :=
| Return (a : A)
| Raise (e : PyExc).

Arguments Return {A} a.
Arguments Raise {A} e.

Definition returns {A : Type} (o : outcome A) : bool :=
  match o with
  | Return _ => true
  | Raise _ => false
  end.

(** *** Documents *)

Inductive PyVal : Type :=
| VStr (s : string)
| VInt (n : Z).

(** A metadata [dict], in insertion order. *)
Definition Dict : Type := list (string * PyVal).

(** [d.get(k)] *)
Fixpoint dict_get (d : Dict) (k : string) : option PyVal :=
  match d with
  | [] => None
  | (k', v) :: d' => if String.eqb k' k then Some v else dict_get d' k
  end.

(** [d.get(k, dflt)] *)
Definition dict_get_default (d : Dict) (k : string) (dflt : PyVal) : PyVal :=
  match dict_get d k with
  | Some v => v
  | None => dflt
  end.

(** [k in d] *)
Definition dict_has (d : Dict) (k : string) : bool :=
  match dict_get d k with
  | Some _ => true
  | None => false
  end.

(** [d[k] = v] *)
Fixpoint dict_set (d : Dict) (k : string) (v : PyVal) : Dict :=
  match d with
  | [] => [(k, v)]
  | (k', v') :: d' =>
      if String.eqb k' k then (k, v) :: d' else (k', v') :: dict_set d' k v
  end.

(** [langchain.schema.Document] *)
Record Document : Type := mkDocument {
  page_content : string;
  metadata : Dict
}.

(** *** Paths ([pathlib.PurePosixPath]) *)

(** [s.split('/')] *)
Fixpoint split_slash (s : string) : list string :=
  match s with
  | EmptyString => [EmptyString]
  | String c s' =>
      match split_slash s' with
      | [] => [String c EmptyString]
      | h :: t =>
          if Ascii.eqb c "/"%char then EmptyString :: h :: t else String c h :: t
      end
  end.

(** The components of a path: empty and [.] components are dropped. *)
Definition path_parts (p : string) : list string :=
  filter (fun c => negb (String.eqb c EmptyString || String.eqb c ".")%bool)
         (split_slash p).

(** [Path(p).name] *)
Definition path_name (p : string) : string := last (path_parts p) EmptyString.

(** [name.rfind('.')] *)
Fixpoint rfind_dot (s : string) : option nat :=
  match s with
  | EmptyString => None
  | String c s' =>
      match rfind_dot s' with
      | Some i => Some (S i)
      | None => if Ascii.eqb c "."%char then Some O else None
      end
  end.

(** [Path(p).suffix] *)
Definition path_suffix (p : string) : string :=
  let name := path_name p in
  match rfind_dot name with
  | Some i =>
      if (Nat.ltb 0 i && Nat.ltb i (length name - 1))%bool
      then PyStr.drop i name
      else EmptyString
  | None => EmptyString
  end.

(** *** The vector store, in memory and on disk *)

(** A FAISS store: the vector index and the docstore.  An embedding is
    a function of the text it embeds, so a vector is represented by
    that text. *)
Record VectorStore : Type := mkVectorStore {
  vs_index : list string;
  vs_docstore : list Document
}.

(** The directory at [vector_store_path]: [index.faiss] holds the
    vector index, [index.pkl] the docstore. *)
Record StoreDir : Type := mkStoreDir {
  index_faiss : option (list string);
  index_pkl : option (list Document)
}.

(** [RetrievalQA]: the chain keeps the retriever of the store it was
    created over. *)
Record QAChain : Type := mkQAChain {
  chain_store : VectorStore
}.

(** *** Logging *)

Inductive Level : Type := INFO | WARNING | ERROR.

(** One constructor per [logger] call of the class. *)
Inductive LogMsg : Type :=
| LoadingExistingStore
| StoreLoaded
| ErrorLoadingStore (e : PyExc)
| CreatingNewStore
| NoExistingStore
| LoadingDocuments
| LoadedDocuments (n : nat)
| ErrorLoadingDocuments (e : PyExc)
| Preprocessing
| CreatedChunks (chunks docs : nat)
| RefreshingIndex
| NoDocumentsFound
| CreatingStore
| StoreRefreshed (at_time : Z)
| IntervalReached
| ChainInitialized
| ProcessingQuery (question : string)
| ErrorProcessingQuery (e : PyExc)
| ManualRefreshTriggered
| LoadingEmbeddingModel (model : string).

Definition LogRecord : Type := (Level * LogMsg)%type.

(** *** Configuration of the text splitter ([__init__]) *)

Record SplitterConfig : Type := mkSplitterConfig {
  chunk_size : nat;
  chunk_overlap : nat;
  separators : list string
}.

Definition newline : string := String (ascii_of_nat 10) EmptyString.

Definition text_splitter : SplitterConfig :=
  {| chunk_size := 1200;
     chunk_overlap := 200;
     separators :=
       [ newline ++ newline; newline; "SECTION"; "Section"; "ARTICLE";
         "Article"; ". "; " "; EmptyString ] |}.

(** *** State *)

(** The fields of the object that the methods assign, and the parts of
    the surroundings they change: the directory at [vector_store_path],
    the number of clock readings taken, the log (newest record
    first).  A [datetime] is a count of microseconds. *)
Record State : Type := mkState {
  refresh_interval : Z;
  last_refresh : option Z;
  vector_store : option VectorStore;
  qa_chain : option QAChain;
  store_dir : option StoreDir;
  clock_reads : nat;
  log : list LogRecord
}.

Definition set_last_refresh (v : option Z) (s : State) : State :=
  mkState (refresh_interval s) v (vector_store s) (qa_chain s)
          (store_dir s) (clock_reads s) (log s).

Definition set_vector_store (v : option VectorStore) (s : State) : State :=
  mkState (refresh_interval s) (last_refresh s) v (qa_chain s)
          (store_dir s) (clock_reads s) (log s).

Definition set_qa_chain (v : option QAChain) (s : State) : State :=
  mkState (refresh_interval s) (last_refresh s) (vector_store s) v
          (store_dir s) (clock_reads s) (log s).

Definition set_store_dir (v : option StoreDir) (s : State) : State :=
  mkState (refresh_interval s) (last_refresh s) (vector_store s)
          (qa_chain s) v (clock_reads s) (log s).

Definition set_clock_reads (v : nat) (s : State) : State :=
  mkState (refresh_interval s) (last_refresh s) (vector_store s)
          (qa_chain s) (store_dir s) v (log s).

Definition add_log (r : LogRecord) (s : State) : State :=
  mkState (refresh_interval s) (last_refresh s) (vector_store s)
          (qa_chain s) (store_dir s) (clock_reads s) (r :: log s).

(** *** What the collaborators do during one call *)

(** A file below [documents_directory] and what its loader makes of
    it. *)
Record SrcFile : Type := mkSrcFile {
  file_path : string;
  file_parse : outcome (list Document)
}.

(** Where [save_local] can stop: before [index.faiss] is written, or
    after it and before [index.pkl] is. *)
Inductive SaveFault : Type :=
| FaultBeforeIndex (e : PyExc)
| FaultBeforeDocstore (e : PyExc).

Record Env : Type := mkEnv {
  (** the visible files below [documents_directory] *)
  env_files : list SrcFile;
  (** [RecursiveCharacterTextSplitter.split_text] *)
  env_split_text : SplitterConfig -> string -> list string;
  (** failure of the embedding model inside [FAISS.from_documents] *)
  env_embed_fault : list Document -> option PyExc;
  (** failure of [FAISS.load_local] on files that are present *)
  env_load_fault : option PyExc;
  (** failure inside [save_local] *)
  env_save_fault : option SaveFault;
  (** the n-th reading of [datetime.now()] *)
  env_now : nat -> Z;
  (** the retriever: similarity search with k = 6 *)
  env_search : VectorStore -> string -> outcome (list Document);
  (** the answer generator *)
  env_generate : string -> list Document -> outcome string
}.

(** *** The monad of the methods: state and exceptions *)

Definition M (A : Type) : Type := State -> outcome A * State.

Definition ret {A : Type} (a : A) : M A := fun s => (Return a, s).

Definition raise {A : Type} (e : PyExc) : M A := fun s => (Raise e, s).

Definition bind {A B : Type} (m : M A) (k : A -> M B) : M B :=
  fun s =>
    match m s with
    | (Return a, s') => k a s'
    | (Raise e, s') => (Raise e, s')
    end.

(** [try: m  except Exception as e: h e] *)
Definition try_except {A : Type} (m : M A) (h : PyExc -> M A) : M A :=
  fun s =>
    match m s with
    | (Return a, s') => (Return a, s')
    | (Raise e, s') => h e s'
    end.

(** An outcome of a collaborator, taken into the monad. *)
Definition lift {A : Type} (o : outcome A) : M A := fun s => (o, s).

Definition get {A : Type} (f : State -> A) : M A :=
  fun s => (Return (f s), s).

Definition modify (f : State -> State) : M unit :=
  fun s => (Return tt, f s).

Declare Scope py_scope.
Delimit Scope py_scope with py.
Notation "x <- m ;; k" := (bind m (fun x => k))
  (at level 61, m at next level, right associativity) : py_scope.
Notation "m ;; k" := (bind m (fun _ => k))
  (at level 61, right associativity) : py_scope.
Local Open Scope py_scope.

Definition logger (lvl : Level) (msg : LogMsg) : M unit :=
  modify (add_log (lvl, msg)).

(** *** Collaborators *)

Section Methods.

Variable env : Env.

(** [datetime.now()] *)
Definition datetime_now : M Z :=
  fun s => (Return (env_now env (clock_reads s)),
            set_clock_reads (S (clock_reads s)) s).

(** [timedelta.total_seconds()], as an exact rational (Python rounds
    the quotient to a float). *)
Definition total_seconds (delta : Z) : Q := Qmake delta 1000000.

(** [DirectoryLoader.load_file] over the files the glob selects, in
    listing order (the order in which a thread pool hands documents
    back is not modelled).  A loader that raises is skipped when
    [silent_errors] is set; otherwise its exception leaves [load]. *)
Fixpoint load_files (silent_errors : bool) (fs : list SrcFile)
  : outcome (list Document) :=
  match fs with
  | [] => Return []
  | f :: fs' =>
      match file_parse f with
      | Return docs =>
          match load_files silent_errors fs' with
          | Return rest => Return (docs ++ rest)%list
          | Raise e => Raise e
          end
      | Raise e => if silent_errors then load_files silent_errors fs' else Raise e
      end
  end.

(** The files selected by the glob [**/*ext]. *)
Definition glob (ext : string) : list SrcFile :=
  filter (fun f => PyStr.endswith (path_name (file_path f)) ext)
         (env_files env).

(** [DirectoryLoader(dir, glob=...).load()]; the source leaves
    [silent_errors] at its default, [False]. *)
Definition DirectoryLoader_load (ext : string) : M (list Document) :=
  lift (load_files false (glob ext)).

(** [text_splitter.split_documents([doc])]: one document per piece of
    text, each with a copy of the metadata. *)
Definition split_documents (doc : Document) : list Document :=
  map (fun piece => mkDocument piece (metadata doc))
      (env_split_text env text_splitter (page_content doc)).

(** [FAISS.from_documents(docs, embeddings)] *)
Definition FAISS_from_documents (docs : list Document) : M VectorStore :=
  match env_embed_fault env docs with
  | Some e => raise e
  | None => ret (mkVectorStore (map page_content docs) docs)
  end.

(** [vector_store_path.mkdir(parents=True, exist_ok=True)] *)
Definition mkdir : M unit :=
  modify (fun s =>
            match store_dir s with
            | Some _ => s
            | None => set_store_dir (Some (mkStoreDir None None)) s
            end).

(** Writing one file of the directory (which [save_local] creates
    when it is missing). *)
Definition write_index_faiss (v : list string) : M unit :=
  modify (fun s =>
            match store_dir s with
            | Some d => set_store_dir (Some (mkStoreDir (Some v) (index_pkl d))) s
            | None => set_store_dir (Some (mkStoreDir (Some v) None)) s
            end).

Definition write_index_pkl (v : list Document) : M unit :=
  modify (fun s =>
            match store_dir s with
            | Some d => set_store_dir (Some (mkStoreDir (index_faiss d) (Some v))) s
            | None => set_store_dir (Some (mkStoreDir None (Some v))) s
            end).

(** [vs.save_local(vector_store_path)]: [faiss.write_index] to
    [index.faiss], then [pickle.dump] to [index.pkl], both in the
    directory itself. *)
Definition FAISS_save_local (vs : VectorStore) : M unit :=
  match env_save_fault env with
  | Some (FaultBeforeIndex e) => raise e
  | Some (FaultBeforeDocstore e) =>
      write_index_faiss (vs_index vs) ;; raise e
  | None =>
      write_index_faiss (vs_index vs) ;; write_index_pkl (vs_docstore vs)
  end.

(** [FAISS.load_local(vector_store_path, embeddings, ...)] *)
Definition FAISS_load_local : M VectorStore :=
  d <- get store_dir ;;
  match d with
  | Some (mkStoreDir (Some idx) (Some docs)) =>
      match env_load_fault env with
      | Some e => raise e
      | None => ret (mkVectorStore idx docs)
      end
  | _ => raise (ExternalError "could not open index file for reading")
  end.

(** [vector_store_path.exists() and (vector_store_path / "index.faiss").exists()] *)
Definition index_file_exists (s : State) : bool :=
  match store_dir s with
  | Some d =>
      match index_faiss d with
      | Some _ => true
      | None => false
      end
  | None => false
  end.

(** [qa_chain({"query": question})]: retrieve, then generate; the
    result carries the answer and the retrieved documents. *)
Definition call_chain (chain : QAChain) (question : string)
  : M (string * list Document) :=
  docs <- lift (env_search env (chain_store chain) question) ;;
  answer <- lift (env_generate env question docs) ;;
  ret (answer, docs).

(** *** Methods of [CreditAgreementChatbot] *)

(** The metadata added to one loaded document; [Path] raises on a
    source that is not a string. *)
Definition enhance_metadata (doc : Document) : outcome Document :=
  match dict_get (metadata doc) "source" with
  | Some (VStr source) =>
      Return
        (mkDocument (page_content doc)
           (dict_set (dict_set (metadata doc) "filename" (VStr (path_name source)))
                     "file_type" (VStr (path_suffix source))))
  | Some (VInt _) =>
      Raise (TypeError "expected str, bytes or os.PathLike object, not int")
  | None => Return doc
  end.

(** The loop [for doc in documents]. *)
Fixpoint enhance_all (documents : list Document) : outcome (list Document) :=
  match documents with
  | [] => Return []
  | doc :: rest =>
      match enhance_metadata doc with
      | Return doc' =>
          match enhance_all rest with
          | Return rest' => Return (doc' :: rest')
          | Raise e => Raise e
          end
      | Raise e => Raise e
      end
  end.

Definition _load_documents : M (list Document) :=
  logger INFO LoadingDocuments ;;
  try_except
    (pdf_docs <- DirectoryLoader_load ".pdf" ;;
     docx_docs <- DirectoryLoader_load ".docx" ;;
     documents <- lift (enhance_all (pdf_docs ++ docx_docs)%list) ;;
     logger INFO (LoadedDocuments (List.length documents)) ;;
     ret documents)
    (fun e =>
       logger ERROR (ErrorLoadingDocuments e) ;;
       ret []).

(** The chunks of one document, with [chunk_id], [total_chunks] and,
    when one is found, [section]. *)
Fixpoint enumerate_chunks (i : nat) (total : nat) (chunks : list Document)
  : list Document :=
  match chunks with
  | [] => []
  | chunk :: rest =>
      let md := dict_set (metadata chunk) "chunk_id" (VInt (Z.of_nat i)) in
      let md := dict_set md "total_chunks" (VInt (Z.of_nat total)) in
      let md :=
        match Enricher._extract_section_info (page_content chunk) with
        | Some section_info =>
            if String.eqb section_info EmptyString then md
            else dict_set md "section" (VStr section_info)
        | None => md
        end in
      mkDocument (page_content chunk) md :: enumerate_chunks (S i) total rest
  end.

Definition process_document (doc : Document) : list Document :=
  let text := page_content doc in
  let doc_type := Enricher._identify_document_type text in
  let doc := mkDocument text (dict_set (metadata doc) "document_type" (VStr doc_type)) in
  let chunks := split_documents doc in
  enumerate_chunks 0 (List.length chunks) chunks.

Definition _preprocess_documents (documents : list Document)
  : M (list Document) :=
  logger INFO Preprocessing ;;
  let processed_docs := flat_map process_document documents in
  logger INFO (CreatedChunks (List.length processed_docs) (List.length documents)) ;;
  ret processed_docs.

Definition _refresh_documents : M unit :=
  logger INFO RefreshingIndex ;;
  documents <- _load_documents ;;
  match documents with
  | [] => logger WARNING NoDocumentsFound
  | _ :: _ =>
      processed_docs <- _preprocess_documents documents ;;
      logger INFO CreatingStore ;;
      vs <- FAISS_from_documents processed_docs ;;
      modify (set_vector_store (Some vs)) ;;
      mkdir ;;
      FAISS_save_local vs ;;
      now <- datetime_now ;;
      modify (set_last_refresh (Some now)) ;;
      logger INFO (StoreRefreshed now)
  end.

Definition _initialize_qa_chain : M unit :=
  store <- get vector_store ;;
  match store with
  | None =>
      raise (AttributeError "'NoneType' object has no attribute 'as_retriever'")
  | Some vs =>
      modify (set_qa_chain (Some (mkQAChain vs))) ;;
      logger INFO ChainInitialized
  end.

Definition _check_and_refresh : M unit :=
  last <- get last_refresh ;;
  match last with
  | None => _refresh_documents
  | Some last =>
      now <- datetime_now ;;
      let time_since_refresh := total_seconds (now - last) in
      interval <- get refresh_interval ;;
      if Qle_bool (inject_Z interval) time_since_refresh then
        logger INFO IntervalReached ;;
        _refresh_documents ;;
        _initialize_qa_chain
      else ret tt
  end.

Definition _initialize_vector_store : M unit :=
  exists_ <- get index_file_exists ;;
  (if exists_ : bool then
     logger INFO LoadingExistingStore ;;
     try_except
       (vs <- FAISS_load_local ;;
        modify (set_vector_store (Some vs)) ;;
        now <- datetime_now ;;
        modify (set_last_refresh (Some now)) ;;
        logger INFO StoreLoaded)
       (fun e =>
          logger ERROR (ErrorLoadingStore e) ;;
          logger INFO CreatingNewStore ;;
          _refresh_documents)
   else
     logger INFO NoExistingStore ;;
     _refresh_documents) ;;
  _initialize_qa_chain.

(** [__init__]: the fields the methods use, then the first load or
    build.  (The embedding model and the language model are created in
    between; the paths are fixed for the life of the object.) *)
Definition __init__ (embedding_model : string) (interval : Z) : M unit :=
  logger INFO (LoadingEmbeddingModel embedding_model) ;;
  modify (fun s => mkState interval None None None
                           (store_dir s) (clock_reads s) (log s)) ;;
  _initialize_vector_store.

(** One entry of ["sources"]. *)
Record Citation : Type := mkCitation {
  filename : PyVal;
  page : PyVal;
  section : PyVal;
  document_type : PyVal;
  content_preview : string
}.

(** The dictionary [query] returns. *)
Record Response : Type := mkResponse {
  answer : string;
  sources : list Citation;
  timestamp : Z
}.

Definition citation (doc : Document) : Citation :=
  {| filename := dict_get_default (metadata doc) "filename" (VStr "Unknown");
     page := dict_get_default (metadata doc) "page" (VStr "N/A");
     section := dict_get_default (metadata doc) "section" (VStr "N/A");
     document_type :=
       dict_get_default (metadata doc) "document_type" (VStr "Unknown");
     content_preview := PyStr.take 200 (page_content doc) ++ "..." |}.

Definition query (question : string) : M Response :=
  _check_and_refresh ;;
  logger INFO (ProcessingQuery question) ;;
  try_except
    (chain <- get qa_chain ;;
     result <- match chain with
               | Some c => call_chain c question
               | None => raise (TypeError "'NoneType' object is not callable")
               end ;;
     now <- datetime_now ;;
     ret (mkResponse (fst result) (map citation (snd result)) now))
    (fun e =>
       logger ERROR (ErrorProcessingQuery e) ;;
       now <- datetime_now ;;
       ret (mkResponse
              ("I encountered an error processing your question: " ++ exc_str e)
              [] now)).

Definition manual_refresh : M unit :=
  logger INFO ManualRefreshTriggered ;;
  _refresh_documents ;;
  _initialize_qa_chain.

End Methods.

End Chatbot.

(* ================================================================== *)
(** ** Vocabulary for statements about the methods *)

Module ChatbotSpec.
Import Chatbot.

(** What the two directory loaders and the metadata loop produce, or
    the first exception among them. *)
Definition load_all (env : Env) : outcome (list Document) :=
  match load_files false (glob env ".pdf") with
  | Return pdf_docs =>
      match load_files false (glob env ".docx") with
      | Return docx_docs => enhance_all (pdf_docs ++ docx_docs)%list
      | Raise e => Raise e
      end
  | Raise e => Raise e
  end.

(** The documents a build finds: none when loading failed. *)
Definition found_documents (env : Env) : list Document :=
  match load_all env with
  | Return docs => docs
  | Raise _ => []
  end.

(** The files the two globs select. *)
Definition selected (env : Env) : list SrcFile :=
  (glob env ".pdf" ++ glob env ".docx")%list.

(** The text of every document of [docs] is the text of a document of
    [result]. *)
Definition included (docs result : list Document) : Prop :=
  forall d, In d docs ->
    exists d', In d' result /\ page_content d' = page_content d.

(** Loading as the specification words it: whatever else happens, the
    documents of a file that parsed are in the list that
    [_load_documents] returns. *)
Definition skips_failed_files (env : Env) (s : State) : Prop :=
  forall f docs,
    In f (selected env) -> file_parse f = Return docs ->
    exists result,
      fst (_load_documents env s) = Return result /\ included docs result.

(** The records [s'] has on top of those of [s]. *)
Definition logged_since (s s' : State) (new : list LogRecord) : Prop :=
  log s' = (new ++ log s)%list.

Definition is_rebuild_start (r : LogRecord) : bool :=
  match r with
  | (INFO, RefreshingIndex) => true
  | _ => false
  end.

(** The rebuild counter: how many times [_refresh_documents] was
    entered. *)
Definition rebuild_count (s : State) : nat :=
  List.length (filter is_rebuild_start (log s)).

(** The staleness condition, in microseconds: no refresh yet, or at
    least [refresh_interval] seconds since the last one, at the next
    reading of the clock. *)
Definition refresh_due (env : Env) (s : State) : Prop :=
  match last_refresh s with
  | None => True
  | Some last =>
      (refresh_interval s * 1000000 <= env_now env (clock_reads s) - last)%Z
  end.

(** A run from [s] to [s'] in which [last_refresh] either kept its
    value or was set at the completion of a rebuild or of a load of the
    persisted index that the run logged. *)
Definition last_refresh_justified (s s' : State) : Prop :=
  exists new,
    logged_since s s' new /\
    (last_refresh s' = last_refresh s \/
     exists t,
       last_refresh s' = Some t /\
       (In (INFO, StoreRefreshed t) new \/ In (INFO, StoreLoaded) new)).

(** The timestamp as the specification words it: only the completion
    of a rebuild sets [last_refresh]. *)
Definition only_rebuild_sets_last_refresh (s s' : State) : Prop :=
  exists new,
    logged_since s s' new /\
    (last_refresh s' = last_refresh s \/
     exists t, last_refresh s' = Some t /\ In (INFO, StoreRefreshed t) new).

(** The in-memory index, the persisted index and the timestamp are
    what they were. *)
Definition index_untouched (s s' : State) : Prop :=
  vector_store s' = vector_store s /\
  store_dir s' = store_dir s /\
  last_refresh s' = last_refresh s.

(** The run from [s] to [s'] logged the warning of an empty corpus. *)
Definition warned_no_documents (s s' : State) : Prop :=
  exists new,
    logged_since s s' new /\ In (WARNING, NoDocumentsFound) new.

(** The records [_load_documents] writes, newest first. *)
Definition load_records (env : Env) : list LogRecord :=
  match load_all env with
  | Return docs =>
      [(INFO, LoadedDocuments (List.length docs)); (INFO, LoadingDocuments)]
  | Raise e =>
      [(ERROR, ErrorLoadingDocuments e); (INFO, LoadingDocuments)]
  end.

(** Every run of [m] relates the state it starts in to the state it
    leaves, whether it returns or raises. *)
Definition transition (R : State -> State -> Prop) {A : Type} (m : M A)
  : Prop :=
  forall s, R s (snd (m s)).

(** The rebuild counter stands still. *)
Definition same_rebuild_count (s s' : State) : Prop :=
  rebuild_count s' = rebuild_count s.

(** The methods of the class, as calls. *)
Inductive Call : Type :=
| CallInitializeVectorStore
| CallLoadDocuments
| CallPreprocessDocuments (documents : list Document)
| CallRefreshDocuments
| CallCheckAndRefresh
| CallInitializeQAChain
| CallQuery (question : string)
| CallManualRefresh.

(** The state a call leaves, whether it returns or raises. *)
Definition state_after (env : Env) (c : Call) (s : State) : State :=
  match c with
  | CallInitializeVectorStore => snd (_initialize_vector_store env s)
  | CallLoadDocuments => snd (_load_documents env s)
  | CallPreprocessDocuments documents =>
      snd (_preprocess_documents env documents s)
  | CallRefreshDocuments => snd (_refresh_documents env s)
  | CallCheckAndRefresh => snd (_check_and_refresh env s)
  | CallInitializeQAChain => snd (_initialize_qa_chain s)
  | CallQuery question => snd (query env question s)
  | CallManualRefresh => snd (manual_refresh env s)
  end.

(** The two files of the persisted index. *)
Definition persisted_files (s : State)
  : option (list string) * option (list Document) :=
  match store_dir s with
  | Some d => (index_faiss d, index_pkl d)
  | None => (None, None)
  end.

(** A persisted index is valid when both files are there and the
    vectors are those of the documents of the docstore. *)
Definition persisted_valid (s : State) : Prop :=
  exists docs,
    persisted_files s = (Some (map page_content docs), Some docs).

(** Persistence as the specification words it: whatever happens
    during a build, a valid persisted index stays valid. *)
Definition crash_safe (env : Env) (s : State) : Prop :=
  persisted_valid s -> persisted_valid (snd (_refresh_documents env s)).

End ChatbotSpec.

(* ================================================================== *)
(** ** Concrete runs *)

Module Scenario.
Import Chatbot.

Definition hour : Z := 3600000000.

Definition agreement : Document :=
  mkDocument
    "CREDIT AGREEMENT. Section 7.2 Leverage Ratio shall not exceed 4.00x"
    [("source", VStr "credit_documents/agreement.pdf"); ("page", VInt 0)].

Definition agreement_pdf : SrcFile :=
  mkSrcFile "credit_documents/agreement.pdf" (Return [agreement]).

Definition broken_docx : SrcFile :=
  mkSrcFile "credit_documents/scan.docx"
            (Raise (ExternalError "File is not a zip file")).

(** Collaborators that all work; the splitter keeps a short text in
    one piece, the clock advances one hour per reading. *)
Definition working (files : list SrcFile) : Env :=
  {| env_files := files;
     env_split_text := fun _ text => [text];
     env_embed_fault := fun _ => None;
     env_load_fault := None;
     env_save_fault := None;
     env_now := fun n => (Z.of_nat n * hour)%Z;
     env_search := fun vs _ => Return (firstn 6 (vs_docstore vs));
     env_generate := fun _ _ => Return "I can confirm..." |}.

(** The same, with the embedding service down. *)
Definition embedding_down (files : list SrcFile) : Env :=
  {| env_files := files;
     env_split_text := fun _ text => [text];
     env_embed_fault :=
       fun _ => Some (ExternalError "embedding service unavailable");
     env_load_fault := None;
     env_save_fault := None;
     env_now := fun n => (Z.of_nat n * hour)%Z;
     env_search := fun vs _ => Return (firstn 6 (vs_docstore vs));
     env_generate := fun _ _ => Return "I can confirm..." |}.

(** The same, with the disk filling up after [index.faiss] is
    written. *)
Definition disk_full (files : list SrcFile) : Env :=
  {| env_files := files;
     env_split_text := fun _ text => [text];
     env_embed_fault := fun _ => None;
     env_load_fault := None;
     env_save_fault :=
       Some (FaultBeforeDocstore (ExternalError "No space left on device"));
     env_now := fun n => (Z.of_nat n * hour)%Z;
     env_search := fun vs _ => Return (firstn 6 (vs_docstore vs));
     env_generate := fun _ _ => Return "I can confirm..." |}.

Definition old_chunk : Document :=
  mkDocument "Compliance Certificate for the quarter" [].

(** A directory with a complete index of an earlier build. *)
Definition old_index : StoreDir :=
  mkStoreDir (Some [page_content old_chunk]) (Some [old_chunk]).

(** A new object, before [__init__] ran. *)
Definition blank (dir : option StoreDir) : State :=
  mkState 0 None None None dir 0 [].

(** The object after [__init__] found and loaded the old index. *)
Definition started : State :=
  snd (__init__ (working []) "sentence-transformers/all-MiniLM-L6-v2" 3600
                (blank (Some old_index))).

(** An object that holds no index. *)
Definition without_index : State :=
  mkState 3600 None None None None 0 [].

End Scenario.

(* ================================================================== *)
(** ** The chat loop of [main] *)

Module ChatLoop.
Import Chatbot.

(** [s.lstrip()], [s.rstrip()] and [s.strip()]: the characters removed
    are those [str.isspace] accepts, the class [\s] of the patterns. *)
Fixpoint lstrip (s : string) : string :=
  match s with
  | EmptyString => EmptyString
  | String c s' => if Regex.is_space c then lstrip s' else s
  end.

Fixpoint rstrip (s : string) : string :=
  match s with
  | EmptyString => EmptyString
  | String c s' =>
      match rstrip s' with
      | EmptyString =>
          if Regex.is_space c then EmptyString else String c EmptyString
      | String c' r => String c (String c' r)
      end
  end.

Definition strip (s : string) : string := rstrip (lstrip s).

(** What [input()] does at one turn of the loop: a line is typed, the
    user interrupts, or the input has ended. *)
Inductive Keyboard : Type :=
| Typed (line : string)
| CtrlC
| EndOfInput.

(** What a turn writes, in order: the blocks [main] prints, and the
    record it sends to the logger when it catches an exception.  (The
    [log] of a [State] holds the records the methods of the class
    send.) *)
Inductive Printed : Type :=
| PrintGoodbye
| PrintInterrupted
| PrintRefreshing
| PrintRefreshed
| PrintAnalyzing
| PrintAnswer (text : string)
| PrintSource (i : nat) (source : Citation)
| PrintError (msg : string)
| LogUnexpectedError (msg : string).

(** How a turn leaves the [while True] loop: [continue] (or the end of
    the body), or [break]. *)
Inductive Next : Type := Continue | Break.

(** [for i, source in enumerate(response["sources"], 1)] *)
Fixpoint print_sources (i : nat) (sources : list Citation) : list Printed :=
  match sources with
  | [] => []
  | source :: rest => PrintSource i source :: print_sources (S i) rest
  end.

(** The handler [except Exception as e]. *)
Definition report (e : PyExc) : list Printed :=
  [PrintError (exc_str e); LogUnexpectedError (exc_str e)].

Definition is_quit (question : string) : bool :=
  existsb (String.eqb (PyStr.lower question)) ["quit"; "exit"].

(** One turn of the loop: the body of [while True] with its two
    handlers. *)
Definition chat_step (env : Env) (key : Keyboard) (s : State)
  : (Next * list Printed) * State :=
  match key with
  | CtrlC => ((Break, [PrintInterrupted]), s)
  | EndOfInput =>
      ((Continue, report (ExternalError "EOF when reading a line")), s)
  | Typed line =>
      let question := strip line in
      if String.eqb question EmptyString then ((Continue, []), s)
      else if is_quit question then ((Break, [PrintGoodbye]), s)
      else if String.eqb (PyStr.lower question) "refresh" then
        match manual_refresh env s with
        | (Return _, s') => ((Continue, [PrintRefreshing; PrintRefreshed]), s')
        | (Raise e, s') => ((Continue, PrintRefreshing :: report e), s')
        end
      else
        match query env question s with
        | (Return response, s') =>
            ((Continue,
              PrintAnalyzing :: PrintAnswer (answer response)
                :: print_sources 1 (sources response)), s')
        | (Raise e, s') => ((Continue, PrintAnalyzing :: report e), s')
        end
  end.

(** A session, after a number of turns: still at the prompt, or
    ended. *)
Inductive Session : Type :=
| AtPrompt (out : list Printed) (s : State)
| Ended (out : list Printed) (s : State).

(** The loop, for at most [turns] turns.  Once the typed lines are
    used up, [input()] finds the end of the input at every turn. *)
Fixpoint chat_loop (env : Env) (turns : nat) (keys : list Keyboard)
         (out : list Printed) (s : State) : Session :=
  match turns with
  | O => AtPrompt out s
  | S turns' =>
      match chat_step env (hd EndOfInput keys) s with
      | ((Break, printed), s') => Ended (out ++ printed)%list s'
      | ((Continue, printed), s') =>
          chat_loop env turns' (tl keys) (out ++ printed)%list s'
      end
  end.

(** [main]: the chatbot is created with the default embedding model
    and refresh interval, outside the loop and its handlers. *)
Definition main (env : Env) (turns : nat) (keys : list Keyboard)
           (s : State) : outcome Session :=
  match __init__ env "sentence-transformers/all-MiniLM-L6-v2" 3600 s with
  | (Return _, s') => Return (chat_loop env turns keys [] s')
  | (Raise e, _) => Raise e
  end.

End ChatLoop.

(* ================================================================== *)
(** ** The covenant analysis of example_usage.py *)

Module ExampleUsage.
Import Chatbot.
Local Open Scope py_scope.

Definition covenants_to_check : list string :=
  [ "Total Leverage Ratio"; "Senior Secured Leverage Ratio";
    "Fixed Charge Coverage Ratio"; "Minimum Liquidity" ].

(** The question asked about one covenant. *)
Definition covenant_query (covenant : string) : string :=
  "What is the " ++ covenant
  ++ " requirement and are we in compliance based on the latest compliance certificate?".

(** One entry of [covenant_results]. *)
Record CovenantResult : Type := mkCovenantResult {
  covenant_name : string;
  covenant_answer : string;
  covenant_sources : nat;
  covenant_timestamp : Z
}.

(** The loop [for covenant in covenants_to_check], appending to
    [covenant_results]. *)
Fixpoint covenant_analysis (env : Env) (covenants : list string)
         (covenant_results : list CovenantResult)
  : M (list CovenantResult) :=
  match covenants with
  | [] => ret covenant_results
  | covenant :: rest =>
      response <- query env (covenant_query covenant) ;;
      covenant_analysis env rest
        (covenant_results
           ++ [mkCovenantResult covenant (answer response)
                 (List.length (sources response)) (timestamp response)])%list
  end.

End ExampleUsage.

(* ================================================================== *)
(** ** setup.py *)

Module Setup.

(** [check_python_version], on [sys.version_info]. *)
Definition check_python_version (major minor : Z) : bool :=
  ((3 <=? major)%Z && (9 <=? minor)%Z)%bool.

(** The working directory as far as [setup_env_file] looks at it: the
    text of [.env] and of [.env.template], when they exist. *)
Record EnvFiles : Type := mkEnvFiles {
  dot_env : option string;
  dot_env_template : option string
}.

(** [setup_env_file]; [response] is what the user answers when asked
    whether to overwrite. *)
Definition setup_env_file (response : string) (fs : EnvFiles)
  : bool * EnvFiles :=
  let keep :=
    match dot_env fs with
    | Some _ => negb (String.eqb (PyStr.lower response) "y")
    | None => false
    end in
  if keep then (true, fs)
  else
    match dot_env_template fs with
    | Some content => (true, mkEnvFiles (Some content) (Some content))
    | None => (false, fs)
    end.

End Setup.

(* ================================================================== *)
(** ** Vocabulary for further statements *)

Module MoreSpec.
Import Chatbot ChatbotSpec.

(** What is set stays set, and the interval is never assigned. *)
Definition stays_set (s s' : State) : Prop :=
  (vector_store s <> None -> vector_store s' <> None) /\
  (qa_chain s <> None -> qa_chain s' <> None) /\
  (last_refresh s <> None -> last_refresh s' <> None) /\
  refresh_interval s' = refresh_interval s.

(** The chunks of the documents a build finds, and the store
    [FAISS.from_documents] makes of them. *)
Definition chunks_of (env : Env) : list Document :=
  flat_map (process_document env) (found_documents env).

Definition built_store (env : Env) : VectorStore :=
  mkVectorStore (map page_content (chunks_of env)) (chunks_of env).

(** An object that holds an index, a chain over that index, and a
    time of refresh. *)
Definition ready (s : State) : Prop :=
  exists vs t,
    vector_store s = Some vs /\
    qa_chain s = Some (mkQAChain vs) /\
    last_refresh s = Some t.

(** Nothing of the object or of the disk differs; the clock and the
    log may have moved. *)
Definition object_untouched (s s' : State) : Prop :=
  refresh_interval s' = refresh_interval s /\
  last_refresh s' = last_refresh s /\
  vector_store s' = vector_store s /\
  qa_chain s' = qa_chain s /\
  store_dir s' = store_dir s.

(** What a run of [m] from [s] establishes: [Q] of the value and the
    state when it returns, [E] of the exception and the state when it
    raises. *)
Definition wp {A : Type} (m : M A) (s : State)
           (Q : A -> State -> Prop) (E : PyExc -> State -> Prop) : Prop :=
  match m s with
  | (Return a, s') => Q a s'
  | (Raise e, s') => E e s'
  end.

(** What a rebuild establishes when it returns, and when it raises. *)
Definition rebuild_returned (env : Env) (s s' : State) : Prop :=
  refresh_interval s' = refresh_interval s /\
  qa_chain s' = qa_chain s /\
  ((found_documents env = [] /\
    last_refresh s' = last_refresh s /\
    vector_store s' = vector_store s /\
    store_dir s' = store_dir s /\
    clock_reads s' = clock_reads s) \/
   (found_documents env <> [] /\
    last_refresh s' = Some (env_now env (clock_reads s)) /\
    vector_store s' = Some (built_store env) /\
    persisted_files s'
    = (Some (vs_index (built_store env)),
       Some (vs_docstore (built_store env))) /\
    clock_reads s' = S (clock_reads s))).

Definition rebuild_raised (env : Env) (s s' : State) : Prop :=
  found_documents env <> [] /\
  refresh_interval s' = refresh_interval s /\
  last_refresh s' = last_refresh s /\
  qa_chain s' = qa_chain s /\
  clock_reads s' = clock_reads s /\
  (vector_store s' = vector_store s \/
   vector_store s' = Some (built_store env)).

(** What [manual_refresh] establishes when it returns, and when it
    raises. *)
Definition refresh_returned (env : Env) (s s' : State) : Prop :=
  (found_documents env = [] /\
   last_refresh s' = last_refresh s /\
   store_dir s' = store_dir s /\
   exists vs,
     vector_store s = Some vs /\ vector_store s' = Some vs /\
     qa_chain s' = Some (mkQAChain vs)) \/
  (found_documents env <> [] /\
   last_refresh s' = Some (env_now env (clock_reads s)) /\
   vector_store s' = Some (built_store env) /\
   qa_chain s' = Some (mkQAChain (built_store env)) /\
   persisted_files s'
   = (Some (vs_index (built_store env)),
      Some (vs_docstore (built_store env)))).

(** What is left as it was when [manual_refresh] or the staleness
    check raises. *)
Definition chain_kept (s s' : State) : Prop :=
  qa_chain s' = qa_chain s /\
  last_refresh s' = last_refresh s /\
  refresh_interval s' = refresh_interval s.

(** A preview is at most 200 characters of a chunk and three dots. *)
Definition preview_bounded (c : Citation) : Prop :=
  length (content_preview c) <= 203.

(** The texts a file contributes to a load: those of the documents
    its loader makes, none when the loader raises. *)
Definition file_texts (f : SrcFile) : list string :=
  match file_parse f with
  | Return docs => map page_content docs
  | Raise _ => []
  end.

(** The metadata keys [_preprocess_documents] writes. *)
Definition chunk_keys : list string :=
  ["document_type"; "chunk_id"; "total_chunks"; "section"].

(** The place of a document type in the order the classifier checks
    them. *)
Definition priority (label : string) : nat :=
  if String.eqb label "Compliance Certificate" then 0
  else if String.eqb label "Credit Agreement" then 1
  else if String.eqb label "Credit Application" then 2
  else if String.eqb label "LSTA Agreement" then 3
  else 4.

(** The keywords the four patterns start with. *)
Definition keywords : list string :=
  ["SECTION"; "Section"; "ARTICLE"; "Article"].

(** The response [query] builds from what the chain did. *)
Definition response_of (question : string)
           (result : outcome (string * list Document)) (now : Z)
  : Response :=
  match result with
  | Return (text, docs) => mkResponse text (map citation docs) now
  | Raise e =>
      mkResponse
        ("I encountered an error processing your question: " ++ exc_str e)
        [] now
  end.

(** What calling the chain of [s] gives: the retrieval over the store
    the chain was created on, then the generation; a [TypeError] when
    there is no chain. *)
Definition chain_result (env : Env) (question : string) (s : State)
  : outcome (string * list Document) :=
  match qa_chain s with
  | None => Raise (TypeError "'NoneType' object is not callable")
  | Some c =>
      match env_search env (chain_store c) question with
      | Raise e => Raise e
      | Return docs =>
          match env_generate env question docs with
          | Raise e => Raise e
          | Return text => Return (text, docs)
          end
      end
  end.

(** A key that ends the chat: an interrupt, or a line that is quit or
    exit once stripped and lowered. *)
Definition ends_chat (key : ChatLoop.Keyboard) : bool :=
  match key with
  | ChatLoop.CtrlC => true
  | ChatLoop.EndOfInput => false
  | ChatLoop.Typed line =>
      let word := PyStr.lower (ChatLoop.strip line) in
      (String.eqb word "quit" || String.eqb word "exit")%bool
  end.

(** The keys the loop reads from [keys] in [n] turns, when it does not
    end before. *)
Definition keys_read (n : nat) (keys : list ChatLoop.Keyboard)
  : list ChatLoop.Keyboard :=
  firstn n keys.

Definition ended (session : ChatLoop.Session) : bool :=
  match session with
  | ChatLoop.Ended _ _ => true
  | ChatLoop.AtPrompt _ _ => false
  end.

(** A key that makes the loop call the chatbot: a line that, once
    stripped, is not empty and is not quit or exit. *)
Definition reaches_chatbot (key : ChatLoop.Keyboard) : bool :=
  match key with
  | ChatLoop.Typed line =>
      (negb (String.eqb (ChatLoop.strip line) EmptyString)
       && negb (ends_chat key))%bool
  | _ => false
  end.

Definition session_state (session : ChatLoop.Session) : State :=
  match session with
  | ChatLoop.Ended _ s => s
  | ChatLoop.AtPrompt _ s => s
  end.

(** Version [a.b] is at least version [c.d]. *)
Definition version_at_least (a b c d : Z) : Prop :=
  (c < a \/ (a = c /\ d <= b))%Z.

End MoreSpec.

(* ================================================================== *)
(** ** More concrete runs *)

Module MoreScenario.
Import Chatbot Scenario.

(** Collaborators that work, with a clock that advances one second
    per reading. *)
Definition working_by_seconds (files : list SrcFile) : Env :=
  {| env_files := files;
     env_split_text := fun _ text => [text];
     env_embed_fault := fun _ => None;
     env_load_fault := None;
     env_save_fault := None;
     env_now := fun n => (Z.of_nat n * 1000000)%Z;
     env_search := fun vs _ => Return (firstn 6 (vs_docstore vs));
     env_generate := fun _ _ => Return "I can confirm..." |}.

(** The one chunk made of [agreement] when the splitter keeps it in
    one piece. *)
Definition agreement_chunk : Document :=
  mkDocument
    "CREDIT AGREEMENT. Section 7.2 Leverage Ratio shall not exceed 4.00x"
    [("source", VStr "credit_documents/agreement.pdf"); ("page", VInt 0);
     ("document_type", VStr "Credit Agreement"); ("chunk_id", VInt 0);
     ("total_chunks", VInt 1); ("section", VStr "Section 7.2")].

(** [agreement] once [_load_documents] has named its file, and the
    one chunk made of it. *)
Definition agreement_named : Document :=
  mkDocument
    "CREDIT AGREEMENT. Section 7.2 Leverage Ratio shall not exceed 4.00x"
    [("source", VStr "credit_documents/agreement.pdf"); ("page", VInt 0);
     ("filename", VStr "agreement.pdf"); ("file_type", VStr ".pdf")].

Definition agreement_chunk_named : Document :=
  mkDocument
    "CREDIT AGREEMENT. Section 7.2 Leverage Ratio shall not exceed 4.00x"
    [("source", VStr "credit_documents/agreement.pdf"); ("page", VInt 0);
     ("filename", VStr "agreement.pdf"); ("file_type", VStr ".pdf");
     ("document_type", VStr "Credit Agreement"); ("chunk_id", VInt 0);
     ("total_chunks", VInt 1); ("section", VStr "Section 7.2")].

End MoreScenario.

(* ================================================================== *)
(** ** What a rebuild does to the index *)

Module RebuildSpec.
Import Chatbot ChatbotSpec MoreSpec.

(** Nothing fails in a build over the documents found: neither the
    embedding of the chunks nor the save. *)
Definition build_works (env : Env) : Prop :=
  env_embed_fault env (chunks_of env) = None /\ env_save_fault env = None.

(** The clock reading at which a query that is due stamps its rebuild:
    the staleness check reads the clock first when [last_refresh] is
    set. *)
Definition rebuild_reading (s : State) : nat :=
  match last_refresh s with
  | Some _ => S (clock_reads s)
  | None => clock_reads s
  end.

(** The index has been rebuilt: the in-memory index is the one built
    from the chunks of the documents found, both files of the persisted
    index hold it, and [last_refresh] is the clock reading of the
    rebuild. *)
Definition index_rebuilt (env : Env) (s s' : State) : Prop :=
  vector_store s' = Some (built_store env) /\
  persisted_files s'
  = (Some (vs_index (built_store env)),
     Some (vs_docstore (built_store env))) /\
  last_refresh s' = Some (env_now env (rebuild_reading s)).

End RebuildSpec.

(* ================================================================== *)
(** * Proofs *)

(** ** Strings *)

Module PyStrFacts.
Import PyStr.

Lemma lower_app (a b : string) : lower (a ++ b) = lower a ++ lower b.
Proof.
  induction a as [|c a IH]; simpl; [reflexivity | now rewrite IH].
Qed.

(** A cut of the lowered text is the lowering of a cut of the text. *)
Lemma lower_split (t a b : string) :
  lower t = a ++ b ->
  exists ta tb, t = ta ++ tb /\ lower ta = a /\ lower tb = b.
Proof.
  revert t; induction a as [|c a IH]; intros t H.
  - exists EmptyString, t. auto.
  - destruct t as [|d t]; simpl in H; [discriminate|].
    injection H as Hc Ht.
    destruct (IH _ Ht) as (ta & tb & -> & Ha & Hb).
    exists (String d ta), tb. simpl. now rewrite Hc, Ha.
Qed.

Lemma prefix_iff (n h : string) :
  prefix n h = true <-> exists post, h = n ++ post.
Proof.
  revert h; induction n as [|c n IH]; intros [|d h]; simpl.
  - split; [exists EmptyString; reflexivity | reflexivity].
  - split; [eexists; reflexivity | reflexivity].
  - split; [discriminate | intros [post H]; discriminate].
  - destruct (ascii_dec c d) as [->|Hne].
    + rewrite IH. split; intros [post H]; exists post.
      * now rewrite H.
      * now injection H.
    + split; [discriminate | intros [post H]; injection H; congruence].
Qed.

Lemma prefix_drop (n h : string) :
  prefix n h = true -> h = n ++ drop (length n) h.
Proof.
  intros H. apply prefix_iff in H. destruct H as [post ->].
  f_equal. clear. induction n; simpl; auto.
Qed.

Lemma drop_app (n s : string) : drop (length n) (n ++ s) = s.
Proof. induction n; simpl; auto. Qed.

Lemma contains_iff (n h : string) :
  contains n h = true <-> exists pre post, h = pre ++ n ++ post.
Proof.
  induction h as [|d h IH].
  - change (contains n EmptyString) with (prefix n EmptyString || false)%bool.
    rewrite orb_false_r, prefix_iff. split.
    + intros [post H]. exists EmptyString, post. exact H.
    + intros (pre & post & H). destruct pre; simpl in H.
      * now exists post.
      * discriminate.
  - change (contains n (String d h))
      with (prefix n (String d h) || contains n h)%bool.
    rewrite orb_true_iff, prefix_iff, IH. split.
    + intros [[post H] | (pre & post & H)].
      * exists EmptyString, post. exact H.
      * exists (String d pre), post. simpl. now rewrite H.
    + intros (pre & post & H). destruct pre as [|c pre]; simpl in H.
      * left. now exists post.
      * right. injection H as _ H. now exists pre, post.
Qed.

(** [needle in text.lower()] is case-insensitive substring search. *)
Lemma contains_lower_iff (needle text : string) :
  contains (lower needle) (lower text) = true <->
  occurs_ignoring_case needle text.
Proof.
  rewrite contains_iff. unfold occurs_ignoring_case, occurs_at. split.
  - intros (pre & post & H).
    destruct (lower_split _ _ _ H) as (tp & tr & -> & Hp & Hr).
    destruct (lower_split _ _ _ Hr) as (tm & tq & -> & Hm & Hq).
    now exists tp, tm, tq.
  - intros (pre & mid & post & -> & H).
    exists (lower pre), (lower post). now rewrite !lower_app, H.
Qed.

Lemma take_take (n : nat) (s : string) : take n (take n s) = take n s.
Proof.
  revert s; induction n as [|n IH]; intros [|c s]; simpl; auto.
  now rewrite IH.
Qed.

End PyStrFacts.

(** ** The matcher against the meaning of patterns *)

Module RegexFacts.
Import Regex EnricherSpec PyStrFacts.

Lemma str_app_empty_r (s : string) : s ++ EmptyString = s.
Proof. induction s; simpl; congruence. Qed.

Lemma str_app_assoc (a b c : string) : (a ++ b) ++ c = a ++ b ++ c.
Proof. induction a; simpl; congruence. Qed.

Lemma star_match_sound (p : ascii -> bool) (s : string)
      (k : string -> option string) (m : string) :
  star_match p s k = Some m -> found (Star p) s k m.
Proof.
  revert m; induction s as [|c s IH]; intros m H; simpl in H.
  - exists EmptyString, EmptyString, m. repeat split; auto. constructor.
  - assert (Hk : k (String c s) = Some m -> found (Star p) (String c s) k m).
    { intros Hk. exists EmptyString, (String c s), m. repeat split; auto. constructor. }
    destruct (p c) eqn:Hp; [|auto].
    destruct (star_match p s k) as [m1|] eqn:Hs; simpl in H; [|auto].
    injection H as <-.
    destruct (IH _ eq_refl) as (w & rest & m' & -> & Hw & Hk' & ->).
    exists (String c w), rest, m'. repeat split; auto.
    now constructor.
Qed.

Lemma rmatch_sound (r : regex) :
  forall s k m, rmatch r s k = Some m -> found r s k m.
Proof.
  induction r as [|l|p|r1 IH1 r2 IH2|r1 IH1 r2 IH2|p]; intros s k m H;
    simpl in H.
  - exists EmptyString, s, m. repeat split; auto. constructor.
  - destruct (prefix l s) eqn:Hl; [|discriminate].
    destruct (k (PyStr.drop (length l) s)) as [m'|] eqn:Hk; [|discriminate].
    injection H as <-.
    exists l, (PyStr.drop (length l) s), m'.
    repeat split; auto using prefix_drop. constructor.
  - destruct s as [|c s]; [discriminate|].
    destruct (p c) eqn:Hp; [|discriminate].
    destruct (k s) as [m'|] eqn:Hk; [|discriminate].
    injection H as <-.
    exists (String c EmptyString), s, m'. repeat split; auto. now constructor.
  - destruct (IH1 _ _ _ H) as (w1 & rest1 & m1 & -> & Hw1 & Hk1 & ->).
    destruct (IH2 _ _ _ Hk1) as (w2 & rest2 & m2 & -> & Hw2 & Hk2 & ->).
    exists (w1 ++ w2), rest2, m2.
    rewrite !str_app_assoc. repeat split; auto. now constructor.
  - destruct (rmatch r1 s k) as [m1|] eqn:H1; simpl in H.
    + injection H as <-.
      destruct (IH1 _ _ _ H1) as (w & rest & m' & -> & Hw & Hk & ->).
      exists w, rest, m'. repeat split; auto. now apply MAltL.
    + destruct (IH2 _ _ _ H) as (w & rest & m' & -> & Hw & Hk & ->).
      exists w, rest, m'. repeat split; auto. now apply MAltR.
  - now apply star_match_sound.
Qed.

Lemma or_else_some (a b : option string) :
  a <> None \/ b <> None -> or_else a b <> None.
Proof. destruct a; simpl; intros [H|H]; congruence. Qed.

Lemma prepend_some (w : string) (o : option string) :
  o <> None -> prepend w o <> None.
Proof. destruct o; simpl; congruence. Qed.

Lemma star_match_nil (p : ascii -> bool) (s : string)
      (k : string -> option string) :
  k s <> None -> star_match p s k <> None.
Proof.
  destruct s as [|c s]; simpl; auto.
  destruct (p c); auto using or_else_some.
Qed.

(** The matcher misses no word: backtracking reaches every way a
    pattern can match. *)
Lemma rmatch_complete (r : regex) (w : string) :
  matches r w ->
  forall rest k, k rest <> None -> rmatch r (w ++ rest) k <> None.
Proof.
  induction 1 as [|l|p c Hp|r1 r2 w1 w2 _ IH1 _ IH2|r1 r2 w _ IH
                 |r1 r2 w _ IH|p|p c w Hp _ IH];
    intros rest k Hk; simpl.
  - exact Hk.
  - assert (Hl : prefix l (l ++ rest) = true)
      by (apply prefix_iff; now exists rest).
    rewrite Hl, drop_app. now apply prepend_some.
  - rewrite Hp. now apply prepend_some.
  - rewrite str_app_assoc. apply IH1. now apply IH2.
  - apply or_else_some. left. now apply IH.
  - apply or_else_some. right. now apply IH.
  - now apply star_match_nil.
  - rewrite Hp. apply or_else_some. left. apply prepend_some.
    now apply (IH rest k).
Qed.

Lemma re_match_some (r : regex) (s m : string) :
  re_match r s = Some m -> exists post, s = m ++ post /\ matches r m.
Proof.
  intros H. destruct (rmatch_sound _ _ _ _ H) as (w & rest & m' & -> & Hw & Hk & ->).
  injection Hk as <-. rewrite str_app_empty_r. now exists rest.
Qed.

Lemma re_match_none (r : regex) (s m post : string) :
  re_match r s = None -> s = m ++ post -> ~ matches r m.
Proof.
  intros H -> Hm. revert H. apply (rmatch_complete _ _ Hm). discriminate.
Qed.

Lemma re_search_none (r : regex) (s : string) :
  re_search r s = None -> ~ EnricherSpec.has_match r s.
Proof.
  induction s as [|c s IH]; simpl;
    destruct (re_match r _) eqn:Hm; try discriminate;
    intros H (pre & m & post & Hs & Hw); unfold PyStr.occurs_at in Hs.
  - destruct pre; [|discriminate]. exact (re_match_none r _ m post Hm Hs Hw).
  - destruct pre as [|d pre]; simpl in Hs.
    + exact (re_match_none r _ m post Hm Hs Hw).
    + injection Hs as _ Hs. apply (IH H). now exists pre, m, post.
Qed.

Lemma re_search_some (r : regex) (s m : string) :
  EnricherSpec.greedy_is_longest r ->
  re_search r s = Some m -> EnricherSpec.leftmost_longest_match r s m.
Proof.
  intros Hlong. revert m; induction s as [|c s IH]; intros m; simpl;
    destruct (re_match r _) eqn:Hm; try discriminate; intros H.
  - injection H as <-. destruct (re_match_some _ _ _ Hm) as (post & Hs & Hw).
    exists EmptyString, post. repeat split; auto.
    intros [|d pre'] m' post' Hs' Hw'; [|discriminate].
    right. split; [reflexivity|]. exact (Hlong _ _ Hm m' post' Hs' Hw').
  - injection H as <-. destruct (re_match_some _ _ _ Hm) as (post & Hs & Hw).
    exists EmptyString, post. repeat split; auto.
    intros [|d pre'] m' post' Hs' Hw'.
    + right. split; [reflexivity|]. exact (Hlong _ _ Hm m' post' Hs' Hw').
    + left. simpl. lia.
  - destruct (IH _ H) as (pre & post & Hs & Hw & Hleft).
    unfold PyStr.occurs_at in *.
    exists (String c pre), post. repeat split; auto.
    + simpl. now rewrite Hs.
    + intros [|d pre'] m' post' Hs' Hw'; simpl in Hs'.
      * exfalso. exact (re_match_none r _ m' post' Hm Hs' Hw').
      * injection Hs' as _ Hs'. simpl.
        destruct (Hleft _ _ _ Hs' Hw') as [L|[E L]]; [left | right]; lia.
Qed.

Lemma str_length_app (a b : string) :
  length (a ++ b) = length a + length b.
Proof. induction a; simpl; auto. Qed.

Lemma str_length_cons (c : ascii) (s : string) :
  length (String c s) = S (length s).
Proof. reflexivity. Qed.

Ltac lengths :=
  repeat first [rewrite str_length_app | rewrite str_length_cons];
  change (length EmptyString) with 0; lia.

Lemma run_after_run (p : ascii -> bool) (s : string) :
  s = run p s ++ after_run p s.
Proof.
  induction s as [|c s IH]; simpl; [reflexivity|].
  destruct (p c); simpl; [now rewrite <- IH | reflexivity].
Qed.

Lemma after_run_stops (p : ascii -> bool) (s : string) :
  stops p (after_run p s).
Proof.
  induction s as [|c s IH]; simpl; [exact I|].
  destruct (p c) eqn:H; [exact IH | exact H].
Qed.

Lemma run_stops (p : ascii -> bool) (s : string) :
  stops p s -> run p s = EmptyString /\ after_run p s = s.
Proof. destruct s as [|c s]; simpl; [auto | now intros ->]. Qed.

(** A word of the class at the start of a text is the start of the
    run. *)
Lemma run_app (p : ascii -> bool) (w rest : string) :
  matches (Star p) w ->
  run p (w ++ rest) = w ++ run p rest /\
  after_run p (w ++ rest) = after_run p rest.
Proof.
  intros H. remember (Star p) as r eqn:Hr.
  induction H as [| | | | | | q | q c w Hc Hw IH]; try discriminate.
  - auto.
  - injection Hr as ->. simpl. rewrite Hc.
    destruct (IH eq_refl) as [-> ->]. auto.
Qed.

Lemma star_match_any (p : ascii -> bool) (s : string) :
  star_match p s (fun _ => Some EmptyString) = Some (run p s).
Proof.
  induction s as [|c s IH]; simpl; [reflexivity|].
  destruct (p c); [|reflexivity]. now rewrite IH.
Qed.

(** The star keeps the whole run when the continuation accepts what
    follows it. *)
Lemma star_match_greedy (p : ascii -> bool) (s : string)
      (k : string -> option string) :
  k (after_run p s) <> None ->
  star_match p s k = prepend (run p s) (k (after_run p s)).
Proof.
  induction s as [|c s IH]; simpl; intros H.
  - now destruct (k EmptyString).
  - destruct (p c).
    + rewrite (IH H). destruct (k (after_run p s)); [reflexivity | congruence].
    + now destruct (k (String c s)).
Qed.

(** It also keeps the whole run when the continuation refuses every
    text that starts inside the class. *)
Lemma star_match_blocked (p : ascii -> bool) (s : string)
      (k : string -> option string) :
  (forall c x, p c = true -> k (String c x) = None) ->
  star_match p s k = prepend (run p s) (k (after_run p s)).
Proof.
  intros B. induction s as [|c s IH]; simpl.
  - now destruct (k EmptyString).
  - destruct (p c) eqn:Hc.
    + rewrite IH, (B c s Hc). now destruct (k (after_run p s)).
    + now destruct (k (String c s)).
Qed.

Lemma matches_seq_inv (r1 r2 : regex) (w : string) :
  matches (Seq r1 r2) w ->
  exists w1 w2, w = w1 ++ w2 /\ matches r1 w1 /\ matches r2 w2.
Proof. inversion 1; subst. eauto. Qed.

Lemma matches_alt_inv (r1 r2 : regex) (w : string) :
  matches (Alt r1 r2) w -> matches r1 w \/ matches r2 w.
Proof. inversion 1; subst; auto. Qed.

Lemma matches_cls_inv (p : ascii -> bool) (w : string) :
  matches (Cls p) w -> exists c, w = String c EmptyString /\ p c = true.
Proof. inversion 1; subst. eauto. Qed.

Lemma matches_lit_inv (l w : string) : matches (Lit l) w -> w = l.
Proof. now inversion 1. Qed.

Lemma matches_eps_inv (w : string) : matches Eps w -> w = EmptyString.
Proof. now inversion 1. Qed.

Lemma matches_plus_inv (p : ascii -> bool) (w : string) :
  matches (Plus p) w ->
  exists c w', w = String c w' /\ p c = true /\ matches (Star p) w'.
Proof.
  intros H. apply matches_seq_inv in H. destruct H as (w1 & w2 & -> & H1 & H2).
  apply matches_cls_inv in H1. destruct H1 as (c & -> & Hc).
  exists c, w2. auto.
Qed.

(** [c+] at the start of a text, when anything may follow. *)
Lemma re_match_plus (p : ascii -> bool) (s : string) :
  re_match (Plus p) s =
  match s with
  | EmptyString => None
  | String c s' => if p c then Some (String c (run p s')) else None
  end.
Proof.
  unfold re_match, Plus. simpl. destruct s as [|c s]; [reflexivity|].
  destruct (p c); [|reflexivity]. now rewrite star_match_any.
Qed.

Lemma plus_longest (p : ascii -> bool) : greedy_is_longest (Plus p).
Proof.
  intros s m Hm m' post' -> Hw.
  destruct (matches_plus_inv _ _ Hw) as (c & w & -> & Hc & Hs).
  rewrite re_match_plus in Hm. simpl in Hm. rewrite Hc in Hm.
  injection Hm as <-. destruct (run_app p w post' Hs) as [-> _].
  lengths.
Qed.

End RegexFacts.

(** ** The enricher *)

Module EnricherFacts.
Import Regex Enricher EnricherSpec PyStrFacts RegexFacts.

Lemma contains_fires (needle text : string) (r : rule) :
  In needle (fst r) -> PyStr.lower needle = needle ->
  PyStr.contains needle (PyStr.lower text) = true -> fires r text.
Proof.
  intros Hin Hlow H. exists needle. split; [exact Hin|].
  apply PyStrFacts.contains_lower_iff. now rewrite Hlow.
Qed.

Lemma contains_not_fires1 (n text label : string) :
  PyStr.lower n = n ->
  PyStr.contains n (PyStr.lower text) = false -> ~ fires ([n], label) text.
Proof.
  intros Hlow H (needle & [<-|[]] & Hocc).
  apply PyStrFacts.contains_lower_iff in Hocc. rewrite Hlow in Hocc.
  congruence.
Qed.

Lemma contains_not_fires2 (n1 n2 text label : string) :
  PyStr.lower n1 = n1 -> PyStr.lower n2 = n2 ->
  PyStr.contains n1 (PyStr.lower text) = false ->
  PyStr.contains n2 (PyStr.lower text) = false ->
  ~ fires ([n1; n2], label) text.
Proof.
  intros Hl1 Hl2 H1 H2 (needle & [<-|[<-|[]]] & Hocc);
    apply PyStrFacts.contains_lower_iff in Hocc.
  - rewrite Hl1 in Hocc. congruence.
  - rewrite Hl2 in Hocc. congruence.
Qed.

(** C5.  For every text, [_identify_document_type] returns one of the
    five labels, and it is the label of the first rule of the ordered
    table (Compliance Certificate, Credit Agreement, Credit Application,
    LSTA Agreement) one of whose substrings occurs in the text with case
    ignored; a text on which no rule fires gets Credit Document. *)
Theorem identify_document_type_first_match (text : string) :
  In (_identify_document_type text) document_types /\
  first_match text classification_rules (_identify_document_type text).
Proof.
  unfold _identify_document_type, classification_rules, document_types.
  cbv zeta.
  destruct (PyStr.contains "compliance certificate" _) eqn:H1.
  { split; [simpl; auto|].
    apply (FirstHit text (["compliance certificate"], "Compliance Certificate")).
    eapply contains_fires; eauto; simpl; auto. }
  assert (N1 := contains_not_fires1 _ _ "Compliance Certificate" eq_refl H1).
  destruct (PyStr.contains "credit agreement" _) eqn:H2; simpl orb; cbv iota.
  { split; [simpl; auto|].
    apply FirstSkip; [exact N1|].
    apply (FirstHit text (["credit agreement"; "loan agreement"], "Credit Agreement")).
    eapply contains_fires; eauto; simpl; auto. }
  destruct (PyStr.contains "loan agreement" _) eqn:H3.
  { split; [simpl; auto|].
    apply FirstSkip; [exact N1|].
    apply (FirstHit text (["credit agreement"; "loan agreement"], "Credit Agreement")).
    eapply contains_fires; eauto; simpl; auto. }
  assert (N2 := contains_not_fires2 _ _ _ "Credit Agreement" eq_refl eq_refl H2 H3).
  destruct (PyStr.contains "credit application" _) eqn:H4.
  { split; [simpl; tauto|].
    do 2 (apply FirstSkip; [assumption|]).
    apply (FirstHit text (["credit application"], "Credit Application")).
    eapply contains_fires; eauto; simpl; auto. }
  assert (N4 := contains_not_fires1 _ _ "Credit Application" eq_refl H4).
  destruct (PyStr.contains "lsta" _) eqn:H5.
  { split; [simpl; tauto|].
    do 3 (apply FirstSkip; [assumption|]).
    apply (FirstHit text (["lsta"], "LSTA Agreement")).
    eapply contains_fires; eauto; simpl; auto. }
  assert (N5 := contains_not_fires1 _ _ "LSTA Agreement" eq_refl H5).
  split; [simpl; tauto|].
  do 4 (apply FirstSkip; [assumption|]). apply FirstDefault.
Qed.

(** *** The classes of the four patterns *)

Ltac by_character c :=
  destruct c as [[] [] [] [] [] [] [] []]; vm_compute; intros H;
  first [reflexivity | discriminate H].

Lemma digit_not_space (c : ascii) : is_digit c = true -> is_space c = false.
Proof. by_character c. Qed.

Lemma roman_not_space (c : ascii) : is_roman c = true -> is_space c = false.
Proof. by_character c. Qed.

Lemma roman_not_digit (c : ascii) : is_roman c = true -> is_digit c = false.
Proof. by_character c. Qed.

Lemma dot_not_digit (c : ascii) : is_dot c = true -> is_digit c = false.
Proof. by_character c. Qed.

(** *** [\d+\.?\d*] *)

Lemma rmatch_fraction (x : string) :
  rmatch (Opt (Cls is_dot)) x
         (fun x' => star_match is_digit x' (fun _ => Some EmptyString))
  = Some (fraction x).
Proof.
  unfold Opt, fraction. cbn [rmatch].
  destruct x as [|d x]; [reflexivity|].
  destruct (is_dot d).
  - rewrite star_match_any. reflexivity.
  - now rewrite star_match_any.
Qed.

Lemma re_match_number (s : string) :
  re_match number s =
  match s with
  | EmptyString => None
  | String c s' =>
      if is_digit c
      then Some (String c (run is_digit s'
                           ++ fraction (after_run is_digit s')))
      else None
  end.
Proof.
  unfold re_match, number, Plus. cbn [rmatch].
  destruct s as [|c s]; [reflexivity|].
  destruct (is_digit c); [|reflexivity].
  rewrite star_match_greedy; cbv beta; rewrite rmatch_fraction;
    [reflexivity | discriminate].
Qed.

Lemma run_stop_char (p : ascii -> bool) (d : ascii) (x : string) :
  p d = false ->
  run p (String d x) = EmptyString /\ after_run p (String d x) = String d x.
Proof. intros H. simpl. now rewrite H. Qed.

Lemma fraction_dot (d : ascii) (x : string) :
  is_dot d = true -> fraction (String d x) = String d (run is_digit x).
Proof. intros H. unfold fraction. now rewrite H. Qed.

Lemma number_longest : greedy_is_longest number.
Proof.
  intros s m Hm m' post' -> Hw. unfold number in Hw.
  destruct (matches_seq_inv _ _ _ Hw) as (w1 & w2 & -> & H1 & H2).
  destruct (matches_plus_inv _ _ H1) as (c & d1 & -> & Hc & Hd1).
  destruct (matches_seq_inv _ _ _ H2) as (o & d2 & -> & Ho & Hd2).
  rewrite re_match_number in Hm.
  change ((String c d1 ++ o ++ d2) ++ post')
    with (String c ((d1 ++ o ++ d2) ++ post')) in Hm.
  cbv iota in Hm. rewrite Hc in Hm. injection Hm as <-.
  rewrite !str_app_assoc.
  destruct (run_app is_digit d1 (o ++ d2 ++ post') Hd1) as [-> ->].
  destruct (run_app is_digit d2 post' Hd2) as [Hrun2 _].
  apply matches_alt_inv in Ho. destruct Ho as [Ho|Ho].
  - apply matches_cls_inv in Ho. destruct Ho as (d & -> & Hd).
    change (String d EmptyString ++ d2 ++ post')
      with (String d (d2 ++ post')).
    destruct (run_stop_char is_digit d (d2 ++ post') (dot_not_digit d Hd))
      as [-> ->].
    rewrite (fraction_dot d _ Hd), Hrun2.
    lengths.
  - apply matches_eps_inv in Ho. subst o.
    change (EmptyString ++ d2 ++ post') with (d2 ++ post').
    rewrite Hrun2. lengths.
Qed.

Lemma number_starts_outside : starts_outside is_space number.
Proof.
  intros w Hw. unfold number in Hw.
  destruct (matches_seq_inv _ _ _ Hw) as (w1 & w2 & -> & H1 & _).
  destruct (matches_plus_inv _ _ H1) as (c & d1 & -> & Hc & _).
  exists c, (d1 ++ w2). split; [reflexivity | now apply digit_not_space].
Qed.

(** *** [([IVXLCDM]+|\d+)] *)

Lemma roman_or_number_longest : greedy_is_longest roman_or_number.
Proof.
  intros s m Hm m' post' Hs Hw. unfold roman_or_number in Hw.
  assert (E : re_match roman_or_number s =
              or_else (re_match (Plus is_roman) s)
                      (re_match (Plus is_digit) s)) by reflexivity.
  rewrite E in Hm. clear E.
  apply matches_alt_inv in Hw. destruct Hw as [Hw|Hw].
  - destruct (re_match (Plus is_roman) s) as [m1|] eqn:H1.
    + injection Hm as <-. exact (plus_longest _ _ _ H1 _ _ Hs Hw).
    + exfalso. revert H1. subst s.
      apply (rmatch_complete _ _ Hw). discriminate.
  - destruct (re_match (Plus is_roman) s) as [m1|] eqn:H1.
    + exfalso. rewrite re_match_plus in H1.
      destruct (matches_plus_inv _ _ Hw) as (c & w & -> & Hc & _).
      subst s. simpl in H1. destruct (is_roman c) eqn:Hr; [|discriminate].
      rewrite (roman_not_digit c Hr) in Hc. discriminate.
    + simpl in Hm. exact (plus_longest _ _ _ Hm _ _ Hs Hw).
Qed.

Lemma roman_or_number_starts_outside :
  starts_outside is_space roman_or_number.
Proof.
  intros w Hw. unfold roman_or_number in Hw.
  apply matches_alt_inv in Hw.
  destruct Hw as [Hw|Hw];
    destruct (matches_plus_inv _ _ Hw) as (c & w' & -> & Hc & _);
    exists c, w'; auto using roman_not_space, digit_not_space.
Qed.

(** *** [keyword\s+body] *)

Lemma body_blocked (body : regex) :
  starts_outside is_space body ->
  forall c x, is_space c = true -> re_match body (String c x) = None.
Proof.
  intros Hout c x Hc. destruct (re_match body (String c x)) as [w|] eqn:H;
    [|reflexivity].
  destruct (re_match_some _ _ _ H) as (post & Hs & Hw).
  destruct (Hout w Hw) as (c0 & w' & -> & Hc0).
  simpl in Hs. injection Hs as -> _. congruence.
Qed.

Lemma heading_longest (keyword : string) (body : regex) :
  starts_outside is_space body -> greedy_is_longest body ->
  greedy_is_longest (heading keyword body).
Proof.
  intros Hout Hbody s m Hm m' post' Hs Hw. unfold heading in Hw.
  destruct (matches_seq_inv _ _ _ Hw) as (l & w & -> & Hl & Hw').
  apply matches_lit_inv in Hl. subst l.
  destruct (matches_seq_inv _ _ _ Hw') as (w1 & b & -> & H1 & Hb).
  destruct (matches_plus_inv _ _ H1) as (c & ws & -> & Hc & Hws).
  rewrite !str_app_assoc in Hs. simpl in Hs. subst s.
  unfold re_match, heading, Plus in Hm. cbn [rmatch] in Hm.
  assert (Hp : prefix keyword
                 (keyword ++ String c (ws ++ b ++ post')) = true)
    by (apply prefix_iff; eexists; reflexivity).
  rewrite Hp, drop_app, Hc in Hm.
  rewrite (star_match_blocked is_space _ _ (body_blocked body Hout)) in Hm.
  destruct (run_app is_space ws (b ++ post') Hws) as [Hrun Hafter].
  destruct (Hout b Hb) as (c0 & b0 & Eb & Hc0).
  assert (St : stops is_space (b ++ post')) by (rewrite Eb; exact Hc0).
  destruct (run_stops _ _ St) as [R A].
  rewrite Hrun, Hafter, R, A in Hm. cbv beta in Hm.
  destruct (re_match body (b ++ post')) as [B|] eqn:HB; simpl in Hm;
    [|discriminate].
  injection Hm as <-.
  pose proof (Hbody _ _ HB b post' eq_refl Hb) as Hlen.
  lengths.
Qed.

Lemma patterns_longest : Forall greedy_is_longest patterns.
Proof.
  unfold patterns.
  repeat constructor;
    apply heading_longest;
    auto using number_longest, number_starts_outside,
      roman_or_number_longest, roman_or_number_starts_outside.
Qed.

Lemma first_search_label (ps : list Regex.regex) (s : string) :
  Forall greedy_is_longest ps ->
  section_label s ps (first_search ps s).
Proof.
  induction 1 as [|p ps Hp _ IH]; simpl.
  - constructor.
  - destruct (Regex.re_search p s) as [m|] eqn:H.
    + apply LabelHit. now apply RegexFacts.re_search_some.
    + apply LabelNext; [now apply RegexFacts.re_search_none | exact IH].
Qed.

(** The pattern list of the code is the one of the specification. *)
Lemma patterns_as_specified : patterns = section_patterns.
Proof. reflexivity. Qed.

(** C6.  For every chunk text, [_extract_section_info] looks only at
    the first 500 characters: its result is the full text of a match of
    the first of the four patterns of the specification (SECTION or
    Section and a number, ARTICLE or Article and a roman numeral or a
    number) that has a match in that window -- the leftmost one, and
    the longest at that place -- and [None] when none of the four has
    one.  It is a function of the text alone. *)
Theorem extract_section_info_label (text : string) :
  section_label (PyStr.take 500 text) section_patterns
    (_extract_section_info text) /\
  _extract_section_info (PyStr.take 500 text) = _extract_section_info text.
Proof.
  split.
  - rewrite <- patterns_as_specified.
    apply first_search_label, patterns_longest.
  - unfold _extract_section_info. now rewrite PyStrFacts.take_take.
Qed.

(** The scenario of the specification: a credit agreement with a
    leverage covenant in Section 7.2. *)
Example leverage_covenant_type :
  _identify_document_type
    "CREDIT AGREEMENT. Section 7.2 Leverage Ratio shall not exceed 4.00x"
  = "Credit Agreement".
Proof. reflexivity. Qed.

Example leverage_covenant_section :
  _extract_section_info
    "CREDIT AGREEMENT. Section 7.2 Leverage Ratio shall not exceed 4.00x"
  = Some "Section 7.2".
Proof. reflexivity. Qed.

(** The patterns are tried in order, not the positions: an upper-case
    SECTION later in the window wins over an Article before it. *)
Example section_before_article :
  _extract_section_info "Article IV, see SECTION 12.5(a)" = Some "SECTION 12.5".
Proof. reflexivity. Qed.

Example no_label : _extract_section_info "section 7.2 and article iv" = None.
Proof. reflexivity. Qed.

Example priority_of_types :
  _identify_document_type "LSTA form of Compliance Certificate under the Loan Agreement"
  = "Compliance Certificate".
Proof. reflexivity. Qed.

End EnricherFacts.

(** ** The methods *)

Module ChatbotFacts.
Import Chatbot ChatbotSpec.
Local Open Scope py_scope.

(** *** Transitions through the monad *)

Section Transitions.

Variable R : State -> State -> Prop.
Hypothesis R_refl : forall s, R s s.
Hypothesis R_trans : forall a b c, R a b -> R b c -> R a c.

Lemma transition_ret (A : Type) (a : A) : transition R (ret a).
Proof. intros s. apply R_refl. Qed.

Lemma transition_raise (A : Type) (e : PyExc) : transition R (@raise A e).
Proof. intros s. apply R_refl. Qed.

Lemma transition_lift (A : Type) (o : outcome A) : transition R (lift o).
Proof. intros s. apply R_refl. Qed.

Lemma transition_get (A : Type) (f : State -> A) : transition R (get f).
Proof. intros s. apply R_refl. Qed.

Lemma transition_modify (f : State -> State) :
  (forall s, R s (f s)) -> transition R (modify f).
Proof. intros H s. apply H. Qed.

Lemma transition_logger (lvl : Level) (msg : LogMsg) :
  (forall s, R s (add_log (lvl, msg) s)) -> transition R (logger lvl msg).
Proof. intros H s. apply H. Qed.

Lemma transition_now (env : Env) :
  (forall s n, R s (set_clock_reads n s)) -> transition R (datetime_now env).
Proof. intros H s. apply H. Qed.

Lemma transition_bind (A B : Type) (m : M A) (k : A -> M B) :
  transition R m -> (forall a, transition R (k a)) ->
  transition R (bind m k).
Proof.
  intros Hm Hk s. unfold bind.
  specialize (Hm s). destruct (m s) as [[a|e] s1]; simpl in *.
  - eapply R_trans; [exact Hm | apply Hk].
  - exact Hm.
Qed.

Lemma transition_try (A : Type) (m : M A) (h : PyExc -> M A) :
  transition R m -> (forall e, transition R (h e)) ->
  transition R (try_except m h).
Proof.
  intros Hm Hh s. unfold try_except.
  specialize (Hm s). destruct (m s) as [[a|e] s1]; simpl in *.
  - exact Hm.
  - eapply R_trans; [exact Hm | apply Hh].
Qed.

End Transitions.

(** Walks through a method: [known] closes what was proved before,
    [leaf] the single updates of the state. *)
Ltac walk rfl trs known leaf :=
  repeat first
    [ solve [known]
    | match goal with |- forall _, _ => intro end
    | progress cbv beta
    | apply (transition_ret _ rfl)
    | apply (transition_raise _ rfl)
    | apply (transition_lift _ rfl)
    | apply (transition_get _ rfl)
    | apply (transition_bind _ trs)
    | apply (transition_try _ trs)
    | apply transition_logger; intro; solve [leaf]
    | apply transition_modify; intro; solve [leaf]
    | apply transition_now; intros; solve [leaf]
    | match goal with
      | |- transition _ (match ?x with _ => _ end) => destruct x
      | |- transition _ (if ?b then _ else _) => destruct b
      end ].

(** *** Loading *)

Lemma load_documents_run (env : Env) (s : State) :
  _load_documents env s =
  (Return (found_documents env), fold_right add_log s (load_records env)).
Proof.
  unfold _load_documents, found_documents, load_records, load_all,
    DirectoryLoader_load, try_except, bind, lift, logger, modify, ret.
  simpl.
  destruct (load_files false (glob env ".pdf")) as [pdf|e]; simpl; auto.
  destruct (load_files false (glob env ".docx")) as [docx|e]; simpl; auto.
  destruct (enhance_all (pdf ++ docx)) as [docs|e]; simpl; auto.
Qed.

Lemma load_files_failure (fs : list SrcFile) :
  (exists f, In f fs /\ returns (file_parse f) = false) ->
  exists e, load_files false fs = Raise e.
Proof.
  induction fs as [|f fs IH]; intros (g & Hin & Hg).
  - destruct Hin.
  - simpl. destruct (file_parse f) as [docs|e] eqn:Hf.
    + destruct Hin as [->|Hin]; [rewrite Hf in Hg; discriminate|].
      destruct IH as [e He]; [now exists g|]. rewrite He. now exists e.
    + now exists e.
Qed.

Lemma load_all_failure (env : Env) :
  (exists f, In f (selected env) /\ returns (file_parse f) = false) ->
  exists e, load_all env = Raise e.
Proof.
  intros (f & Hin & Hf). unfold load_all.
  apply in_app_or in Hin.
  destruct (load_files false (glob env ".pdf")) as [pdf|e] eqn:Hpdf;
    [|now exists e].
  destruct Hin as [Hin|Hin].
  - destruct (load_files_failure (glob env ".pdf")) as [e He];
      [now exists f | congruence].
  - destruct (load_files_failure (glob env ".docx")) as [e He];
      [now exists f|]. rewrite He. now exists e.
Qed.

(** *** Runs of the rebuild *)

Lemma bind_logger (B : Type) (lvl : Level) (msg : LogMsg)
      (k : unit -> M B) (s : State) :
  bind (logger lvl msg) k s = k tt (add_log (lvl, msg) s).
Proof. reflexivity. Qed.

Lemma bind_load (B : Type) (env : Env) (k : list Document -> M B)
      (s : State) :
  bind (_load_documents env) k s =
  k (found_documents env) (fold_right add_log s (load_records env)).
Proof. unfold bind. now rewrite load_documents_run. Qed.

(** Opens [_refresh_documents] up to the test on the documents
    found. *)
Ltac open_refresh env :=
  unfold _refresh_documents;
  rewrite bind_logger, bind_load;
  unfold found_documents, load_records;
  destruct (load_all env) as [[|doc docs]|load_error]; cbv beta iota.

(** Runs the rest of a build over a non-empty list of documents. *)
Ltac run_build env s :=
  unfold bind, _preprocess_documents, FAISS_from_documents,
    FAISS_save_local, mkdir, write_index_faiss, write_index_pkl,
    datetime_now, logger, modify, ret, raise;
  destruct s as [interval last store chain [dir|] reads records];
  simpl;
  (destruct (env_embed_fault env _) as [embed_error|]; simpl;
   [|destruct (env_save_fault env) as [[save_error|save_error]|]; simpl]).

(** A rebuild that finds no documents: the warning, and nothing
    else. *)
Lemma refresh_documents_empty (env : Env) (s : State) :
  found_documents env = [] ->
  _refresh_documents env s =
  (Return tt,
   add_log (WARNING, NoDocumentsFound)
     (fold_right add_log (add_log (INFO, RefreshingIndex) s)
        (load_records env))).
Proof.
  intros H. unfold _refresh_documents.
  rewrite bind_logger, bind_load, H. reflexivity.
Qed.

Lemma fold_add_log_fields (rs : list LogRecord) (s : State) :
  let s' := fold_right add_log s rs in
  refresh_interval s' = refresh_interval s /\
  last_refresh s' = last_refresh s /\
  vector_store s' = vector_store s /\
  qa_chain s' = qa_chain s /\
  store_dir s' = store_dir s /\
  clock_reads s' = clock_reads s /\
  log s' = (rs ++ log s)%list.
Proof.
  induction rs as [|r rs IH]; simpl; [tauto|].
  destruct IH as (? & ? & ? & ? & ? & ? & ->). tauto.
Qed.

(** *** C3 *)

(** C3, amended.  During document loading, a failure to parse one
    individual file is logged and aborts the batch: [_load_documents]
    returns the empty list, so that no document of the files that did
    load is included, and it raises nothing to its caller. *)
Theorem load_documents_aborts_on_failure (env : Env) (s : State) :
  (exists f, In f (selected env) /\ returns (file_parse f) = false) ->
  fst (_load_documents env s) = Return [] /\
  exists e,
    logged_since s (snd (_load_documents env s))
      [(ERROR, ErrorLoadingDocuments e); (INFO, LoadingDocuments)].
Proof.
  intros H. destruct (load_all_failure env H) as [e He].
  rewrite load_documents_run. unfold found_documents, load_records.
  rewrite He. split; [reflexivity|]. now exists e.
Qed.

Lemma load_documents_aborts_witness :
  fst (_load_documents
         (Scenario.working [Scenario.agreement_pdf; Scenario.broken_docx])
         Scenario.without_index) = Return [] /\
  exists e,
    logged_since Scenario.without_index
      (snd (_load_documents
              (Scenario.working [Scenario.agreement_pdf; Scenario.broken_docx])
              Scenario.without_index))
      [(ERROR, ErrorLoadingDocuments e); (INFO, LoadingDocuments)].
Proof.
  apply load_documents_aborts_on_failure.
  exists Scenario.broken_docx. split; [|reflexivity].
  vm_compute. right. left. reflexivity.
Defined.

(** C3 as stated fails: with one PDF that parses and one DOCX that
    does not, the document of the PDF is not in the returned list. *)
Lemma failed_file_discards_loaded_documents :
  ~ skips_failed_files
      (Scenario.working [Scenario.agreement_pdf; Scenario.broken_docx])
      Scenario.without_index.
Proof.
  intros H.
  destruct (H Scenario.agreement_pdf [Scenario.agreement])
    as (result & Hr & Hinc).
  - vm_compute. left. reflexivity.
  - reflexivity.
  - vm_compute in Hr. injection Hr as <-.
    destruct (Hinc Scenario.agreement) as (d' & [] & _). simpl. auto.
Qed.

(** *** C2 *)

Lemma justified_refl (s : State) : last_refresh_justified s s.
Proof. exists []. split; [reflexivity | now left]. Qed.

Lemma justified_trans (a b c : State) :
  last_refresh_justified a b -> last_refresh_justified b c ->
  last_refresh_justified a c.
Proof.
  unfold last_refresh_justified, logged_since.
  intros (n1 & L1 & H1) (n2 & L2 & H2).
  exists (n2 ++ n1)%list. split.
  - now rewrite L2, L1, List.app_assoc.
  - destruct H2 as [E2|(t & E2 & I2)].
    + destruct H1 as [E1|(t & E1 & I1)].
      * left. congruence.
      * right. exists t. split; [congruence|].
        destruct I1; [left | right]; apply in_or_app; now right.
    + right. exists t. split; [exact E2|].
      destruct I2; [left | right]; apply in_or_app; now left.
Qed.

(** A single update that is not an assignment to [last_refresh]. *)
Ltac justified_leaf :=
  try match goal with
      | |- context [match store_dir ?s with _ => _ end] =>
          destruct (store_dir s)
      end;
  first [ exists []; split; [reflexivity | left; reflexivity]
        | eexists [_]; split; [reflexivity | left; reflexivity] ].

(** The end of a successful rebuild. *)
Lemma justified_stamp_refreshed (env : Env) :
  transition last_refresh_justified
    (now <- datetime_now env ;;
     modify (set_last_refresh (Some now)) ;;
     logger INFO (StoreRefreshed now)).
Proof.
  intros s. eexists [_]. split; [reflexivity|].
  right. eexists. split; [reflexivity|]. left. simpl. auto.
Qed.

(** The end of a successful load. *)
Lemma justified_stamp_loaded (env : Env) :
  transition last_refresh_justified
    (now <- datetime_now env ;;
     modify (set_last_refresh (Some now)) ;;
     logger INFO StoreLoaded).
Proof.
  intros s. eexists [_]. split; [reflexivity|].
  right. eexists. split; [reflexivity|]. right. simpl. auto.
Qed.

Ltac justified_known :=
  first [ apply justified_stamp_refreshed | apply justified_stamp_loaded
        | assumption ].

Ltac justified_walk :=
  walk justified_refl justified_trans justified_known justified_leaf.

Lemma justified_load_documents (env : Env) :
  transition last_refresh_justified (_load_documents env).
Proof.
  intros s. rewrite load_documents_run. simpl.
  destruct (fold_add_log_fields (load_records env) s)
    as (_ & H & _ & _ & _ & _ & L).
  exists (load_records env). split; [exact L | now left].
Qed.

Lemma justified_refresh_documents (env : Env) :
  transition last_refresh_justified (_refresh_documents env).
Proof.
  pose proof (justified_load_documents env).
  unfold _refresh_documents, _preprocess_documents, FAISS_from_documents,
    mkdir, FAISS_save_local, write_index_faiss, write_index_pkl.
  justified_walk.
Qed.

Lemma justified_initialize_qa_chain :
  transition last_refresh_justified _initialize_qa_chain.
Proof. unfold _initialize_qa_chain. justified_walk. Qed.

Lemma justified_check_and_refresh (env : Env) :
  transition last_refresh_justified (_check_and_refresh env).
Proof.
  pose proof (justified_refresh_documents env).
  pose proof justified_initialize_qa_chain.
  unfold _check_and_refresh. justified_walk.
Qed.

Lemma justified_initialize_vector_store (env : Env) :
  transition last_refresh_justified (_initialize_vector_store env).
Proof.
  pose proof (justified_refresh_documents env).
  pose proof justified_initialize_qa_chain.
  unfold _initialize_vector_store, FAISS_load_local. justified_walk.
Qed.

Lemma justified_query (env : Env) (question : string) :
  transition last_refresh_justified (query env question).
Proof.
  pose proof (justified_check_and_refresh env).
  unfold query, call_chain. justified_walk.
Qed.

Lemma justified_manual_refresh (env : Env) :
  transition last_refresh_justified (manual_refresh env).
Proof.
  pose proof (justified_refresh_documents env).
  pose proof justified_initialize_qa_chain.
  unfold manual_refresh. justified_walk.
Qed.

(** A rebuild that changes [last_refresh] returned normally and found
    documents. *)
Lemma refresh_documents_stamp (env : Env) (s : State) :
  last_refresh (snd (_refresh_documents env s)) = last_refresh s \/
  (fst (_refresh_documents env s) = Return tt /\ found_documents env <> []).
Proof.
  open_refresh env.
  - left. reflexivity.
  - run_build env s; try (left; reflexivity);
      right; (split; [reflexivity | discriminate]).
  - left. reflexivity.
Qed.

(** C2, amended.  After the constructor has set it to [None],
    [last_refresh] is assigned in two places only: at the successful
    completion of a rebuild, and at the successful load of a previously
    persisted index in [_initialize_vector_store].  Whatever method
    runs, [last_refresh] keeps its value or holds the time of a
    completed rebuild or load that the run logged; and a rebuild that
    fails or finds no documents leaves it unchanged. *)
Theorem last_refresh_set_by_rebuild_or_load
        (env : Env) (c : Call) (s : State) :
  last_refresh_justified s (state_after env c s) /\
  (forall model interval,
      last_refresh_justified (set_last_refresh None s)
        (snd (__init__ env model interval s))) /\
  (last_refresh (snd (_refresh_documents env s)) = last_refresh s \/
   (fst (_refresh_documents env s) = Return tt /\
    found_documents env <> [])).
Proof.
  split; [|split; [|apply refresh_documents_stamp]].
  - destruct c; simpl.
    + apply justified_initialize_vector_store.
    + apply justified_load_documents.
    + unfold _preprocess_documents. revert s.
      change (transition last_refresh_justified
                (logger INFO Preprocessing ;;
                 logger INFO
                   (CreatedChunks
                      (List.length (flat_map (process_document env) documents))
                      (List.length documents)) ;;
                 ret (flat_map (process_document env) documents))).
      justified_walk.
    + apply justified_refresh_documents.
    + apply justified_check_and_refresh.
    + apply justified_initialize_qa_chain.
    + apply justified_query.
    + apply justified_manual_refresh.
  - intros model interval. unfold __init__.
    rewrite bind_logger. unfold bind at 1. unfold modify at 1.
    eapply justified_trans; [|apply justified_initialize_vector_store].
    eexists [_]. split; [reflexivity | now left].
Qed.

(** C2 as stated fails: [_initialize_vector_store] on a new object
    that finds a persisted index sets [last_refresh] although no rebuild
    ran. *)
Lemma load_sets_last_refresh :
  ~ only_rebuild_sets_last_refresh
      (Scenario.blank (Some Scenario.old_index))
      (snd (_initialize_vector_store (Scenario.working [])
              (Scenario.blank (Some Scenario.old_index)))).
Proof.
  intros (new & L & H). unfold logged_since in L.
  change (log (Scenario.blank (Some Scenario.old_index)))
    with (@nil LogRecord) in L.
  rewrite List.app_nil_r in L. vm_compute in L. subst new.
  destruct H as [H|(t & _ & H)].
  - vm_compute in H. discriminate.
  - simpl in H. intuition discriminate.
Qed.

(** *** C4 *)

(** C4 as stated fails: the disk fills up after [index.faiss] is
    written, and the valid index of the earlier build is left with new
    vectors and the old docstore. *)
Lemma save_fault_leaves_partial_index :
  ~ crash_safe (Scenario.disk_full [Scenario.agreement_pdf])
      Scenario.started.
Proof.
  intros H. destruct H as (docs & Hd).
  - exists [Scenario.old_chunk]. reflexivity.
  - vm_compute in Hd. injection Hd as Hv <-. discriminate.
Qed.

(** *** C7 *)

Lemma same_count_refl (s : State) : same_rebuild_count s s.
Proof. reflexivity. Qed.

Lemma same_count_trans (a b c : State) :
  same_rebuild_count a b -> same_rebuild_count b c ->
  same_rebuild_count a c.
Proof. unfold same_rebuild_count. congruence. Qed.

Ltac same_count_leaf :=
  try match goal with
      | |- context [match store_dir ?s with _ => _ end] =>
          destruct (store_dir s)
      end;
  reflexivity.

Ltac same_count_walk :=
  walk same_count_refl same_count_trans ltac:(assumption) same_count_leaf.

Lemma same_count_load_documents (env : Env) :
  transition same_rebuild_count (_load_documents env).
Proof.
  intros s. rewrite load_documents_run. unfold load_records.
  destruct (load_all env); reflexivity.
Qed.

Lemma same_count_initialize_qa_chain :
  transition same_rebuild_count _initialize_qa_chain.
Proof. unfold _initialize_qa_chain. same_count_walk. Qed.

(** What follows a step does not move the counter when no
    continuation does. *)
Lemma bind_count (A B : Type) (m : M A) (k : A -> M B) (s : State) :
  (forall a, transition same_rebuild_count (k a)) ->
  rebuild_count (snd (bind m k s)) = rebuild_count (snd (m s)).
Proof.
  intros H. unfold bind. destruct (m s) as [[a|e] s1]; simpl.
  - apply H.
  - reflexivity.
Qed.

(** Every entry into [_refresh_documents] is counted once. *)
Lemma refresh_documents_count (env : Env) (s : State) :
  rebuild_count (snd (_refresh_documents env s)) = S (rebuild_count s).
Proof.
  unfold _refresh_documents. rewrite bind_logger, bind_count.
  - apply (same_count_load_documents env).
  - unfold _preprocess_documents, FAISS_from_documents, mkdir,
      FAISS_save_local, write_index_faiss, write_index_pkl.
    same_count_walk.
Qed.

Lemma add_log_count (r : LogRecord) (s : State) :
  is_rebuild_start r = false ->
  rebuild_count (add_log r s) = rebuild_count s.
Proof.
  intros H. unfold rebuild_count, add_log. cbn [log filter].
  now rewrite H.
Qed.

Lemma refresh_block_count (env : Env) (msg : LogMsg) (s : State) :
  is_rebuild_start (INFO, msg) = false ->
  rebuild_count
    (snd ((logger INFO msg ;; _refresh_documents env ;;
           _initialize_qa_chain) s)) = S (rebuild_count s).
Proof.
  intros Hmsg. rewrite bind_logger, bind_count.
  - now rewrite refresh_documents_count, add_log_count.
  - intros _. apply same_count_initialize_qa_chain.
Qed.

Lemma due_iff (interval now last : Z) :
  Qle_bool (inject_Z interval) (total_seconds (now - last)) = true <->
  (interval * 1000000 <= now - last)%Z.
Proof.
  rewrite Qle_bool_iff. unfold Qle, total_seconds. simpl. lia.
Qed.

(** [_check_and_refresh], step by step. *)
Lemma check_and_refresh_run (env : Env) (s : State) :
  _check_and_refresh env s =
  match last_refresh s with
  | None => _refresh_documents env s
  | Some last =>
      if Qle_bool (inject_Z (refresh_interval s))
                  (total_seconds (env_now env (clock_reads s) - last))
      then (logger INFO IntervalReached ;; _refresh_documents env ;;
            _initialize_qa_chain)
             (set_clock_reads (S (clock_reads s)) s)
      else (Return tt, set_clock_reads (S (clock_reads s)) s)
  end.
Proof.
  unfold _check_and_refresh. unfold bind at 1. unfold get at 1.
  destruct (last_refresh s) as [last|]; [|reflexivity].
  unfold bind at 1. unfold datetime_now at 1.
  unfold bind at 1. unfold get at 1.
  change (refresh_interval (set_clock_reads (S (clock_reads s)) s))
    with (refresh_interval s).
  destruct (Qle_bool _ _); reflexivity.
Qed.

Lemma check_and_refresh_count (env : Env) (s : State) :
  (refresh_due env s /\
   rebuild_count (snd (_check_and_refresh env s)) = S (rebuild_count s)) \/
  (~ refresh_due env s /\
   rebuild_count (snd (_check_and_refresh env s)) = rebuild_count s).
Proof.
  rewrite check_and_refresh_run. unfold refresh_due.
  destruct (last_refresh s) as [last|].
  - destruct (Qle_bool _ _) eqn:Q.
    + left. split; [now apply due_iff|].
      now rewrite refresh_block_count.
    + right. split; [|reflexivity].
      intros D. apply due_iff in D. congruence.
  - left. split; [exact I | apply refresh_documents_count].
Qed.

(** *** C8 *)

Lemma untouched_refl (s : State) : index_untouched s s.
Proof. repeat split. Qed.

Lemma untouched_trans (a b c : State) :
  index_untouched a b -> index_untouched b c -> index_untouched a c.
Proof.
  unfold index_untouched. intros (? & ? & ?) (? & ? & ?).
  repeat split; congruence.
Qed.

Ltac untouched_leaf := repeat split.

Ltac untouched_walk :=
  walk untouched_refl untouched_trans ltac:(assumption) untouched_leaf.

Lemma untouched_refresh_documents (env : Env) :
  found_documents env = [] ->
  transition index_untouched (_refresh_documents env).
Proof.
  intros H s. rewrite (refresh_documents_empty env s H).
  unfold load_records. destruct (load_all env); repeat split.
Qed.

Lemma warned_refresh_documents (env : Env) (s : State) :
  found_documents env = [] ->
  warned_no_documents s (snd (_refresh_documents env s)).
Proof.
  intros H. rewrite (refresh_documents_empty env s H).
  exists ((WARNING, NoDocumentsFound)
            :: load_records env ++ [(INFO, RefreshingIndex)])%list.
  split; [|simpl; auto].
  unfold logged_since, load_records. destruct (load_all env); reflexivity.
Qed.

(** Records written before or after those of a warning leave it
    logged. *)
Lemma warned_later (a b c : State) (new : list LogRecord) :
  logged_since a b new -> warned_no_documents b c ->
  warned_no_documents a c.
Proof.
  unfold warned_no_documents, logged_since.
  intros L1 (n2 & L2 & I). exists (n2 ++ new)%list. split.
  - now rewrite L2, L1, List.app_assoc.
  - apply in_or_app. now left.
Qed.

Lemma warned_earlier (a b c : State) :
  warned_no_documents a b -> last_refresh_justified b c ->
  warned_no_documents a c.
Proof.
  unfold warned_no_documents, logged_since.
  intros (n1 & L1 & I) (n2 & L2 & _). exists (n2 ++ n1)%list. split.
  - unfold logged_since in L2. now rewrite L2, L1, List.app_assoc.
  - apply in_or_app. now right.
Qed.

(** The rebuild followed by the new QA chain, as [manual_refresh] and
    the automatic refresh run it. *)
Lemma warned_refresh_block (env : Env) (msg : LogMsg) (s : State) :
  found_documents env = [] ->
  warned_no_documents s
    (snd ((logger INFO msg ;; _refresh_documents env ;;
           _initialize_qa_chain) s)).
Proof.
  intros H. rewrite bind_logger.
  apply (warned_later _ (add_log (INFO, msg) s) _ [(INFO, msg)]);
    [reflexivity|].
  generalize (add_log (INFO, msg) s). intros s1.
  pose proof (warned_refresh_documents env s1 H) as W.
  unfold bind. destruct (_refresh_documents env s1) as [[[]|e] s2];
    simpl in *; [|exact W].
  eapply warned_earlier; [exact W | apply justified_initialize_qa_chain].
Qed.

(** C8.  Over a corpus in which no documents are found, a rebuild
    returns after logging the warning, and the in-memory index, the
    persisted index and [last_refresh] are what they were; the same
    holds when the rebuild is run by [manual_refresh], by the automatic
    refresh of [_check_and_refresh] (which warns whenever it enters the
    rebuild) and by a query. *)
Theorem empty_corpus_rebuild_is_noop
        (env : Env) (question : string) (s : State) :
  found_documents env = [] ->
  (fst (_refresh_documents env s) = Return tt /\
   index_untouched s (snd (_refresh_documents env s)) /\
   warned_no_documents s (snd (_refresh_documents env s))) /\
  (index_untouched s (snd (manual_refresh env s)) /\
   warned_no_documents s (snd (manual_refresh env s))) /\
  (index_untouched s (snd (_check_and_refresh env s)) /\
   (warned_no_documents s (snd (_check_and_refresh env s)) \/
    same_rebuild_count s (snd (_check_and_refresh env s)))) /\
  index_untouched s (snd (query env question s)).
Proof.
  intros H.
  pose proof (untouched_refresh_documents env H) as U.
  assert (UC : transition index_untouched (_check_and_refresh env))
    by (unfold _check_and_refresh, _initialize_qa_chain; untouched_walk).
  assert (UM : transition index_untouched (manual_refresh env))
    by (unfold manual_refresh, _initialize_qa_chain; untouched_walk).
  assert (UQ : transition index_untouched (query env question))
    by (unfold query, call_chain; untouched_walk).
  split; [|split; [|split]].
  - split; [now rewrite (refresh_documents_empty env s H)|].
    split; [apply U | now apply warned_refresh_documents].
  - split; [apply UM | now apply warned_refresh_block].
  - split; [apply UC|].
    rewrite check_and_refresh_run.
    destruct (last_refresh s) as [last|].
    + destruct (Qle_bool _ _).
      * left.
        apply (warned_later _ (set_clock_reads (S (clock_reads s)) s) _ []);
          [reflexivity | now apply warned_refresh_block].
      * right. reflexivity.
    + left. now apply warned_refresh_documents.
  - apply UQ.
Qed.

Lemma empty_corpus_rebuild_witness :
  (fst (_refresh_documents (Scenario.working []) Scenario.started)
   = Return tt /\
   index_untouched Scenario.started
     (snd (_refresh_documents (Scenario.working []) Scenario.started)) /\
   warned_no_documents Scenario.started
     (snd (_refresh_documents (Scenario.working []) Scenario.started))) /\
  (index_untouched Scenario.started
     (snd (manual_refresh (Scenario.working []) Scenario.started)) /\
   warned_no_documents Scenario.started
     (snd (manual_refresh (Scenario.working []) Scenario.started))) /\
  (index_untouched Scenario.started
     (snd (_check_and_refresh (Scenario.working []) Scenario.started)) /\
   (warned_no_documents Scenario.started
      (snd (_check_and_refresh (Scenario.working []) Scenario.started)) \/
    same_rebuild_count Scenario.started
      (snd (_check_and_refresh (Scenario.working []) Scenario.started)))) /\
  index_untouched Scenario.started
    (snd (query (Scenario.working []) "Which covenants apply?"
            Scenario.started)).
Proof.
  apply (empty_corpus_rebuild_is_noop (Scenario.working [])
           "Which covenants apply?" Scenario.started).
  reflexivity.
Defined.

(** *** C10 *)

(** C10.  Creating the QA chain needs an index: [_initialize_qa_chain]
    returns exactly when [vector_store] is set.  So [manual_refresh] on
    an object that holds no index, over a corpus in which no documents
    are found, raises the [AttributeError] of the access to [None]
    rather than returning. *)
Theorem manual_refresh_without_index_raises (env : Env) (s : State) :
  vector_store s = None ->
  found_documents env = [] ->
  fst (manual_refresh env s) =
  Raise (AttributeError "'NoneType' object has no attribute 'as_retriever'")
  /\
  forall s0,
    returns (fst (_initialize_qa_chain s0)) =
    match vector_store s0 with
    | Some _ => true
    | None => false
    end.
Proof.
  intros Hv Hd. split.
  - unfold manual_refresh. rewrite bind_logger. unfold bind at 1.
    rewrite (refresh_documents_empty env _ Hd).
    unfold _initialize_qa_chain, bind, get, load_records.
    destruct (load_all env); simpl; now rewrite Hv.
  - intros s0. unfold _initialize_qa_chain, bind, get.
    destruct (vector_store s0); reflexivity.
Qed.

Lemma manual_refresh_without_index_witness :
  fst (manual_refresh (Scenario.working []) Scenario.without_index) =
  Raise (AttributeError "'NoneType' object has no attribute 'as_retriever'")
  /\
  forall s0,
    returns (fst (_initialize_qa_chain s0)) =
    match vector_store s0 with
    | Some _ => true
    | None => false
    end.
Proof.
  apply manual_refresh_without_index_raises; reflexivity.
Defined.

(** The constructor meets the same precondition: with no persisted
    index and no documents it raises, so no object without an index
    comes out of it. *)
Lemma init_without_documents_raises :
  fst (__init__ (Scenario.working []) "sentence-transformers/all-MiniLM-L6-v2"
                3600 (Scenario.blank None)) =
  Raise (AttributeError "'NoneType' object has no attribute 'as_retriever'").
Proof. reflexivity. Qed.

(** *** C1 *)

(** Once the staleness check has returned, [query] returns: a failure
    of the retrieval or of the answer generation is turned into a
    response that carries the error and has no sources. *)
Lemma query_degrades_after_check
      (env : Env) (question : string) (s : State) :
  returns (fst (_check_and_refresh env s)) = true ->
  exists response,
    fst (query env question s) = Return response /\
    (sources response = [] \/
     exists c docs text,
       env_search env (chain_store c) question = Return docs /\
       env_generate env question docs = Return text /\
       answer response = text /\
       sources response = map citation docs).
Proof.
  unfold query. unfold bind at 1.
  destruct (_check_and_refresh env s) as [[[]|e] s1]; simpl;
    [intros _ | discriminate].
  rewrite bind_logger. unfold call_chain.
  unfold try_except, bind, get, lift, datetime_now, logger, modify, ret,
    raise.
  cbn -[append]. destruct (qa_chain s1) as [c|]; cbn -[append].
  - destruct (env_search env (chain_store c) question) as [docs|e] eqn:Hs;
      cbn -[append].
    + destruct (env_generate env question docs) as [text|e] eqn:Hg;
        cbn -[append].
      * eexists. split; [reflexivity|]. right. exists c, docs, text. auto.
      * eexists. split; [reflexivity|]. now left.
    + eexists. split; [reflexivity|]. now left.
  - eexists. split; [reflexivity|]. now left.
Qed.

(** An exception of the staleness check or of the rebuild it runs
    leaves [query]: the check is made before the [try]. *)
Lemma query_propagates_check_failure
      (env : Env) (question : string) (s : State) (e : PyExc) :
  fst (_check_and_refresh env s) = Raise e ->
  fst (query env question s) = Raise e.
Proof.
  unfold query. unfold bind at 1.
  destruct (_check_and_refresh env s) as [[[]|e'] s1]; simpl; intros H;
    [discriminate H | now injection H as ->].
Qed.

(** C1, at the failing input.  The object has loaded a persisted
    index; an hour later a query finds the index stale, the rebuild
    finds one document, and the embedding service is down: the
    exception of the rebuild leaves [query]. *)
Theorem query_raises_when_rebuild_fails :
  fst (query (Scenario.embedding_down [Scenario.agreement_pdf])
             "What is the leverage ratio covenant?" Scenario.started) =
  Raise (ExternalError "embedding service unavailable").
Proof. vm_compute. reflexivity. Qed.

(** *** Chunks *)

(** [_preprocess_documents] passes the pieces of the splitter on as
    they are: the texts of the chunks of a document are the pieces of
    its text, in order. *)
Lemma enumerate_chunks_content (i total : nat) (chunks : list Document) :
  map page_content (enumerate_chunks i total chunks) =
  map page_content chunks.
Proof.
  revert i; induction chunks as [|c chunks IH]; intros i; simpl;
    [reflexivity | now rewrite IH].
Qed.

Lemma process_document_content (env : Env) (doc : Document) :
  map page_content (process_document env doc) =
  env_split_text env text_splitter (page_content doc).
Proof.
  unfold process_document, split_documents.
  rewrite enumerate_chunks_content, map_map. simpl. apply map_id.
Qed.

End ChatbotFacts.


(* ================================================================== *)
(** ** More about the methods *)

Module MoreChatbotFacts.
Import Chatbot ChatbotSpec MoreSpec ChatbotFacts.
Local Open Scope py_scope.

(** *** Running a method step by step *)

Lemma wp_ret (A : Type) (a : A) s Q E : wp (ret a) s Q E = Q a s.
Proof. reflexivity. Qed.

Lemma wp_raise (A : Type) (e : PyExc) s (Q : A -> State -> Prop) E :
  wp (raise e) s Q E = E e s.
Proof. reflexivity. Qed.

Lemma wp_get (A : Type) (f : State -> A) s Q E : wp (get f) s Q E = Q (f s) s.
Proof. reflexivity. Qed.

Lemma wp_modify (f : State -> State) s Q E :
  wp (modify f) s Q E = Q tt (f s).
Proof. reflexivity. Qed.

Lemma wp_logger (lvl : Level) (msg : LogMsg) s Q E :
  wp (logger lvl msg) s Q E = Q tt (add_log (lvl, msg) s).
Proof. reflexivity. Qed.

Lemma wp_now (env : Env) s Q E :
  wp (datetime_now env) s Q E =
  Q (env_now env (clock_reads s)) (set_clock_reads (S (clock_reads s)) s).
Proof. reflexivity. Qed.

Lemma wp_lift (A : Type) (o : outcome A) s Q E :
  wp (lift o) s Q E =
  match o with
  | Return a => Q a s
  | Raise e => E e s
  end.
Proof. unfold wp, lift. now destruct o. Qed.

Lemma wp_bind (A B : Type) (m : M A) (k : A -> M B) s Q E :
  wp (bind m k) s Q E = wp m s (fun a s' => wp (k a) s' Q E) E.
Proof. unfold wp, bind. now destruct (m s) as [[a|e] s']. Qed.

Lemma wp_try (A : Type) (m : M A) (h : PyExc -> M A) s Q E :
  wp (try_except m h) s Q E = wp m s Q (fun e s' => wp (h e) s' Q E).
Proof. unfold wp, try_except. now destruct (m s) as [[a|e] s']. Qed.

Lemma wp_weaken (A : Type) (m : M A) s
      (Q Q' : A -> State -> Prop) (E E' : PyExc -> State -> Prop) :
  wp m s Q E ->
  (forall a s', Q a s' -> Q' a s') -> (forall e s', E e s' -> E' e s') ->
  wp m s Q' E'.
Proof. unfold wp. destruct (m s) as [[a|e] s']; auto. Qed.

Lemma wp_returned (A : Type) (m : M A) s Q E (a : A) :
  wp m s Q E -> fst (m s) = Return a -> Q a (snd (m s)).
Proof.
  unfold wp. destruct (m s) as [[a'|e] s']; simpl; intros H R;
    [now injection R as <- | discriminate].
Qed.

Lemma wp_raised (A : Type) (m : M A) s (Q : A -> State -> Prop) E
      (e : PyExc) :
  wp m s Q E -> fst (m s) = Raise e -> E e (snd (m s)).
Proof.
  unfold wp. destruct (m s) as [[a'|e'] s']; simpl; intros H R;
    [discriminate | now injection R as <-].
Qed.

(** Runs the steps at the head of a method. *)
Ltac wp_steps :=
  repeat first
    [ rewrite wp_bind | rewrite wp_try | rewrite wp_logger
    | rewrite wp_modify | rewrite wp_get | rewrite wp_now
    | rewrite wp_ret | rewrite wp_raise | rewrite wp_lift
    | progress cbv beta ].

Lemma wp_initialize_qa_chain s Q E :
  wp _initialize_qa_chain s Q E =
  match vector_store s with
  | None =>
      E (AttributeError "'NoneType' object has no attribute 'as_retriever'") s
  | Some vs =>
      Q tt (add_log (INFO, ChainInitialized)
              (set_qa_chain (Some (mkQAChain vs)) s))
  end.
Proof.
  unfold _initialize_qa_chain. wp_steps. now destruct (vector_store s).
Qed.

(** *** The rebuild *)

Lemma refresh_documents_cases (env : Env) (s : State) :
  (fst (_refresh_documents env s) = Return tt /\
   rebuild_returned env s (snd (_refresh_documents env s))) \/
  ((exists e, fst (_refresh_documents env s) = Raise e) /\
   rebuild_raised env s (snd (_refresh_documents env s))).
Proof.
  unfold rebuild_returned, rebuild_raised, built_store, chunks_of.
  open_refresh env.
  - left. split; [reflexivity|]. split; [reflexivity|].
    split; [reflexivity|]. left. repeat split.
  - run_build env s.
    all: try (right; split; [eexists; reflexivity|];
              split; [discriminate|]; split; [reflexivity|];
              split; [reflexivity|]; split; [reflexivity|];
              split; [reflexivity|];
              first [left; reflexivity | right; reflexivity]).
    all: left; split; [reflexivity|]; split; [reflexivity|];
      split; [reflexivity|]; right;
      split; [discriminate|]; repeat split.
  - left. split; [reflexivity|]. split; [reflexivity|].
    split; [reflexivity|]. left. repeat split.
Qed.

Lemma wp_refresh_documents (env : Env) (s : State) :
  wp (_refresh_documents env) s
     (fun _ s' => rebuild_returned env s s')
     (fun _ s' => rebuild_raised env s s').
Proof.
  unfold wp. destruct (refresh_documents_cases env s) as [[R H]|[[e R] H]];
    destruct (_refresh_documents env s) as [[[]|e'] s']; simpl in *;
    try discriminate; exact H.
Qed.

(** The rebuild followed by the new chain. *)
Lemma wp_rebuild_and_chain (env : Env) (s : State) :
  wp (_refresh_documents env ;; _initialize_qa_chain) s
     (fun _ s' => refresh_returned env s s')
     (fun _ s' => chain_kept s s').
Proof.
  rewrite wp_bind. eapply wp_weaken; [apply wp_refresh_documents| |].
  - intros [] s' (I & C & [(F & L & V & D & K)|(F & L & V & P & K)]);
      rewrite wp_initialize_qa_chain, V.
    + destruct (vector_store s) as [vs|] eqn:Hv.
      * left. simpl. repeat split; auto. exists vs. auto.
      * repeat split; auto.
    + right. simpl. repeat split; auto.
  - intros e s' (F & I & L & C & K & V). repeat split; auto.
Qed.

(** *** The constructor *)

Lemma init_run (env : Env) (model : string) (interval : Z) (s : State) :
  __init__ env model interval s =
  _initialize_vector_store env
    (mkState interval None None None (store_dir s) (clock_reads s)
       ((INFO, LoadingEmbeddingModel model) :: log s)).
Proof. reflexivity. Qed.

Lemma wp_load_local (env : Env) (s : State) Q E :
  wp (FAISS_load_local env) s Q E =
  match store_dir s with
  | Some (mkStoreDir (Some idx) (Some docs)) =>
      match env_load_fault env with
      | Some e => E e s
      | None => Q (mkVectorStore idx docs) s
      end
  | _ => E (ExternalError "could not open index file for reading") s
  end.
Proof.
  unfold FAISS_load_local. wp_steps.
  destruct (store_dir s) as [[[idx|] [docs|]]|]; try reflexivity.
  now destruct (env_load_fault env).
Qed.

Lemma ready_after_rebuild (env : Env) (s s' : State) :
  vector_store s = None -> refresh_returned env s s' -> ready s'.
Proof.
  intros Hv [(_ & _ & _ & vs & V & _)|(_ & L & V & C & _)].
  - congruence.
  - now exists (built_store env), (env_now env (clock_reads s)).
Qed.

Lemma wp_initialize_vector_store_blank (env : Env) (s : State) :
  vector_store s = None ->
  wp (_initialize_vector_store env) s
     (fun _ s' => ready s' /\ refresh_interval s' = refresh_interval s)
     (fun _ _ => True).
Proof.
  intros Hv. unfold _initialize_vector_store. wp_steps.
  assert (Rebuild : forall s1,
    vector_store s1 = None -> refresh_interval s1 = refresh_interval s ->
    wp (_refresh_documents env) s1
       (fun _ s' =>
          wp _initialize_qa_chain s'
             (fun _ s'' =>
                ready s'' /\ refresh_interval s'' = refresh_interval s)
             (fun _ _ => True))
       (fun _ _ => True)).
  { intros s1 Hv1 Hi.
    eapply wp_weaken; [apply wp_refresh_documents| |auto].
    intros [] s' (I & C & [(F & L & V & D & K)|(F & L & V & P & K)]);
      rewrite wp_initialize_qa_chain, V.
    - now rewrite Hv1.
    - simpl. split; [|congruence].
      now exists (built_store env), (env_now env (clock_reads s1)). }
  destruct (index_file_exists s).
  - wp_steps. rewrite wp_load_local.
    change (store_dir (add_log (INFO, LoadingExistingStore) s))
      with (store_dir s).
    destruct (store_dir s) as [[[idx|] [docs|]]|];
      [destruct (env_load_fault env) as [fault|]| | | |];
      wp_steps; try (apply Rebuild; [exact Hv | reflexivity]).
    rewrite wp_initialize_qa_chain. simpl. split; [|reflexivity].
    eexists _, _. simpl. eauto.
  - wp_steps. apply Rebuild; [exact Hv | reflexivity].
Qed.

(** X1.  When the constructor returns, the object holds an index, a QA
    chain created over that very index and a time of last refresh, and
    its refresh interval is the one asked for: no object comes out of
    [__init__] without an index. *)
Theorem init_returns_ready
        (env : Env) (model : string) (interval : Z) (s : State) :
  fst (__init__ env model interval s) = Return tt ->
  ready (snd (__init__ env model interval s)) /\
  refresh_interval (snd (__init__ env model interval s)) = interval.
Proof.
  rewrite init_run. intros R.
  exact (wp_returned _ _ _ _ _ tt
           (wp_initialize_vector_store_blank env
              (mkState interval None None None (store_dir s) (clock_reads s)
                 ((INFO, LoadingEmbeddingModel model) :: log s)) eq_refl) R).
Qed.

Lemma init_returns_ready_witness :
  ready (snd (__init__ (Scenario.working [Scenario.agreement_pdf])
                       "sentence-transformers/all-MiniLM-L6-v2" 3600
                       (Scenario.blank None))) /\
  refresh_interval
    (snd (__init__ (Scenario.working [Scenario.agreement_pdf])
                   "sentence-transformers/all-MiniLM-L6-v2" 3600
                   (Scenario.blank None))) = 3600%Z.
Proof. apply init_returns_ready. reflexivity. Defined.

(** *** What is set stays set *)

Lemma stays_set_refl (s : State) : stays_set s s.
Proof. unfold stays_set. auto. Qed.

Lemma stays_set_trans (a b c : State) :
  stays_set a b -> stays_set b c -> stays_set a c.
Proof.
  unfold stays_set. intros (? & ? & ? & ?) (? & ? & ? & ?).
  repeat split; auto; congruence.
Qed.

Ltac stays_set_leaf :=
  try match goal with
      | |- context [match store_dir ?s with _ => _ end] =>
          destruct (store_dir s)
      end;
  unfold stays_set; simpl; repeat split; auto; discriminate.

Ltac stays_set_walk :=
  walk stays_set_refl stays_set_trans ltac:(assumption) stays_set_leaf.

Lemma stays_set_load_documents (env : Env) :
  transition stays_set (_load_documents env).
Proof. unfold _load_documents, DirectoryLoader_load. stays_set_walk. Qed.

Lemma stays_set_refresh_documents (env : Env) :
  transition stays_set (_refresh_documents env).
Proof.
  pose proof (stays_set_load_documents env).
  unfold _refresh_documents, _preprocess_documents, FAISS_from_documents,
    mkdir, FAISS_save_local, write_index_faiss, write_index_pkl.
  stays_set_walk.
Qed.

Lemma stays_set_initialize_qa_chain :
  transition stays_set _initialize_qa_chain.
Proof. unfold _initialize_qa_chain. stays_set_walk. Qed.

Lemma stays_set_check_and_refresh (env : Env) :
  transition stays_set (_check_and_refresh env).
Proof.
  pose proof (stays_set_refresh_documents env).
  pose proof stays_set_initialize_qa_chain.
  unfold _check_and_refresh. stays_set_walk.
Qed.

(** X2.  No method unsets what the object holds: whatever method runs
    and however it ends, an index, a QA chain and a time of last
    refresh that were set are still set afterwards, and the refresh
    interval is the same.  (Only the constructor starts from nothing.) *)
Theorem methods_keep_what_is_set (env : Env) (c : Call) (s : State) :
  stays_set s (state_after env c s).
Proof.
  pose proof (stays_set_refresh_documents env).
  pose proof stays_set_initialize_qa_chain.
  pose proof (stays_set_check_and_refresh env).
  destruct c; simpl.
  - revert s.
    change (transition stays_set (_initialize_vector_store env)).
    unfold _initialize_vector_store, FAISS_load_local. stays_set_walk.
  - apply stays_set_load_documents.
  - revert s.
    change (transition stays_set (_preprocess_documents env documents)).
    unfold _preprocess_documents. stays_set_walk.
  - apply stays_set_refresh_documents.
  - apply stays_set_check_and_refresh.
  - apply stays_set_initialize_qa_chain.
  - revert s. change (transition stays_set (query env question)).
    unfold query, call_chain. stays_set_walk.
  - revert s. change (transition stays_set (manual_refresh env)).
    unfold manual_refresh. stays_set_walk.
Qed.

(** *** Manual refresh *)

Lemma wp_manual_refresh (env : Env) (s : State) :
  wp (manual_refresh env) s
     (fun _ s' => refresh_returned env s s')
     (fun _ s' => chain_kept s s').
Proof.
  unfold manual_refresh. rewrite wp_bind, wp_logger. cbv beta.
  eapply wp_weaken; [apply wp_rebuild_and_chain| |]; auto.
Qed.

(** X3.  A manual refresh that returns over a corpus with documents
    leaves the object consistent: the in-memory index is the one built
    from the chunks of the documents found, the QA chain is created
    over it, both files of the persisted index hold it, and
    [last_refresh] is the clock reading taken at the end of the
    build. *)
Theorem manual_refresh_installs_new_index (env : Env) (s : State) :
  found_documents env <> [] ->
  fst (manual_refresh env s) = Return tt ->
  vector_store (snd (manual_refresh env s)) = Some (built_store env) /\
  qa_chain (snd (manual_refresh env s))
  = Some (mkQAChain (built_store env)) /\
  persisted_files (snd (manual_refresh env s))
  = (Some (vs_index (built_store env)),
     Some (vs_docstore (built_store env))) /\
  last_refresh (snd (manual_refresh env s))
  = Some (env_now env (clock_reads s)).
Proof.
  intros F R.
  destruct (wp_returned _ _ _ _ _ tt (wp_manual_refresh env s) R)
    as [(F' & _)|(_ & L & V & C & P)]; [contradiction | auto].
Qed.

Lemma manual_refresh_installs_witness :
  vector_store
    (snd (manual_refresh (Scenario.working [Scenario.agreement_pdf])
            Scenario.started))
  = Some (built_store (Scenario.working [Scenario.agreement_pdf])) /\
  qa_chain
    (snd (manual_refresh (Scenario.working [Scenario.agreement_pdf])
            Scenario.started))
  = Some (mkQAChain (built_store (Scenario.working [Scenario.agreement_pdf])))
  /\
  persisted_files
    (snd (manual_refresh (Scenario.working [Scenario.agreement_pdf])
            Scenario.started))
  = (Some (vs_index (built_store (Scenario.working [Scenario.agreement_pdf]))),
     Some (vs_docstore
             (built_store (Scenario.working [Scenario.agreement_pdf])))) /\
  last_refresh
    (snd (manual_refresh (Scenario.working [Scenario.agreement_pdf])
            Scenario.started))
  = Some (env_now (Scenario.working [Scenario.agreement_pdf])
            (clock_reads Scenario.started)).
Proof.
  apply manual_refresh_installs_new_index.
  - vm_compute. discriminate.
  - reflexivity.
Defined.

(** X4.  A manual refresh that raises leaves the QA chain, the time of
    last refresh and the interval as they were -- also when the build
    had already replaced the in-memory index, so that the chain then
    still answers from the index it was created over. *)
Theorem manual_refresh_failure_keeps_chain
        (env : Env) (s : State) (e : PyExc) :
  fst (manual_refresh env s) = Raise e ->
  chain_kept s (snd (manual_refresh env s)).
Proof.
  intros R. exact (wp_raised _ _ _ _ _ e (wp_manual_refresh env s) R).
Qed.

Lemma manual_refresh_failure_witness :
  chain_kept Scenario.started
    (snd (manual_refresh (Scenario.disk_full [Scenario.agreement_pdf])
            Scenario.started)).
Proof.
  apply (manual_refresh_failure_keeps_chain
           (Scenario.disk_full [Scenario.agreement_pdf]) Scenario.started
           (ExternalError "No space left on device")).
  reflexivity.
Defined.

(** *** The staleness check *)

Lemma wp_check_and_refresh (env : Env) (s : State) :
  wp (_check_and_refresh env) s
     (fun _ s' =>
        (~ refresh_due env s /\
         s' = set_clock_reads (S (clock_reads s)) s) \/
        (refresh_due env s /\ stays_set s s'))
     (fun _ s' => refresh_due env s /\ chain_kept s s').
Proof.
  unfold wp. rewrite check_and_refresh_run. unfold refresh_due.
  destruct (last_refresh s) as [last|] eqn:L.
  - destruct (Qle_bool _ _) eqn:Q.
    + apply due_iff in Q.
      pose proof (wp_rebuild_and_chain env
                    (add_log (INFO, IntervalReached)
                       (set_clock_reads (S (clock_reads s)) s))) as W.
      pose proof (stays_set_refresh_documents env) as T1.
      pose proof stays_set_initialize_qa_chain as T2.
      assert (T : transition stays_set
                    (logger INFO IntervalReached ;; _refresh_documents env ;;
                     _initialize_qa_chain)) by stays_set_walk.
      specialize (T (set_clock_reads (S (clock_reads s)) s)).
      rewrite bind_logger in *. unfold wp in W.
      destruct ((_refresh_documents env ;; _initialize_qa_chain)
                  (add_log (INFO, IntervalReached)
                     (set_clock_reads (S (clock_reads s)) s)))
        as [[[]|e] s'].
      * right. split; [exact Q|]. exact T.
      * split; [exact Q|]. exact W.
    + left. split; [|reflexivity].
      intros D. apply due_iff in D. congruence.
  - pose proof (wp_refresh_documents env s) as W.
    pose proof (stays_set_refresh_documents env s) as T.
    unfold wp in W.
    destruct (_refresh_documents env s) as [[[]|e] s'].
    + right. split; [exact I | exact T].
    + split; [exact I|]. destruct W as (_ & Hi & Hl & Hc & _).
      repeat split; auto.
Qed.

(** *** Queries *)

Lemma length_take (n : nat) (s : string) : length (PyStr.take n s) <= n.
Proof.
  revert s; induction n as [|n IH]; intros [|c s]; simpl; auto with arith.
Qed.

Lemma citation_bounded (d : Document) : preview_bounded (citation d).
Proof.
  unfold preview_bounded.
  change (content_preview (citation d))
    with (PyStr.take 200 (page_content d) ++ "...").
  rewrite RegexFacts.str_length_app.
  pose proof (length_take 200 (page_content d)) as H.
  change (length "...") with 3.
  apply Nat.le_trans with (200 + 3); [|apply Nat.le_refl].
  apply Nat.add_le_mono_r. exact H.
Qed.

(** What follows the staleness check in [query]. *)
Lemma wp_query (env : Env) (question : string) (s : State) :
  wp (query env question) s
     (fun response s' =>
        exists s1,
          _check_and_refresh env s = (Return tt, s1) /\
          response
          = response_of question (chain_result env question s1)
              (env_now env (clock_reads s1)) /\
          object_untouched s1 s' /\
          clock_reads s' = S (clock_reads s1))
     (fun e s' => _check_and_refresh env s = (Raise e, s')).
Proof.
  unfold query. rewrite wp_bind. unfold wp at 1.
  destruct (_check_and_refresh env s) as [[[]|e] s1]; [|reflexivity].
  rewrite wp_bind, wp_logger. cbv beta. rewrite wp_try, wp_bind, wp_get.
  cbv beta.
  change (qa_chain (add_log (INFO, ProcessingQuery question) s1))
    with (qa_chain s1).
  assert (Done : forall result,
            chain_result env question s1 = result ->
            exists s0,
              (Return tt, s1) = (Return tt, s0) /\
              response_of question result (env_now env (clock_reads s1))
              = response_of question (chain_result env question s0)
                  (env_now env (clock_reads s0)) /\
              object_untouched s0
                (set_clock_reads (S (clock_reads s1))
                   (add_log (INFO, ProcessingQuery question) s1)) /\
              S (clock_reads s1) = S (clock_reads s0)).
  { intros result <-. exists s1. repeat split. }
  unfold chain_result in Done.
  destruct (qa_chain s1) as [c|].
  - unfold call_chain. rewrite !wp_bind, wp_lift.
    destruct (env_search env (chain_store c) question) as [docs|e].
    + rewrite wp_bind, wp_lift.
      destruct (env_generate env question docs) as [text|e]; wp_steps.
      * exact (Done _ eq_refl).
      * destruct (Done _ eq_refl) as (s0 & E0 & R0 & U0 & K0).
        exists s0. repeat split; auto; apply U0.
    + wp_steps. destruct (Done _ eq_refl) as (s0 & E0 & R0 & U0 & K0).
      exists s0. repeat split; auto; apply U0.
  - wp_steps. destruct (Done _ eq_refl) as (s0 & E0 & R0 & U0 & K0).
    exists s0. repeat split; auto; apply U0.
Qed.

(** X5.  Once the staleness check has returned, [query] returns a
    response whatever the chain does.  When retrieval and generation
    succeed, the answer is the generated text and there is one source
    per retrieved chunk, in retrieval order; when either raises, or
    when no chain exists, the answer is the fixed apology followed by
    the text of the exception, and there are no sources.  The timestamp
    is the clock reading taken after the chain was called. *)
Theorem query_response_after_check
        (env : Env) (question : string) (s : State) :
  fst (_check_and_refresh env s) = Return tt ->
  fst (query env question s)
  = Return
      (response_of question
         (chain_result env question (snd (_check_and_refresh env s)))
         (env_now env (clock_reads (snd (_check_and_refresh env s))))).
Proof.
  intros R. pose proof (wp_query env question s) as W. unfold wp in W.
  destruct (query env question s) as [[response|e] s'].
  - destruct W as (s1 & C & -> & _). now rewrite C.
  - rewrite W in R. discriminate.
Qed.

Lemma query_response_witness :
  fst (query (Scenario.working [Scenario.agreement_pdf])
             "What is the leverage ratio covenant?" Scenario.started)
  = Return
      (response_of "What is the leverage ratio covenant?"
         (chain_result (Scenario.working [Scenario.agreement_pdf])
            "What is the leverage ratio covenant?"
            (snd (_check_and_refresh
                    (Scenario.working [Scenario.agreement_pdf])
                    Scenario.started)))
         (env_now (Scenario.working [Scenario.agreement_pdf])
            (clock_reads
               (snd (_check_and_refresh
                       (Scenario.working [Scenario.agreement_pdf])
                       Scenario.started))))).
Proof. apply query_response_after_check. reflexivity. Defined.

(** X6.  Every source of a response that [query] returns has a
    preview of at most 203 characters: the first 200 characters of the
    chunk and three dots, which are appended to short chunks too. *)
Theorem query_previews_bounded
        (env : Env) (question : string) (s : State) (response : Response) :
  fst (query env question s) = Return response ->
  Forall preview_bounded (sources response).
Proof.
  intros R. pose proof (wp_query env question s) as W. unfold wp in W.
  destruct (query env question s) as [[r|e] s']; [|discriminate].
  injection R as ->. destruct W as (s1 & _ & -> & _).
  unfold response_of.
  destruct (chain_result env question s1) as [[text docs]|e]; simpl.
  - apply Forall_forall. intros c Hc. apply in_map_iff in Hc.
    destruct Hc as (d & <- & _). apply citation_bounded.
  - constructor.
Qed.

Lemma query_previews_witness :
  Forall preview_bounded
    (sources
       (mkResponse "I can confirm..."
          (map citation
             (firstn 6
                (vs_docstore
                   (built_store (Scenario.working [Scenario.agreement_pdf])))))
          10800000000)).
Proof.
  apply (query_previews_bounded
           (Scenario.working [Scenario.agreement_pdf])
           "What is the leverage ratio covenant?" Scenario.started).
  reflexivity.
Defined.

(** X7.  A query that is not due for a refresh never raises and
    changes nothing of the object or of the disk: the interval, the
    time of last refresh, the index, the chain and the persisted
    directory are what they were, the clock has been read twice, and
    the response is built from the chain the object already had. *)
Theorem query_not_due_reads_only
        (env : Env) (question : string) (s : State) :
  ~ refresh_due env s ->
  fst (query env question s)
  = Return
      (response_of question (chain_result env question s)
         (env_now env (S (clock_reads s)))) /\
  object_untouched s (snd (query env question s)) /\
  clock_reads (snd (query env question s)) = S (S (clock_reads s)).
Proof.
  intros N. pose proof (wp_query env question s) as W.
  pose proof (wp_check_and_refresh env s) as C. unfold wp in W, C.
  destruct (_check_and_refresh env s) as [[[]|e] s1].
  - destruct C as [(_ & ->)|(D & _)]; [|contradiction].
    destruct (query env question s) as [[r|e] s']; [|discriminate].
    destruct W as (s1 & E & -> & U & K). injection E as <-.
    auto.
  - destruct C as (D & _). contradiction.
Qed.

Lemma query_not_due_witness :
  fst (query (MoreScenario.working_by_seconds []) "Which covenants apply?"
             Scenario.started)
  = Return
      (response_of "Which covenants apply?"
         (chain_result (MoreScenario.working_by_seconds [])
            "Which covenants apply?" Scenario.started)
         (env_now (MoreScenario.working_by_seconds [])
            (S (clock_reads Scenario.started)))) /\
  object_untouched Scenario.started
    (snd (query (MoreScenario.working_by_seconds [])
            "Which covenants apply?" Scenario.started)) /\
  clock_reads
    (snd (query (MoreScenario.working_by_seconds [])
            "Which covenants apply?" Scenario.started))
  = S (S (clock_reads Scenario.started)).
Proof.
  apply query_not_due_reads_only.
  unfold refresh_due. vm_compute. intros H. apply H. reflexivity.
Defined.

(** *** Retrying *)

Lemma query_count_when_due (env : Env) (question : string) (s : State) :
  refresh_due env s ->
  rebuild_count (snd (query env question s)) = S (rebuild_count s).
Proof.
  intros D. unfold query. rewrite bind_count.
  - destruct (check_and_refresh_count env s) as [(_ & H)|(N & _)];
      [exact H | contradiction].
  - unfold call_chain. same_count_walk.
Qed.

(** X8.  A query that raises was due for a refresh and leaves the QA
    chain, the time of last refresh and the interval as they were; so
    the failed rebuild is retried: any later query whose clock reading
    is not earlier than the one of the failed query enters the rebuild
    again. *)
Theorem failed_query_is_retried
        (env env' : Env) (question question' : string) (s : State)
        (e : PyExc) :
  fst (query env question s) = Raise e ->
  (env_now env (clock_reads s)
   <= env_now env' (clock_reads (snd (query env question s))))%Z ->
  chain_kept s (snd (query env question s)) /\
  rebuild_count
    (snd (query env' question' (snd (query env question s))))
  = S (rebuild_count (snd (query env question s))).
Proof.
  intros R Clock. pose proof (wp_query env question s) as W.
  pose proof (wp_check_and_refresh env s) as C. unfold wp in W, C.
  destruct (query env question s) as [[r|e'] s']; [discriminate|].
  simpl in *. rewrite W in C. destruct C as (D & K). split; [exact K|].
  apply query_count_when_due. destruct K as (_ & L & Hi).
  unfold refresh_due in *. rewrite L, Hi.
  destruct (last_refresh s); [lia | exact Logic.I].
Qed.

Lemma failed_query_witness :
  chain_kept Scenario.started
    (snd (query (Scenario.embedding_down [Scenario.agreement_pdf])
            "What is the leverage ratio covenant?" Scenario.started)) /\
  rebuild_count
    (snd (query (Scenario.working [Scenario.agreement_pdf])
            "What is the leverage ratio covenant?"
            (snd (query (Scenario.embedding_down [Scenario.agreement_pdf])
                    "What is the leverage ratio covenant?"
                    Scenario.started))))
  = S (rebuild_count
         (snd (query (Scenario.embedding_down [Scenario.agreement_pdf])
                 "What is the leverage ratio covenant?" Scenario.started))).
Proof.
  apply (failed_query_is_retried
           (Scenario.embedding_down [Scenario.agreement_pdf])
           (Scenario.working [Scenario.agreement_pdf])
           "What is the leverage ratio covenant?"
           "What is the leverage ratio covenant?" Scenario.started
           (ExternalError "embedding service unavailable")).
  - reflexivity.
  - vm_compute. discriminate.
Defined.

(** X9.  After a manual refresh that returned over a corpus with
    documents, a query whose clock reading is less than
    [refresh_interval] seconds after the reading of that refresh does
    not rebuild. *)
Theorem query_after_refresh_waits
        (env env' : Env) (question : string) (s : State) :
  found_documents env <> [] ->
  fst (manual_refresh env s) = Return tt ->
  (env_now env' (clock_reads (snd (manual_refresh env s)))
   - env_now env (clock_reads s) < refresh_interval s * 1000000)%Z ->
  rebuild_count
    (snd (query env' question (snd (manual_refresh env s))))
  = rebuild_count (snd (manual_refresh env s)).
Proof.
  intros F R Soon.
  pose proof (wp_manual_refresh env s) as W.
  pose proof (stays_set_refresh_documents env) as T1.
  pose proof stays_set_initialize_qa_chain as T2.
  assert (T : transition stays_set (manual_refresh env))
    by (unfold manual_refresh; stays_set_walk).
  specialize (T s). unfold wp in W.
  destruct (manual_refresh env s) as [[[]|e] s']; [|discriminate].
  simpl in *. destruct W as [(F' & _)|(_ & L & _)]; [contradiction|].
  destruct T as (_ & _ & _ & Hi).
  unfold query. rewrite bind_count.
  - destruct (check_and_refresh_count env' s') as [(D & _)|(_ & H)];
      [|exact H].
    unfold refresh_due in D. rewrite L, Hi in D. lia.
  - unfold call_chain. same_count_walk.
Qed.

Lemma query_after_refresh_witness :
  rebuild_count
    (snd (query (MoreScenario.working_by_seconds [])
            "Which covenants apply?"
            (snd (manual_refresh
                    (MoreScenario.working_by_seconds [Scenario.agreement_pdf])
                    Scenario.started))))
  = rebuild_count
      (snd (manual_refresh
              (MoreScenario.working_by_seconds [Scenario.agreement_pdf])
              Scenario.started)).
Proof.
  apply (query_after_refresh_waits
           (MoreScenario.working_by_seconds [Scenario.agreement_pdf])).
  - vm_compute. discriminate.
  - reflexivity.
  - vm_compute. reflexivity.
Defined.

(** *** Restart *)

Lemma wp_total (A : Type) (m : M A) s (Q : A -> State -> Prop) :
  wp m s Q (fun _ _ => False) ->
  exists a, fst (m s) = Return a /\ Q a (snd (m s)).
Proof.
  unfold wp. destruct (m s) as [[a|e] s']; [|contradiction].
  intros H. now exists a.
Qed.

Lemma persisted_files_inv (s : State) idx docs :
  persisted_files s = (Some idx, Some docs) ->
  store_dir s = Some (mkStoreDir (Some idx) (Some docs)).
Proof.
  unfold persisted_files. destruct (store_dir s) as [[f p]|]; simpl;
    intros H; [now injection H as -> -> | discriminate].
Qed.

(** X10.  The index a rebuild saved is the index a later start loads:
    after a rebuild that returned over a corpus with documents, an
    object initialised over the same directory (the loader not
    failing) returns from [_initialize_vector_store] holding the same
    index as the one the rebuild left in memory, without entering a
    rebuild. *)
Theorem restart_loads_saved_index (env env' : Env) (s b : State) :
  found_documents env <> [] ->
  fst (_refresh_documents env s) = Return tt ->
  env_load_fault env' = None ->
  store_dir b = store_dir (snd (_refresh_documents env s)) ->
  fst (_initialize_vector_store env' b) = Return tt /\
  vector_store (snd (_initialize_vector_store env' b))
  = vector_store (snd (_refresh_documents env s)) /\
  rebuild_count (snd (_initialize_vector_store env' b)) = rebuild_count b.
Proof.
  intros F R Lf D.
  destruct (wp_returned _ _ _ _ _ tt (wp_refresh_documents env s) R)
    as (_ & _ & [(F' & _)|(_ & _ & V & P & _)]); [contradiction|].
  apply persisted_files_inv in P. rewrite P in D. rewrite V.
  assert (W : wp (_initialize_vector_store env') b
                (fun _ s' =>
                   vector_store s' = Some (built_store env) /\
                   rebuild_count s' = rebuild_count b)
                (fun _ _ => False)).
  { unfold _initialize_vector_store. wp_steps.
    unfold index_file_exists. rewrite D. simpl. wp_steps.
    rewrite wp_load_local. simpl. rewrite D, Lf. wp_steps.
    rewrite wp_initialize_qa_chain. simpl. split; reflexivity. }
  destruct (wp_total _ _ _ _ W) as ([] & R' & V' & C'). auto.
Qed.

Lemma restart_loads_witness :
  fst (_initialize_vector_store (Scenario.working [])
         (Scenario.blank
            (store_dir
               (snd (_refresh_documents
                       (Scenario.working [Scenario.agreement_pdf])
                       Scenario.started))))) = Return tt /\
  vector_store
    (snd (_initialize_vector_store (Scenario.working [])
            (Scenario.blank
               (store_dir
                  (snd (_refresh_documents
                          (Scenario.working [Scenario.agreement_pdf])
                          Scenario.started))))))
  = vector_store
      (snd (_refresh_documents (Scenario.working [Scenario.agreement_pdf])
              Scenario.started)) /\
  rebuild_count
    (snd (_initialize_vector_store (Scenario.working [])
            (Scenario.blank
               (store_dir
                  (snd (_refresh_documents
                          (Scenario.working [Scenario.agreement_pdf])
                          Scenario.started))))))
  = rebuild_count
      (Scenario.blank
         (store_dir
            (snd (_refresh_documents
                    (Scenario.working [Scenario.agreement_pdf])
                    Scenario.started)))).
Proof.
  apply (restart_loads_saved_index
           (Scenario.working [Scenario.agreement_pdf]) (Scenario.working [])
           Scenario.started).
  - vm_compute. discriminate.
  - reflexivity.
  - reflexivity.
  - reflexivity.
Defined.

(** *** Loading *)

Lemma enhance_metadata_content (doc doc' : Document) :
  enhance_metadata doc = Return doc' -> page_content doc' = page_content doc.
Proof.
  unfold enhance_metadata.
  destruct (dict_get (metadata doc) "source") as [[source|n]|];
    intros H; try discriminate; now injection H as <-.
Qed.

Lemma enhance_all_content (docs docs' : list Document) :
  enhance_all docs = Return docs' ->
  map page_content docs' = map page_content docs.
Proof.
  revert docs'; induction docs as [|d docs IH]; intros docs' H; simpl in H.
  - now injection H as <-.
  - destruct (enhance_metadata d) as [d'|e] eqn:Hd; [|discriminate].
    destruct (enhance_all docs) as [rest|e]; [|discriminate].
    injection H as <-. simpl.
    now rewrite (enhance_metadata_content _ _ Hd), (IH _ eq_refl).
Qed.

Lemma load_files_texts (fs : list SrcFile) (docs : list Document) :
  load_files false fs = Return docs ->
  map page_content docs = flat_map file_texts fs.
Proof.
  revert docs; induction fs as [|f fs IH]; intros docs H; simpl in H.
  - now injection H as <-.
  - unfold file_texts at 1. simpl.
    destruct (file_parse f) as [ds|e]; [|discriminate].
    destruct (load_files false fs) as [rest|e]; [|discriminate].
    injection H as <-. now rewrite map_app, (IH _ eq_refl).
Qed.

Lemma enhance_all_app (a b docs : list Document) :
  enhance_all (a ++ b) = Return docs ->
  exists a' b',
    docs = (a' ++ b')%list /\
    enhance_all a = Return a' /\ enhance_all b = Return b'.
Proof.
  revert docs; induction a as [|d a IH]; intros docs H; simpl in H.
  - exists [], docs. auto.
  - simpl. destruct (enhance_metadata d) as [d'|e]; [|discriminate].
    destruct (enhance_all (a ++ b)) as [rest|e]; [|discriminate].
    injection H as <-.
    destruct (IH _ eq_refl) as (a' & b' & -> & Ha & Hb).
    exists (d' :: a'), b'. rewrite Ha. auto.
Qed.

(** X11.  [_load_documents] never raises and changes nothing but the
    log.  What it returns is either the empty list or the documents of
    the files the two globs select, with their texts unchanged: first
    those of the PDF files, in whatever order the loader hands them
    back (it loads them on several threads), then those of the Word
    files, in listing order. *)
Theorem load_documents_returns_all_or_nothing (env : Env) (s : State) :
  exists docs,
    fst (_load_documents env s) = Return docs /\
    (docs = [] \/
     exists pdf_docs docx_docs,
       docs = (pdf_docs ++ docx_docs)%list /\
       Permutation (map page_content pdf_docs)
                   (flat_map file_texts (glob env ".pdf")) /\
       map page_content docx_docs
       = flat_map file_texts (glob env ".docx")) /\
    object_untouched s (snd (_load_documents env s)) /\
    clock_reads (snd (_load_documents env s)) = clock_reads s.
Proof.
  rewrite load_documents_run. exists (found_documents env).
  split; [reflexivity|]. split.
  - unfold found_documents, load_all.
    destruct (load_files false (glob env ".pdf")) as [pdf|e] eqn:Hp;
      [|now left].
    destruct (load_files false (glob env ".docx")) as [docx|e] eqn:Hd;
      [|now left].
    destruct (enhance_all (pdf ++ docx)) as [docs|e] eqn:He; [|now left].
    right. destruct (enhance_all_app _ _ _ He) as (a' & b' & -> & Ha & Hb).
    exists a', b'. split; [reflexivity|].
    rewrite (enhance_all_content _ _ Ha), (enhance_all_content _ _ Hb).
    rewrite (load_files_texts _ _ Hp), (load_files_texts _ _ Hd).
    split; [apply Permutation_refl | reflexivity].
  - simpl. destruct (fold_add_log_fields (load_records env) s)
      as (? & ? & ? & ? & ? & ? & _).
    unfold object_untouched. repeat split; assumption.
Qed.

(** *** Dictionaries *)

Lemma dict_get_set_same (d : Dict) (k : string) (v : PyVal) :
  dict_get (dict_set d k v) k = Some v.
Proof.
  induction d as [|[k' v'] d IH]; simpl.
  - now rewrite String.eqb_refl.
  - destruct (String.eqb k' k) eqn:E; simpl.
    + now rewrite String.eqb_refl.
    + now rewrite E.
Qed.

Lemma dict_get_set_other (d : Dict) (k k' : string) (v : PyVal) :
  k <> k' -> dict_get (dict_set d k v) k' = dict_get d k'.
Proof.
  intros N. induction d as [|[k0 v0] d IH]; simpl.
  - destruct (String.eqb k k') eqn:E; [|reflexivity].
    apply String.eqb_eq in E. contradiction.
  - destruct (String.eqb k0 k) eqn:E; simpl.
    + apply String.eqb_eq in E. subst k0.
      destruct (String.eqb k k') eqn:E'; [|reflexivity].
      apply String.eqb_eq in E'. contradiction.
    + now rewrite IH.
Qed.

(** What [enhance_metadata] does to a document whose source is a
    string. *)
Lemma enhance_metadata_run (doc : Document) (source : string) :
  dict_get (metadata doc) "source" = Some (VStr source) ->
  exists doc',
    enhance_metadata doc = Return doc' /\
    page_content doc' = page_content doc /\
    dict_get (metadata doc') "filename" = Some (VStr (path_name source)) /\
    dict_get (metadata doc') "file_type"
    = Some (VStr (path_suffix source)) /\
    forall k, k <> "filename" -> k <> "file_type" ->
              dict_get (metadata doc') k = dict_get (metadata doc) k.
Proof.
  intros H. unfold enhance_metadata. rewrite H. eexists.
  split; [reflexivity|]. split; [reflexivity|]. simpl. repeat split.
  - rewrite dict_get_set_other by discriminate. apply dict_get_set_same.
  - apply dict_get_set_same.
  - intros k N1 N2.
    rewrite !dict_get_set_other; auto.
Qed.

(** X12.  A loaded document whose source is a string gets the name of
    the file as [filename] and its extension as [file_type]; its text
    and every other metadata key are left as they were. *)
Theorem enhance_metadata_names_the_file (doc : Document) (source : string) :
  dict_get (metadata doc) "source" = Some (VStr source) ->
  exists doc',
    enhance_metadata doc = Return doc' /\
    page_content doc' = page_content doc /\
    dict_get (metadata doc') "filename" = Some (VStr (path_name source)) /\
    dict_get (metadata doc') "file_type"
    = Some (VStr (path_suffix source)) /\
    forall k, k <> "filename" -> k <> "file_type" ->
              dict_get (metadata doc') k = dict_get (metadata doc) k.
Proof. apply enhance_metadata_run. Qed.

Lemma enhance_metadata_witness :
  exists doc',
    enhance_metadata Scenario.agreement = Return doc' /\
    page_content doc' = page_content Scenario.agreement /\
    dict_get (metadata doc') "filename"
    = Some (VStr (path_name "credit_documents/agreement.pdf")) /\
    dict_get (metadata doc') "file_type"
    = Some (VStr (path_suffix "credit_documents/agreement.pdf")) /\
    forall k, k <> "filename" -> k <> "file_type" ->
              dict_get (metadata doc') k
              = dict_get (metadata Scenario.agreement) k.
Proof. apply enhance_metadata_names_the_file. reflexivity. Defined.

End MoreChatbotFacts.


(* ================================================================== *)
(** ** More about the enricher *)

Module MoreEnricherFacts.
Import Regex Enricher EnricherSpec MoreSpec RegexFacts EnricherFacts.

Lemma take_drop (n : nat) (s : string) :
  s = PyStr.take n s ++ PyStr.drop n s.
Proof.
  revert s; induction n as [|n IH]; intros [|c s]; simpl; auto.
  now rewrite <- IH.
Qed.

Lemma take_length_le (n : nat) (s : string) : length (PyStr.take n s) <= n.
Proof.
  revert s; induction n as [|n IH]; intros [|c s]; simpl; auto with arith.
Qed.

Lemma first_search_found (ps : list regex) (s m : string) :
  first_search ps s = Some m -> exists p, In p ps /\ re_search p s = Some m.
Proof.
  induction ps as [|p ps IH]; simpl; [discriminate|].
  destruct (re_search p s) as [m'|] eqn:E.
  - intros H. injection H as ->. exists p. auto.
  - intros H. destruct (IH H) as (q & Hin & Hq). exists q. auto.
Qed.

Lemma plus_nonempty (p : ascii -> bool) (w : string) :
  matches (Plus p) w -> 1 <= length w.
Proof.
  intros H. destruct (matches_plus_inv _ _ H) as (c & w' & -> & _).
  simpl. lia.
Qed.

Lemma number_nonempty (w : string) : matches number w -> 1 <= length w.
Proof.
  intros H. destruct (matches_seq_inv _ _ _ H) as (w1 & w2 & -> & H1 & _).
  apply plus_nonempty in H1. rewrite str_length_app. lia.
Qed.

Lemma roman_or_number_nonempty (w : string) :
  matches roman_or_number w -> 1 <= length w.
Proof.
  intros H. destruct (matches_alt_inv _ _ _ H) as [H'|H'];
    now apply plus_nonempty in H'.
Qed.

Lemma heading_shape (keyword : string) (body : regex) (m : string) :
  (forall w, matches body w -> 1 <= length w) ->
  matches (heading keyword body) m ->
  String.prefix keyword m = true /\ length keyword + 2 <= length m.
Proof.
  intros B H. unfold heading in H.
  destruct (matches_seq_inv _ _ _ H) as (w1 & w2 & -> & H1 & H2).
  apply matches_lit_inv in H1. subst w1.
  destruct (matches_seq_inv _ _ _ H2) as (w3 & w4 & -> & H3 & H4).
  apply plus_nonempty in H3. apply B in H4.
  split.
  - apply PyStrFacts.prefix_iff. eauto.
  - rewrite !str_length_app. lia.
Qed.

Lemma pattern_shape (p : regex) (m : string) :
  In p patterns -> matches p m ->
  (exists keyword, In keyword keywords /\ String.prefix keyword m = true) /\
  9 <= length m.
Proof.
  unfold patterns, keywords.
  intros [<-|[<-|[<-|[<-|[]]]]] H;
    (apply heading_shape in H;
     [|first [exact number_nonempty | exact roman_or_number_nonempty]]);
    destruct H as (P & L); simpl in L; (split; [|exact L]).
  - exists "SECTION". simpl. auto.
  - exists "Section". simpl. auto.
  - exists "ARTICLE". simpl. auto 6.
  - exists "Article". simpl. auto 6.
Qed.

(** The shape of a label: shared by the statements below. *)
Lemma section_info_shape (text m : string) :
  _extract_section_info text = Some m ->
  (exists keyword, In keyword keywords /\ String.prefix keyword m = true) /\
  9 <= length m <= 500 /\
  exists pre post, text = pre ++ m ++ post /\ length pre + length m <= 500.
Proof.
  unfold _extract_section_info. intros H.
  destruct (first_search_found _ _ _ H) as (p & Hin & Hp).
  assert (G : greedy_is_longest p).
  { pose proof patterns_longest as F. rewrite Forall_forall in F. auto. }
  destruct (re_search_some _ _ _ G Hp) as (pre & post & O & Mt & _).
  unfold PyStr.occurs_at in O.
  destruct (pattern_shape _ _ Hin Mt) as (K & L).
  pose proof (take_length_le 500 text) as B. rewrite O in B.
  rewrite !str_length_app in B.
  split; [exact K|]. split; [lia|].
  exists pre, (post ++ PyStr.drop 500 text). split; [|lia].
  rewrite (take_drop 500 text) at 1. rewrite O.
  now rewrite !str_app_assoc.
Qed.

(** X13.  A section label, when one is found, is a piece of the text
    that lies within its first 500 characters, starts with one of the
    four keywords and is at least nine characters long (keyword, white
    space, number): it is never the empty string. *)
Theorem extract_section_info_shape (text m : string) :
  _extract_section_info text = Some m ->
  (exists keyword, In keyword keywords /\ String.prefix keyword m = true) /\
  9 <= length m <= 500 /\
  exists pre post, text = pre ++ m ++ post /\ length pre + length m <= 500.
Proof. apply section_info_shape. Qed.

Lemma extract_section_info_shape_witness :
  (exists keyword,
      In keyword keywords /\ String.prefix keyword "Section 7.2" = true) /\
  9 <= length "Section 7.2" <= 500 /\
  exists pre post,
    "CREDIT AGREEMENT. Section 7.2 Leverage Ratio" = pre ++ "Section 7.2" ++ post
    /\ length pre + length "Section 7.2" <= 500.
Proof.
  apply (extract_section_info_shape
           "CREDIT AGREEMENT. Section 7.2 Leverage Ratio" "Section 7.2").
  reflexivity.
Defined.

Lemma contains_context (needle a t b : string) :
  PyStr.contains needle (PyStr.lower t) = true ->
  PyStr.contains needle (PyStr.lower (a ++ t ++ b)) = true.
Proof.
  rewrite !PyStrFacts.contains_iff. intros (pre & post & H).
  rewrite !PyStrFacts.lower_app, H.
  exists (PyStr.lower a ++ pre), (post ++ PyStr.lower b).
  now rewrite !str_app_assoc.
Qed.

(** Settles the place of the type of the longer text by the rules
    that are left. *)
Ltac later_rules :=
  repeat match goal with
         | |- context [if ?c then _ else _] => destruct c
         end;
  vm_compute; repeat constructor.

(** X14.  Text put before or after a document never moves its type
    down the order of the checks: the type of the longer text comes at
    the same place as the type of the part, or earlier. *)
Theorem identify_document_type_context (a t b : string) :
  priority (_identify_document_type (a ++ t ++ b))
  <= priority (_identify_document_type t).
Proof.
  unfold _identify_document_type.
  pose proof (contains_context "compliance certificate" a t b) as H1.
  pose proof (contains_context "credit agreement" a t b) as H2.
  pose proof (contains_context "loan agreement" a t b) as H3.
  pose proof (contains_context "credit application" a t b) as H4.
  pose proof (contains_context "lsta" a t b) as H5.
  destruct (PyStr.contains "compliance certificate" (PyStr.lower t));
    [rewrite (H1 eq_refl); apply Nat.le_refl|].
  destruct (PyStr.contains "credit agreement" (PyStr.lower t));
    [rewrite (H2 eq_refl); simpl orb; cbv iota; later_rules|].
  destruct (PyStr.contains "loan agreement" (PyStr.lower t));
    [rewrite (H3 eq_refl), orb_true_r; simpl orb; cbv iota; later_rules|].
  simpl orb. cbv iota.
  destruct (PyStr.contains "credit application" (PyStr.lower t));
    [rewrite (H4 eq_refl); later_rules|].
  destruct (PyStr.contains "lsta" (PyStr.lower t));
    [rewrite (H5 eq_refl); later_rules|].
  later_rules.
Qed.

End MoreEnricherFacts.


(* ================================================================== *)
(** ** The metadata of documents and chunks *)

Module MetadataFacts.
Import Chatbot ChatbotSpec MoreSpec RegexFacts MoreChatbotFacts
       MoreEnricherFacts.

Lemma rfind_dot_app (pre e : string) :
  rfind_dot e = None ->
  rfind_dot (pre ++ String "."%char e) = Some (length pre).
Proof.
  intros H. induction pre as [|c pre IH]; simpl.
  - now rewrite H.
  - change (rfind_dot (pre ++ String "."%char e)) with
      (rfind_dot (pre ++ String "."%char e)).
    now rewrite IH.
Qed.

Lemma endswith_split (s suffix : string) :
  PyStr.endswith s suffix = true -> exists pre, s = pre ++ suffix.
Proof.
  unfold PyStr.endswith. intros H. apply andb_prop in H as (_ & H).
  apply String.eqb_eq in H. exists (PyStr.take (length s - length suffix) s).
  rewrite <- H at 2. apply take_drop.
Qed.

Lemma suffix_of_name (name pre e : string) :
  name = pre ++ String "."%char e -> rfind_dot e = None ->
  pre <> EmptyString -> e <> EmptyString ->
  match rfind_dot name with
  | Some i =>
      if (Nat.ltb 0 i && Nat.ltb i (length name - 1))%bool
      then PyStr.drop i name
      else EmptyString
  | None => EmptyString
  end = String "."%char e.
Proof.
  intros -> E Np Ne. rewrite (rfind_dot_app _ _ E).
  assert (Lp : 0 < length pre) by (destruct pre; simpl; [congruence | lia]).
  assert (Le : 0 < length e) by (destruct e; simpl; [congruence | lia]).
  assert (B1 : Nat.ltb 0 (length pre) = true) by now apply Nat.ltb_lt.
  assert (B2 : Nat.ltb (length pre)
                 (length (pre ++ String "."%char e) - 1) = true).
  { apply Nat.ltb_lt. rewrite str_length_app. simpl. lia. }
  rewrite B1, B2. simpl. apply PyStrFacts.drop_app.
Qed.

(** X15.  A file whose name ends in [.pdf] or [.docx] and is longer
    than that extension has the extension as its suffix -- the
    [file_type] it is given.  (A file named exactly [.pdf] has no
    suffix.) *)
Theorem path_suffix_of_loaded_file (p ext : string) :
  In ext [".pdf"; ".docx"] ->
  PyStr.endswith (path_name p) ext = true ->
  path_name p <> ext ->
  path_suffix p = ext.
Proof.
  intros Hin H N. destruct (endswith_split _ _ H) as (pre & Hn).
  assert (Np : pre <> EmptyString) by (intros ->; now apply N).
  unfold path_suffix. cbv zeta.
  destruct Hin as [<-|[<-|[]]];
    apply (suffix_of_name _ pre); auto; discriminate.
Qed.

Lemma path_suffix_witness :
  path_suffix "credit_documents/2024/agreement.v2.docx" = ".docx".
Proof.
  apply path_suffix_of_loaded_file.
  - simpl. auto.
  - reflexivity.
  - vm_compute. discriminate.
Defined.

Lemma enumerate_chunks_nth (chunks : list Document) (i total j : nat)
      (c : Document) :
  nth_error (enumerate_chunks i total chunks) j = Some c ->
  exists c0,
    nth_error chunks j = Some c0 /\
    enumerate_chunks (i + j) total [c0] = [c].
Proof.
  revert i j; induction chunks as [|c0 chunks IH]; intros i [|j] H;
    try discriminate.
  - exists c0. split; [reflexivity|]. rewrite Nat.add_0_r.
    simpl in H. injection H as <-. reflexivity.
  - simpl in H. destruct (IH _ _ H) as (c1 & N & E).
    exists c1. split; [exact N|]. now rewrite <- plus_n_Sm.
Qed.

Lemma enumerate_chunks_length (chunks : list Document) (i total : nat) :
  List.length (enumerate_chunks i total chunks) = List.length chunks.
Proof.
  revert i; induction chunks as [|c chunks IH]; intros i; simpl; auto.
Qed.

Ltac other_keys :=
  repeat (rewrite dict_get_set_other
           by first [discriminate | assumption | congruence]).

(** The chunk at one position of the chunks of a document. *)
Lemma chunk_metadata_at (env : Env) (doc c : Document) (j : nat) :
  nth_error (process_document env doc) j = Some c ->
  nth_error (env_split_text env text_splitter (page_content doc)) j
  = Some (page_content c) /\
  dict_get (metadata c) "chunk_id" = Some (VInt (Z.of_nat j)) /\
  dict_get (metadata c) "total_chunks"
  = Some (VInt (Z.of_nat (List.length (process_document env doc)))) /\
  dict_get (metadata c) "document_type"
  = Some (VStr (Enricher._identify_document_type (page_content doc))) /\
  dict_get (metadata c) "section"
  = match Enricher._extract_section_info (page_content c) with
    | Some label => Some (VStr label)
    | None => dict_get (metadata doc) "section"
    end /\
  forall k, ~ In k chunk_keys ->
            dict_get (metadata c) k = dict_get (metadata doc) k.
Proof.
  unfold process_document. cbv zeta. rewrite enumerate_chunks_length.
  intros H. apply enumerate_chunks_nth in H as (c0 & N & E).
  unfold split_documents in N. rewrite nth_error_map in N.
  cbn [page_content metadata] in N.
  destruct (nth_error (env_split_text env text_splitter (page_content doc)) j)
    as [piece|] eqn:P; simpl in N; [|discriminate].
  injection N as <-. simpl in E. injection E as <-.
  cbn [page_content metadata].
  split; [reflexivity|].
  assert (K : forall k, ~ In k chunk_keys ->
                        k <> "document_type" /\ k <> "chunk_id" /\
                        k <> "total_chunks" /\ k <> "section").
  { unfold chunk_keys. simpl. intros k Hk.
    repeat split; intros ->; apply Hk; auto. }
  destruct (Enricher._extract_section_info piece) as [label|] eqn:S.
  - destruct (section_info_shape _ _ S) as (_ & L & _).
    destruct (String.eqb label EmptyString) eqn:B.
    { apply String.eqb_eq in B. subst label. simpl in L. lia. }
    repeat split.
    + other_keys. apply dict_get_set_same.
    + other_keys. apply dict_get_set_same.
    + other_keys. apply dict_get_set_same.
    + apply dict_get_set_same.
    + intros k Hk. destruct (K k Hk) as (? & ? & ? & ?).
      now other_keys.
  - repeat split.
    + other_keys. apply dict_get_set_same.
    + apply dict_get_set_same.
    + other_keys. apply dict_get_set_same.
    + now other_keys.
    + intros k Hk. destruct (K k Hk) as (? & ? & ? & ?).
      now other_keys.
Qed.

(** X16.  The metadata of the chunks of a document.  The chunk at
    position [j] has as text the [j]-th piece the splitter made of the
    document's text, [chunk_id] [j], as [total_chunks] the number of
    chunks of the document, as [document_type] the type of the whole
    document (not of the chunk's own text), and as [section] the label
    found in the chunk's own text, or what the document had when none
    is found; every other key is the document's. *)
Theorem chunk_metadata (env : Env) (doc c : Document) (j : nat) :
  nth_error (process_document env doc) j = Some c ->
  nth_error (env_split_text env text_splitter (page_content doc)) j
  = Some (page_content c) /\
  dict_get (metadata c) "chunk_id" = Some (VInt (Z.of_nat j)) /\
  dict_get (metadata c) "total_chunks"
  = Some (VInt (Z.of_nat (List.length (process_document env doc)))) /\
  dict_get (metadata c) "document_type"
  = Some (VStr (Enricher._identify_document_type (page_content doc))) /\
  dict_get (metadata c) "section"
  = match Enricher._extract_section_info (page_content c) with
    | Some label => Some (VStr label)
    | None => dict_get (metadata doc) "section"
    end /\
  forall k, ~ In k chunk_keys ->
            dict_get (metadata c) k = dict_get (metadata doc) k.
Proof. apply chunk_metadata_at. Qed.

Lemma chunk_metadata_witness :
  nth_error
    (env_split_text (Scenario.working [Scenario.agreement_pdf]) text_splitter
       (page_content Scenario.agreement)) 0
  = Some (page_content MoreScenario.agreement_chunk) /\
  dict_get (metadata MoreScenario.agreement_chunk) "chunk_id"
  = Some (VInt (Z.of_nat 0)) /\
  dict_get (metadata MoreScenario.agreement_chunk) "total_chunks"
  = Some (VInt (Z.of_nat
                  (List.length
                     (process_document
                        (Scenario.working [Scenario.agreement_pdf])
                        Scenario.agreement)))) /\
  dict_get (metadata MoreScenario.agreement_chunk) "document_type"
  = Some (VStr (Enricher._identify_document_type
                  (page_content Scenario.agreement))) /\
  dict_get (metadata MoreScenario.agreement_chunk) "section"
  = match Enricher._extract_section_info
            (page_content MoreScenario.agreement_chunk) with
    | Some label => Some (VStr label)
    | None => dict_get (metadata Scenario.agreement) "section"
    end /\
  forall k, ~ In k chunk_keys ->
            dict_get (metadata MoreScenario.agreement_chunk) k
            = dict_get (metadata Scenario.agreement) k.
Proof. apply chunk_metadata. reflexivity. Defined.

(** X17.  What a response cites for a chunk the pipeline built.  For a
    chunk of a loaded document whose source is a string, the citation
    names the file the document came from and the type of the whole
    document -- never [Unknown] --, gives the page the loader recorded
    ([N/A] when it recorded none) and, as section, the label found in
    the chunk's own text, or what the document had, or [N/A]. *)
Theorem citation_of_built_chunk
        (env : Env) (doc doc' c : Document) (source : string) (j : nat) :
  dict_get (metadata doc) "source" = Some (VStr source) ->
  enhance_metadata doc = Return doc' ->
  nth_error (process_document env doc') j = Some c ->
  filename (citation c) = VStr (path_name source) /\
  document_type (citation c)
  = VStr (Enricher._identify_document_type (page_content doc)) /\
  page (citation c) = dict_get_default (metadata doc) "page" (VStr "N/A") /\
  section (citation c)
  = match Enricher._extract_section_info (page_content c) with
    | Some label => VStr label
    | None => dict_get_default (metadata doc) "section" (VStr "N/A")
    end.
Proof.
  intros S E N.
  destruct (enhance_metadata_run doc source S)
    as (doc'' & E' & C & Fn & _ & K).
  rewrite E in E'. injection E' as <-.
  destruct (chunk_metadata_at env doc' c j N)
    as (_ & _ & _ & T & Sec & K').
  assert (Other : forall k, ~ In k chunk_keys -> k <> "filename" ->
                            k <> "file_type" ->
                            dict_get (metadata c) k = dict_get (metadata doc) k).
  { intros k H1 H2 H3. now rewrite K', K. }
  unfold citation, dict_get_default. simpl. repeat split.
  - rewrite K', Fn; [reflexivity|].
    unfold chunk_keys. simpl. intuition discriminate.
  - now rewrite T, C.
  - rewrite Other; try discriminate; [reflexivity|].
    unfold chunk_keys. simpl. intuition discriminate.
  - rewrite Sec.
    destruct (Enricher._extract_section_info (page_content c));
      [reflexivity|].
    now rewrite K by discriminate.
Qed.

Lemma citation_of_built_chunk_witness :
  filename (citation MoreScenario.agreement_chunk_named)
  = VStr (path_name "credit_documents/agreement.pdf") /\
  document_type (citation MoreScenario.agreement_chunk_named)
  = VStr (Enricher._identify_document_type
            (page_content Scenario.agreement)) /\
  page (citation MoreScenario.agreement_chunk_named)
  = dict_get_default (metadata Scenario.agreement) "page" (VStr "N/A") /\
  section (citation MoreScenario.agreement_chunk_named)
  = match Enricher._extract_section_info
            (page_content MoreScenario.agreement_chunk_named) with
    | Some label => VStr label
    | None =>
        dict_get_default (metadata Scenario.agreement) "section" (VStr "N/A")
    end.
Proof.
  apply (citation_of_built_chunk
           (Scenario.working [Scenario.agreement_pdf]) Scenario.agreement
           MoreScenario.agreement_named MoreScenario.agreement_chunk_named
           "credit_documents/agreement.pdf" 0);
    reflexivity.
Defined.

(** X18.  [_preprocess_documents] never raises and changes nothing but
    the log; the chunks it returns are, document after document, the
    pieces the splitter makes of each document's text, in order. *)
Theorem preprocess_documents_chunks
        (env : Env) (documents : list Document) (s : State) :
  exists chunks,
    fst (_preprocess_documents env documents s) = Return chunks /\
    map page_content chunks
    = flat_map
        (fun doc => env_split_text env text_splitter (page_content doc))
        documents /\
    object_untouched s (snd (_preprocess_documents env documents s)) /\
    clock_reads (snd (_preprocess_documents env documents s))
    = clock_reads s.
Proof.
  exists (flat_map (process_document env) documents).
  split; [reflexivity|]. split.
  - induction documents as [|doc documents IH]; simpl; [reflexivity|].
    rewrite map_app, IH. f_equal. apply ChatbotFacts.process_document_content.
  - unfold object_untouched. simpl. repeat split.
Qed.

End MetadataFacts.


(* ================================================================== *)
(** ** The chat loop *)

Module ChatLoopFacts.
Import Chatbot ChatbotSpec MoreSpec ChatLoop ChatbotFacts MoreChatbotFacts.

Lemma is_quit_ends (line : string) :
  is_quit (strip line) = ends_chat (Typed line).
Proof. unfold is_quit, ends_chat. simpl. now rewrite orb_false_r. Qed.

Lemma lower_empty (question : string) :
  question = EmptyString -> PyStr.lower question = EmptyString.
Proof. now intros ->. Qed.

(** A turn leaves the loop exactly on a key that ends the chat. *)
Lemma chat_step_next (env : Env) (key : Keyboard) (s : State) :
  fst (fst (chat_step env key s))
  = if ends_chat key then Break else Continue.
Proof.
  destruct key as [line| |]; try reflexivity.
  unfold chat_step. cbv zeta. rewrite is_quit_ends.
  destruct (String.eqb (strip line) EmptyString) eqn:B.
  - apply String.eqb_eq in B. unfold ends_chat. cbv zeta. now rewrite B.
  - destruct (ends_chat (Typed line)); [reflexivity|].
    destruct (String.eqb (PyStr.lower (strip line)) "refresh").
    + now destruct (manual_refresh env s) as [[[]|e] s'].
    + now destruct (query env (strip line) s) as [[response|e] s'].
Qed.

(** A turn on a key that does not reach the chatbot leaves the state
    as it is. *)
Lemma chat_step_idle (env : Env) (key : Keyboard) (s : State) :
  reaches_chatbot key = false -> snd (chat_step env key s) = s.
Proof.
  destruct key as [line| |]; try reflexivity.
  unfold reaches_chatbot, chat_step. cbv zeta. rewrite is_quit_ends.
  destruct (String.eqb (strip line) EmptyString); [reflexivity|].
  destruct (ends_chat (Typed line)); [reflexivity | discriminate].
Qed.

Lemma chat_loop_step (env : Env) (turns : nat) (keys : list Keyboard)
      (out : list Printed) (s : State) :
  chat_loop env (S turns) keys out s =
  match fst (fst (chat_step env (hd EndOfInput keys) s)) with
  | Break =>
      Ended (out ++ snd (fst (chat_step env (hd EndOfInput keys) s)))
            (snd (chat_step env (hd EndOfInput keys) s))
  | Continue =>
      chat_loop env turns (tl keys)
        (out ++ snd (fst (chat_step env (hd EndOfInput keys) s)))
        (snd (chat_step env (hd EndOfInput keys) s))
  end.
Proof.
  simpl. now destruct (chat_step env (hd EndOfInput keys) s) as [[[] p] s'].
Qed.

(** X19.  The chat ends only on quit, exit or an interrupt: after any
    number of turns the session has ended exactly when one of the keys
    read so far is an interrupt or a line that is [quit] or [exit]
    once stripped and lowered.  Nothing the chatbot raises ends it,
    and neither does the end of the input: once the typed lines are
    used up, the loop stays at the prompt for ever. *)
Theorem chat_ends_only_on_quit
        (env : Env) (turns : nat) (keys : list Keyboard)
        (out : list Printed) (s : State) :
  ended (chat_loop env turns keys out s)
  = existsb ends_chat (keys_read turns keys).
Proof.
  unfold keys_read.
  revert keys out s; induction turns as [|turns IH]; intros keys out s.
  - reflexivity.
  - rewrite chat_loop_step, chat_step_next.
    destruct keys as [|key keys]; simpl hd; simpl tl.
    + simpl. rewrite IH. now destruct turns.
    + simpl firstn. simpl existsb.
      destruct (ends_chat key); [reflexivity | apply IH].
Qed.

(** X20.  Keys that do not reach the chatbot -- blank lines, quit and
    exit, an interrupt, the end of the input -- change nothing: a
    session that read only such keys leaves the object, the index
    directory, the clock and the log of the class as they were. *)
Theorem idle_session_changes_nothing
        (env : Env) (turns : nat) (keys : list Keyboard)
        (out : list Printed) (s : State) :
  Forall (fun key => reaches_chatbot key = false) (keys_read turns keys) ->
  session_state (chat_loop env turns keys out s) = s.
Proof.
  unfold keys_read.
  revert keys out s; induction turns as [|turns IH]; intros keys out s F.
  - reflexivity.
  - rewrite chat_loop_step.
    assert (Idle : snd (chat_step env (hd EndOfInput keys) s) = s).
    { apply chat_step_idle. destruct keys as [|key keys]; [reflexivity|].
      now inversion F. }
    rewrite Idle.
    destruct (fst (fst (chat_step env (hd EndOfInput keys) s)));
      [|reflexivity].
    apply IH. destruct keys as [|key keys]; simpl.
    + destruct turns; constructor.
    + now inversion F.
Qed.

Lemma idle_session_witness :
  session_state
    (chat_loop (Scenario.working [Scenario.agreement_pdf]) 3
       [Typed "   "; EndOfInput; Typed " Quit "; Typed "refresh"] []
       Scenario.started)
  = Scenario.started.
Proof.
  apply idle_session_changes_nothing.
  repeat constructor.
Defined.

(** X21.  [main] creates the chatbot outside the loop and its
    handlers: over a corpus in which no document is found and a
    directory from which no index can be loaded, it raises the
    [AttributeError] of the constructor before it reads a key (the
    embedding model and the language model having been created). *)
Theorem main_raises_without_documents
        (env : Env) (turns : nat) (keys : list Keyboard) (s : State) :
  found_documents env = [] ->
  index_file_exists s = false
  \/ returns (fst (FAISS_load_local env s)) = false ->
  main env turns keys s
  = Raise (AttributeError
             "'NoneType' object has no attribute 'as_retriever'").
Proof.
  intros F L.
  assert (W : wp (__init__ env "sentence-transformers/all-MiniLM-L6-v2" 3600)
                s (fun _ _ => False)
                (fun e _ =>
                   e = AttributeError
                         "'NoneType' object has no attribute 'as_retriever'")).
  { unfold __init__, _initialize_vector_store. wp_steps.
    assert (Rebuild : forall s1,
      vector_store s1 = None ->
      wp (_refresh_documents env) s1
         (fun _ s' =>
            wp _initialize_qa_chain s' (fun _ _ => False)
               (fun e _ =>
                  e = AttributeError
                        "'NoneType' object has no attribute 'as_retriever'"))
         (fun e _ =>
            e = AttributeError
                  "'NoneType' object has no attribute 'as_retriever'")).
    { intros s1 V. unfold wp at 1.
      rewrite (refresh_documents_empty env s1 F).
      rewrite wp_initialize_qa_chain.
      destruct (fold_add_log_fields (load_records env)
                  (add_log (INFO, RefreshingIndex) s1))
        as (_ & _ & V' & _).
      simpl. simpl in V'. rewrite V', V. reflexivity. }
    unfold index_file_exists at 1. simpl store_dir.
    fold (index_file_exists s).
    destruct (index_file_exists s) eqn:X.
    - destruct L as [L|L]; [discriminate|].
      wp_steps. rewrite wp_load_local. simpl store_dir.
      unfold FAISS_load_local, bind, get, raise, ret in L.
      destruct (store_dir s) as [[[idx|] [docs|]]|];
        try (wp_steps; apply Rebuild; reflexivity).
      destruct (env_load_fault env) as [fault|];
        [wp_steps; apply Rebuild; reflexivity | discriminate].
    - wp_steps. apply Rebuild. reflexivity. }
  unfold main. unfold wp in W.
  destruct (__init__ env "sentence-transformers/all-MiniLM-L6-v2" 3600 s)
    as [[[]|e] s']; [contradiction | now subst].
Qed.

Lemma main_raises_witness :
  main (Scenario.working []) 3 [Typed "What is the leverage ratio?"]
       (Scenario.blank None)
  = Raise (AttributeError
             "'NoneType' object has no attribute 'as_retriever'").
Proof.
  apply main_raises_without_documents.
  - reflexivity.
  - left. reflexivity.
Defined.

End ChatLoopFacts.


(* ================================================================== *)
(** ** The covenant analysis *)

Module ExampleUsageFacts.
Import Chatbot ChatbotSpec MoreSpec ExampleUsage.

Lemma covenant_analysis_step
      (env : Env) (covenant : string) (rest : list string)
      (acc : list CovenantResult) (s : State) :
  covenant_analysis env (covenant :: rest) acc s =
  match query env (covenant_query covenant) s with
  | (Return response, s') =>
      covenant_analysis env rest
        (acc ++ [mkCovenantResult covenant (answer response)
                   (List.length (sources response)) (timestamp response)])
        s'
  | (Raise e, s') => (Raise e, s')
  end.
Proof.
  simpl. unfold bind.
  now destruct (query env (covenant_query covenant) s) as [[response|e] s'].
Qed.

(** X22.  When the covenant analysis returns, it has added one result
    per covenant to the results it started with, in the order of the
    covenants and each under the name of its covenant; a query that
    raises ends the analysis with that exception, and no results. *)
Theorem covenant_analysis_results
        (env : Env) (covenants : list string)
        (acc results : list CovenantResult) (s : State) :
  fst (covenant_analysis env covenants acc s) = Return results ->
  exists new,
    results = (acc ++ new)%list /\ map covenant_name new = covenants.
Proof.
  revert acc s; induction covenants as [|covenant rest IH]; intros acc s H.
  - simpl in H. injection H as <-. exists []. now rewrite app_nil_r.
  - rewrite covenant_analysis_step in H.
    destruct (query env (covenant_query covenant) s) as [[response|e] s'];
      [|discriminate].
    destruct (IH _ _ H) as (new & -> & Hn).
    eexists (_ :: new). rewrite <- app_assoc. split; [reflexivity|].
    simpl. now rewrite Hn.
Qed.

Lemma covenant_analysis_witness :
  exists new,
    [ mkCovenantResult "Total Leverage Ratio" "I can confirm..." 1
        10800000000;
      mkCovenantResult "Senior Secured Leverage Ratio" "I can confirm..." 1
        21600000000;
      mkCovenantResult "Fixed Charge Coverage Ratio" "I can confirm..." 1
        32400000000;
      mkCovenantResult "Minimum Liquidity" "I can confirm..." 1
        43200000000 ]
    = ([] ++ new)%list /\
    map covenant_name new = covenants_to_check.
Proof.
  apply (covenant_analysis_results
           (Scenario.working [Scenario.agreement_pdf])
           covenants_to_check [] _ Scenario.started).
  vm_compute. reflexivity.
Defined.

End ExampleUsageFacts.


(* ================================================================== *)
(** ** setup.py *)

Module SetupFacts.
Import MoreSpec Setup.

(** X23.  [check_python_version] accepts only versions from 3.9 on,
    but not all of them: a version is accepted exactly when it is 3.9
    or higher and its minor number is at least 9, so that 4.0 is
    turned down. *)
Theorem check_python_version_accepts (major minor : Z) :
  check_python_version major minor = true <->
  version_at_least major minor 3 9 /\ (9 <= minor)%Z.
Proof.
  unfold check_python_version, version_at_least.
  rewrite andb_true_iff, !Z.leb_le. lia.
Qed.

Lemma check_python_version_witness :
  check_python_version 3 12 = true <->
  version_at_least 3 12 3 9 /\ (9 <= 12)%Z.
Proof. exact (check_python_version_accepts 3 12). Defined.

(** X24.  [setup_env_file] never changes the template, and changes an
    existing [.env] only when the answer, lowered, is [y] and there is
    a template; what it writes to [.env] is the text of the template.
    After a success [.env] exists.  It fails exactly when there is no
    template and [.env] is missing or was to be overwritten, and then
    it changes nothing. *)
Theorem setup_env_file_outcome (response : string) (fs : EnvFiles) :
  let ok := fst (setup_env_file response fs) in
  let fs' := snd (setup_env_file response fs) in
  dot_env_template fs' = dot_env_template fs /\
  (dot_env fs' = dot_env fs \/
   (dot_env fs' = dot_env_template fs /\ dot_env_template fs <> None /\
    (dot_env fs = None \/ PyStr.lower response = "y"))) /\
  (ok = true -> dot_env fs' <> None) /\
  (ok = false <->
   dot_env_template fs = None /\
   (dot_env fs = None \/ PyStr.lower response = "y")) /\
  (ok = false -> fs' = fs).
Proof.
  unfold setup_env_file. cbv zeta.
  destruct fs as [[env|] [template|]]; simpl;
    destruct (String.eqb_spec (PyStr.lower response) "y") as [Y|Y]; simpl;
    repeat split; auto; try discriminate; try tauto;
    try (right; repeat split; auto; discriminate);
    try (intros (T & [D|L]); congruence).
Qed.

Lemma setup_env_file_witness :
  let ok :=
    fst (setup_env_file "Y" (mkEnvFiles (Some "OPENAI_API_KEY=sk-old")
                                        (Some "OPENAI_API_KEY="))) in
  let fs' :=
    snd (setup_env_file "Y" (mkEnvFiles (Some "OPENAI_API_KEY=sk-old")
                                        (Some "OPENAI_API_KEY="))) in
  dot_env_template fs' = Some "OPENAI_API_KEY=" /\
  (dot_env fs' = Some "OPENAI_API_KEY=sk-old" \/
   (dot_env fs' = Some "OPENAI_API_KEY=" /\ Some "OPENAI_API_KEY=" <> None /\
    (Some "OPENAI_API_KEY=sk-old" = None \/ PyStr.lower "Y" = "y"))) /\
  (ok = true -> dot_env fs' <> None) /\
  (ok = false <->
   Some "OPENAI_API_KEY=" = None /\
   (Some "OPENAI_API_KEY=sk-old" = None \/ PyStr.lower "Y" = "y")) /\
  (ok = false -> fs' = mkEnvFiles (Some "OPENAI_API_KEY=sk-old")
                                  (Some "OPENAI_API_KEY=")).
Proof.
  exact (setup_env_file_outcome "Y"
           (mkEnvFiles (Some "OPENAI_API_KEY=sk-old")
                       (Some "OPENAI_API_KEY="))).
Defined.

End SetupFacts.


(* ================================================================== *)
(** ** The rebuild: when it runs and what it leaves *)

Module RebuildFacts.
Import Chatbot ChatbotSpec MoreSpec RebuildSpec ChatbotFacts MoreChatbotFacts.
Local Open Scope py_scope.

(** How a rebuild ends, by what fails in it. *)
Lemma refresh_documents_outcome (env : Env) (s : State) :
  match found_documents env with
  | [] =>
      fst (_refresh_documents env s) = Return tt /\
      persisted_files (snd (_refresh_documents env s)) = persisted_files s
  | _ :: _ =>
      match env_embed_fault env (chunks_of env) with
      | Some e =>
          fst (_refresh_documents env s) = Raise e /\
          persisted_files (snd (_refresh_documents env s))
          = persisted_files s
      | None =>
          vector_store (snd (_refresh_documents env s))
          = Some (built_store env) /\
          match env_save_fault env with
          | Some (FaultBeforeIndex e) =>
              fst (_refresh_documents env s) = Raise e /\
              persisted_files (snd (_refresh_documents env s))
              = persisted_files s
          | Some (FaultBeforeDocstore e) =>
              fst (_refresh_documents env s) = Raise e /\
              persisted_files (snd (_refresh_documents env s))
              = (Some (vs_index (built_store env)),
                 snd (persisted_files s))
          | None =>
              fst (_refresh_documents env s) = Return tt /\
              persisted_files (snd (_refresh_documents env s))
              = (Some (vs_index (built_store env)),
                 Some (vs_docstore (built_store env)))
          end
      end
  end.
Proof.
  unfold built_store, chunks_of.
  open_refresh env.
  - split; reflexivity.
  - run_build env s; repeat split; reflexivity.
  - split; reflexivity.
Qed.

(** *** C4 *)

(** C4, amended.  A build saves the index in place, into the
    directory the persisted index is loaded from, after the in-memory
    store has been replaced; there is no temporary location and no
    swap.  What is left on disk is fixed by where the build stops:
    - no document found: the build returns, and the two files are as
      they were;
    - the embedding of the chunks fails: the build raises that
      exception, and the two files are as they were;
    - the embedding works: the in-memory index is the new one, and
      - a save that stops before [index.faiss] is written raises and
        leaves the two files as they were,
      - a save that stops between the two files raises and leaves
        [index.faiss] new and [index.pkl] as it was,
      - a save that completes returns and leaves both files holding
        the new index. *)
Theorem refresh_documents_saves_in_place (env : Env) (s : State) :
  (found_documents env = [] ->
   fst (_refresh_documents env s) = Return tt /\
   persisted_files (snd (_refresh_documents env s)) = persisted_files s) /\
  (found_documents env <> [] ->
   (forall e,
       env_embed_fault env (chunks_of env) = Some e ->
       fst (_refresh_documents env s) = Raise e /\
       persisted_files (snd (_refresh_documents env s))
       = persisted_files s) /\
   (env_embed_fault env (chunks_of env) = None ->
    vector_store (snd (_refresh_documents env s))
    = Some (built_store env) /\
    (forall e,
        env_save_fault env = Some (FaultBeforeIndex e) ->
        fst (_refresh_documents env s) = Raise e /\
        persisted_files (snd (_refresh_documents env s))
        = persisted_files s) /\
    (forall e,
        env_save_fault env = Some (FaultBeforeDocstore e) ->
        fst (_refresh_documents env s) = Raise e /\
        persisted_files (snd (_refresh_documents env s))
        = (Some (vs_index (built_store env)), snd (persisted_files s))) /\
    (env_save_fault env = None ->
     fst (_refresh_documents env s) = Return tt /\
     persisted_files (snd (_refresh_documents env s))
     = (Some (vs_index (built_store env)),
        Some (vs_docstore (built_store env)))))).
Proof.
  pose proof (refresh_documents_outcome env s) as O.
  destruct (found_documents env) as [|doc docs].
  - split; [intros _; exact O | intros N; now destruct N].
  - split; [discriminate|]. intros _.
    destruct (env_embed_fault env (chunks_of env)) as [embed_error|].
    + split; [|discriminate]. intros e H. now injection H as <-.
    + split; [discriminate|]. intros _.
      destruct O as (V & O). split; [exact V|].
      destruct (env_save_fault env) as [[save_error|save_error]|].
      * split; [|split]; try discriminate.
        intros e H. now injection H as <-.
      * split; [|split]; try discriminate.
        intros e H. now injection H as <-.
      * split; [|split]; try discriminate. intros _. exact O.
Qed.

(** The three ends of a save, on a directory that holds the index of
    an earlier build. *)
Example save_completes :
  fst (_refresh_documents (Scenario.working [Scenario.agreement_pdf])
         Scenario.started) = Return tt /\
  persisted_files
    (snd (_refresh_documents (Scenario.working [Scenario.agreement_pdf])
            Scenario.started))
  = (Some (vs_index (built_store
                       (Scenario.working [Scenario.agreement_pdf]))),
     Some (vs_docstore (built_store
                          (Scenario.working [Scenario.agreement_pdf])))).
Proof. split; reflexivity. Qed.

Example save_stops_between_files :
  fst (_refresh_documents (Scenario.disk_full [Scenario.agreement_pdf])
         Scenario.started)
  = Raise (ExternalError "No space left on device") /\
  persisted_files
    (snd (_refresh_documents (Scenario.disk_full [Scenario.agreement_pdf])
            Scenario.started))
  = (Some (vs_index (built_store
                       (Scenario.disk_full [Scenario.agreement_pdf]))),
     Some [Scenario.old_chunk]).
Proof. split; reflexivity. Qed.

Example embedding_fails_before_save :
  fst (_refresh_documents
         (Scenario.embedding_down [Scenario.agreement_pdf])
         Scenario.started)
  = Raise (ExternalError "embedding service unavailable") /\
  persisted_files
    (snd (_refresh_documents
            (Scenario.embedding_down [Scenario.agreement_pdf])
            Scenario.started))
  = persisted_files Scenario.started.
Proof. split; reflexivity. Qed.

(** *** C7 *)

Lemma initialize_qa_chain_run (s : State) (vs : VectorStore) :
  vector_store s = Some vs ->
  _initialize_qa_chain s
  = (Return tt,
     add_log (INFO, ChainInitialized)
       (set_qa_chain (Some (mkQAChain vs)) s)).
Proof.
  intros V. unfold _initialize_qa_chain, bind, get. now rewrite V.
Qed.

(** A rebuild over documents, when nothing fails in it. *)
Lemma refresh_documents_rebuilds (env : Env) (s : State) :
  found_documents env <> [] -> build_works env ->
  fst (_refresh_documents env s) = Return tt /\
  vector_store (snd (_refresh_documents env s)) = Some (built_store env) /\
  persisted_files (snd (_refresh_documents env s))
  = (Some (vs_index (built_store env)),
     Some (vs_docstore (built_store env))) /\
  last_refresh (snd (_refresh_documents env s))
  = Some (env_now env (clock_reads s)).
Proof.
  intros F (We & Ws).
  pose proof (refresh_documents_outcome env s) as O.
  destruct (found_documents env) as [|doc docs] eqn:Fd; [now destruct F|].
  rewrite We, Ws in O. destruct O as (V & R & P).
  destruct (refresh_documents_cases env s) as [(_ & H)|((e & R') & _)];
    [|congruence].
  destruct H as (_ & _ & [(F' & _)|(_ & L & _)]); [congruence|].
  auto.
Qed.

(** A rebuild over documents, when something fails in it. *)
Lemma refresh_documents_fails (env : Env) (s : State) :
  found_documents env <> [] -> ~ build_works env ->
  (exists e, fst (_refresh_documents env s) = Raise e) /\
  last_refresh (snd (_refresh_documents env s)) = last_refresh s.
Proof.
  intros F W.
  pose proof (refresh_documents_outcome env s) as O.
  assert (R : exists e, fst (_refresh_documents env s) = Raise e).
  { unfold build_works in W.
    destruct (found_documents env) as [|doc docs]; [now destruct F|].
    destruct (env_embed_fault env (chunks_of env)) as [embed_error|].
    - exists embed_error. apply O.
    - destruct O as (_ & O).
      destruct (env_save_fault env) as [[save_error|save_error]|].
      + exists save_error. apply O.
      + exists save_error. apply O.
      + destruct W. split; reflexivity. }
  split; [exact R|]. destruct R as (e & R).
  destruct (refresh_documents_cases env s) as [(R' & _)|(_ & H)];
    [congruence|].
  apply H.
Qed.

Lemma bind_returned (A B : Type) (m : M A) (k : A -> M B) (s s1 : State)
      (a : A) :
  m s = (Return a, s1) -> bind m k s = k a s1.
Proof. intros H. unfold bind. now rewrite H. Qed.

Lemma bind_raised (A B : Type) (m : M A) (k : A -> M B) (s s1 : State)
      (e : PyExc) :
  m s = (Raise e, s1) -> bind m k s = (Raise e, s1).
Proof. intros H. unfold bind. now rewrite H. Qed.

Lemma run_pair (A : Type) (m : M A) (s : State) :
  m s = (fst (m s), snd (m s)).
Proof. now destruct (m s). Qed.

(** The staleness check of a state that is due, over documents. *)
Lemma check_and_refresh_rebuilds (env : Env) (s : State) :
  refresh_due env s -> found_documents env <> [] -> build_works env ->
  fst (_check_and_refresh env s) = Return tt /\
  index_rebuilt env s (snd (_check_and_refresh env s)).
Proof.
  intros D F W. rewrite check_and_refresh_run.
  unfold refresh_due, index_rebuilt, rebuild_reading in *.
  destruct (last_refresh s) as [last|].
  - apply due_iff in D. rewrite D, bind_logger.
    destruct (refresh_documents_rebuilds env
                (add_log (INFO, IntervalReached)
                   (set_clock_reads (S (clock_reads s)) s)) F W)
      as (R & V & P & L).
    rewrite (bind_returned _ _ _ _ _ _ tt
               (eq_trans (run_pair _ _ _) (f_equal2 pair R eq_refl))).
    rewrite (initialize_qa_chain_run _ _ V). simpl.
    repeat split; assumption.
  - destruct (refresh_documents_rebuilds env s F W) as (R & V & P & L).
    repeat split; assumption.
Qed.

Lemma check_and_refresh_fails (env : Env) (s : State) :
  refresh_due env s -> found_documents env <> [] -> ~ build_works env ->
  (exists e, fst (_check_and_refresh env s) = Raise e) /\
  last_refresh (snd (_check_and_refresh env s)) = last_refresh s.
Proof.
  intros D F W. rewrite check_and_refresh_run. unfold refresh_due in D.
  destruct (last_refresh s) as [last|] eqn:Hl.
  - apply due_iff in D. rewrite D, bind_logger.
    destruct (refresh_documents_fails env
                (add_log (INFO, IntervalReached)
                   (set_clock_reads (S (clock_reads s)) s)) F W)
      as ((e & R) & L).
    rewrite (bind_raised _ _ _ _ _ _ e
               (eq_trans (run_pair _ _ _) (f_equal2 pair R eq_refl))).
    split; [now exists e|]. simpl. rewrite L. exact Hl.
  - destruct (refresh_documents_fails env s F W) as (R & L).
    split; [exact R|]. now rewrite L.
Qed.

(** What [query] does after the staleness check leaves the index, the
    directory and the time of last refresh alone. *)
Lemma query_keeps_index (env : Env) (question : string) (s : State) :
  vector_store (snd (query env question s))
  = vector_store (snd (_check_and_refresh env s)) /\
  store_dir (snd (query env question s))
  = store_dir (snd (_check_and_refresh env s)) /\
  last_refresh (snd (query env question s))
  = last_refresh (snd (_check_and_refresh env s)) /\
  returns (fst (query env question s))
  = returns (fst (_check_and_refresh env s)).
Proof.
  pose proof (wp_query env question s) as W. unfold wp in W.
  destruct (query env question s) as [[response|e] s'] eqn:Q; simpl.
  - destruct W as (s1 & C & _ & (_ & L & V & _ & Dr) & _).
    rewrite C. simpl. auto.
  - rewrite W. simpl. auto.
Qed.

Lemma query_count_cases (env : Env) (question : string) (s : State) :
  (refresh_due env s /\
   rebuild_count (snd (query env question s)) = S (rebuild_count s)) \/
  (~ refresh_due env s /\
   rebuild_count (snd (query env question s)) = rebuild_count s).
Proof.
  unfold query. rewrite bind_count.
  - apply check_and_refresh_count.
  - unfold call_chain. same_count_walk.
Qed.

(** C7.  Staleness is checked inside [query], at the clock reading the
    query takes, and nowhere else: a query rebuilds the index exactly
    when [last_refresh] is unset or at least [refresh_interval] seconds
    lie between [last_refresh] and that reading.
    - A query that is due enters the rebuild once.  Over a corpus with
      documents and a build in which nothing fails, it returns with the
      index rebuilt: the in-memory index is the one built from the
      chunks of the documents found, both files of the persisted index
      hold it, and [last_refresh] is the clock reading of the rebuild.
      When the embedding or the save fails, the query raises and
      [last_refresh] is as it was.  Over a corpus without documents the
      rebuild is the no-op of C8.
    - A query that arrives before the interval has elapsed returns
      without entering the rebuild: the in-memory index, the persisted
      directory and [last_refresh] are what they were. *)
Theorem query_rebuilds_exactly_when_due
        (env : Env) (question : string) (s : State) :
  (refresh_due env s /\
   rebuild_count (snd (query env question s)) = S (rebuild_count s) /\
   (found_documents env <> [] -> build_works env ->
    returns (fst (query env question s)) = true /\
    index_rebuilt env s (snd (query env question s))) /\
   (found_documents env <> [] -> ~ build_works env ->
    returns (fst (query env question s)) = false /\
    last_refresh (snd (query env question s)) = last_refresh s) /\
   (found_documents env = [] ->
    index_untouched s (snd (query env question s))))
  \/
  (~ refresh_due env s /\
   returns (fst (query env question s)) = true /\
   rebuild_count (snd (query env question s)) = rebuild_count s /\
   index_untouched s (snd (query env question s))).
Proof.
  destruct (query_keeps_index env question s) as (V & Dr & L & R).
  destruct (query_count_cases env question s) as [(D & C)|(N & C)].
  - left. split; [exact D|]. split; [exact C|]. split; [|split].
    + intros F W.
      destruct (check_and_refresh_rebuilds env s D F W)
        as (R' & V' & P' & L').
      rewrite R, R'. split; [reflexivity|].
      unfold index_rebuilt, persisted_files in *.
      rewrite V, Dr, L. auto.
    + intros F W.
      destruct (check_and_refresh_fails env s D F W) as ((e & R') & L').
      rewrite R, R', L. auto.
    + intros F.
      pose proof (untouched_refresh_documents env F) as U.
      assert (UC : transition index_untouched (_check_and_refresh env))
        by (unfold _check_and_refresh, _initialize_qa_chain;
            untouched_walk).
      assert (UQ : transition index_untouched (query env question))
        by (unfold query, call_chain; untouched_walk).
      apply UQ.
  - right. split; [exact N|].
    pose proof (wp_check_and_refresh env s) as W. unfold wp in W.
    destruct (_check_and_refresh env s) as [[[]|e] s1];
      [|now destruct W].
    destruct W as [(_ & ->)|(D & _)]; [|contradiction].
    simpl in *. split; [exact R|]. split; [exact C|].
    unfold index_untouched. auto.
Qed.

(** A due query over one PDF, from a state that holds the index of an
    earlier build. *)
Example due_query_rebuilds_index :
  refresh_due (Scenario.working [Scenario.agreement_pdf]) Scenario.started /\
  index_rebuilt (Scenario.working [Scenario.agreement_pdf])
    Scenario.started
    (snd (query (Scenario.working [Scenario.agreement_pdf])
            "What is the leverage ratio covenant?" Scenario.started)).
Proof.
  split.
  - vm_compute. discriminate.
  - repeat split.
Qed.

End RebuildFacts.
